(** * AutoEncoder_KMeans: the notebook's auto-encoder and its training driver

    A shallow embedding of [AutoEncoder_KMeans_MNIST.ipynb]: the classes
    [Encoder], [Decoder] and [AutoEncoder], and the notebook cells that
    pre-train, fine-tune and evaluate the model.

    Conventions of the embedding.
    - A Python [float] or a zero-dimensional tensor is a rational in lowest
      terms, or one of the two special values [inf] and [nan]; rounding
      error of the hardware arithmetic is not modelled.  The loss of a batch
      is [inf] or [nan] where its float32 computation leaves the range of
      the format, and the tensor library says where that is.
    - A tensor of shape [N, d] is the list of its [N] rows.
    - The cells above the one that creates the model have run: the imports,
      [device], the three classes and the data.
    - A Python exception is the [Raise] outcome of a computation; the state
      reached when it is raised is kept, as in a notebook kernel.
    - The global random generator of the tensor library is a fixed stream of
      draws and a position in it. *)

From Stdlib Require Import ZArith QArith Qround Lia.
From stdpp Require Import base option list gmap strings pretty.

(** ** Exceptions and the state-and-exception monad *)

Inductive exn :=
| IndexError
| AttributeError (name : string)
| NameError (name : string)
| ValueError
| RuntimeError
| FileNotFoundError (path : string)
| ZeroDivisionError.

Inductive result (A : Type) :=
| Ok (a : A)
| Raise (e : exn).
Arguments Ok {A} a.
Arguments Raise {A} e.

Definition is_ok {A} (r : result A) : bool :=
  match r with Ok _ => true | Raise _ => false end.

(** A computation over a state [S]: it ends normally or by an exception,
    and in both cases leaves a state behind. *)
Definition M (S A : Type) : Type := S → result A * S.

#[global] Instance M_ret {S} : MRet (M S) := λ A a s, (Ok a, s).
#[global] Instance M_bind {S} : MBind (M S) := λ A B f c s,
  match c s with
  | (Ok a, s') => f a s'
  | (Raise e, s') => (Raise e, s')
  end.

Definition raise {S A} (e : exn) : M S A := λ s, (Raise e, s).
Definition get {S} : M S S := λ s, (Ok s, s).
Definition gets {S A} (f : S → A) : M S A := λ s, (Ok (f s), s).
Definition modify {S} (f : S → S) : M S unit := λ s, (Ok tt, f s).
Definition lift {S A} (r : result A) : M S A := λ s, (r, s).

(** [for x in l: body x] *)
Fixpoint for_each {S A} (l : list A) (body : A → M S unit) : M S unit :=
  match l with
  | [] => mret tt
  | x :: l' => body x ;; for_each l' body
  end.

(** [for x in l: acc = body acc x] *)
Fixpoint for_fold {S A B} (l : list A) (body : B → A → M S B) (acc : B) : M S B :=
  match l with
  | [] => mret acc
  | x :: l' => acc' ← body acc x; for_fold l' body acc'
  end.

(** ** Python sequences *)

(** [range(a, b)] *)
Definition py_range (a b : Z) : list Z := seqZ a (b - a).

(** [l[i]], with Python's negative indices. *)
Definition py_index {A} (l : list A) (i : Z) : result A :=
  let n := Z.of_nat (length l) in
  let j := if (i <? 0)%Z then (n + i)%Z else i in
  if (j <? 0)%Z then Raise IndexError
  else match l !! Z.to_nat j with
       | Some x => Ok x
       | None => Raise IndexError
       end.

(** ** Scalars *)

Module Scalar.

Definition add (x y : Q) : Q := Qred (x + y).
Definition sub (x y : Q) : Q := Qred (x - y).
Definition mul (x y : Q) : Q := Qred (x * y).
Definition div (x y : Q) : Q := Qred (x / y).
Definition ltb (x y : Q) : bool := negb (Qle_bool y x).
Definition eqb (x y : Q) : bool := Qeq_bool x y.
Definition of_nat (n : nat) : Q := inject_Z (Z.of_nat n).

Definition sum (l : list Q) : Q := foldl add 0%Q l.

(** Round half to even, to the nearest integer. *)
Definition rint (x : Q) : Z :=
  let f := Qfloor x in
  let r := (x - inject_Z f)%Q in
  match (r ?= 1 # 2)%Q with
  | Lt => f
  | Gt => (f + 1)%Z
  | Eq => if Z.even f then f else (f + 1)%Z
  end.

(** A floating-point value as the notebook sees it. *)
Inductive float := Finite (q : Q) | Inf | NaN.

Definition float_ltb (x y : float) : bool :=
  match x, y with
  | Finite a, Finite b => ltb a b
  | Finite _, Inf => true
  | _, _ => false
  end.

Definition is_nan (x : float) : bool :=
  match x with NaN => true | _ => false end.
Definition is_inf (x : float) : bool :=
  match x with Inf => true | _ => false end.
Definition finite_part (x : float) : Q :=
  match x with Finite q => q | _ => 0%Q end.

(** What float32 makes of a computation: the format holds the result, or
    the computation leaves the range of the format and ends in [inf], or in
    [nan]. *)
Inductive range := InRange | Overflow | Invalid.

Definition float32 (r : range) (q : Q) : float :=
  match r with
  | InRange => Finite q
  | Overflow => Inf
  | Invalid => NaN
  end.

(** [np.mean(l)]: [nan] for the empty list. *)
Definition np_mean (l : list float) : float :=
  if existsb is_nan l then NaN
  else if existsb is_inf l then Inf
  else match l with
       | [] => NaN
       | _ => Finite (div (sum (finite_part <$> l)) (of_nat (length l)))
       end.

(** [np.round(x, decimals)] *)
Definition np_round (x : float) (decimals : nat) : float :=
  match x with
  | Finite q =>
      let scale := inject_Z (10 ^ Z.of_nat decimals) in
      Finite (div (inject_Z (rint (q * scale))) scale)
  | _ => x
  end.

End Scalar.

Abbreviation vec := (list Q).
Abbreviation mat := (list (list Q)).

(** ** The tensor library's random generator

    What the global generator yields at each position of its stream, read
    as an initial parameter value, as a dropout decision ([true] keeps the
    unit) or as the permutation a shuffling data loader draws.  A
    computation that draws moves the position forward. *)

Class Generator := {
  uniform : nat → Q;
  bernoulli : nat → bool;
  randperm : nat → nat → list nat
}.

(** ** torch.nn.Linear *)

Module Linear.

Record t := {
  in_features : Z;
  out_features : Z;
  weight : mat;   (* out_features rows of in_features entries *)
  bias : vec
}.

(** The number of draws that initialise a layer, and the layer drawn from
    position [s] on: the weight first, row by row, then the bias. *)
Definition size (in_f out_f : Z) : nat :=
  Z.to_nat out_f * Z.to_nat in_f + Z.to_nat out_f.

Definition make `{Generator} (s : nat) (in_f out_f : Z) : t :=
  let n_in := Z.to_nat in_f in
  let n_out := Z.to_nat out_f in
  {| in_features := in_f;
     out_features := out_f;
     weight := (λ j, uniform <$> seq (s + j * n_in) n_in) <$> seq 0 n_out;
     bias := uniform <$> seq (s + n_out * n_in) n_out |}.

(** [torch.nn.Linear(in_features, out_features)]: a tensor cannot have a
    negative dimension. *)
Definition init `{Generator} (in_f out_f : Z) : M nat t := λ s,
  if ((in_f <? 0) || (out_f <? 0))%Z then (Raise RuntimeError, s)
  else (Ok (make s in_f out_f), s + size in_f out_f).

(** The parameters in the order [parameters()] lists their entries. *)
Definition parameters (self : t) : vec := concat (weight self) ++ bias self.

(** A layer from [a] to [b] features whose tensors have the shapes that
    go with it. *)
Definition shaped (a b : Z) (self : t) : Prop :=
  in_features self = a ∧ out_features self = b ∧
  length (weight self) = Z.to_nat b ∧
  Forall (λ r, length r = Z.to_nat a) (weight self) ∧
  length (bias self) = Z.to_nat b.

Definition dot (w x : vec) : Q := Scalar.sum (zip_with Scalar.mul w x).

(** [self(x)]: every row of [x] is mapped to [W row + b]; the rows must
    have [in_features] entries. *)
Definition forward (self : t) (x : mat) : result mat :=
  if forallb (λ r, (Z.of_nat (length r) =? in_features self)%Z) x
  then Ok ((λ r, zip_with (λ w b, Scalar.add (dot w r) b)
                   (weight self) (bias self)) <$> x)
  else Raise RuntimeError.

(** The in-place update of the parameters by an optimizer: every entry is
    replaced by a new value, the shapes stay. *)
Definition update (fw : nat → nat → Q → Q) (fb : nat → Q → Q) (self : t) : t :=
  {| in_features := in_features self;
     out_features := out_features self;
     weight := imap (λ j row, imap (fw j) row) (weight self);
     bias := imap fb (bias self) |}.

End Linear.

(** ** torch.nn.ReLU and torch.nn.Dropout *)

Definition relu (x : Q) : Q := if Scalar.ltb 0 x then x else 0%Q.

(** [nn.ReLU()] as a callable on tensors. *)
Definition ReLU (x : mat) : mat := (λ r : vec, relu <$> r) <$> x.

Module Dropout.

Record t := { p : Q; training : bool }.

(** [nn.Dropout(p)]; a new module is in training mode. *)
Definition init (p : Q) : result t :=
  if Scalar.ltb p 0 || Scalar.ltb 1 p then Raise ValueError
  else Ok {| p := p; training := true |}.

(** One row under a mask drawn from position [s] on. *)
Definition mask_row `{Generator} (p : Q) (r : vec) (s : nat) : vec :=
  zip_with (λ v k, if bernoulli k then Scalar.div v (1 - p) else 0%Q)
           r (seq s (length r)).

Fixpoint mask_rows `{Generator} (p : Q) (x : mat) (s : nat) : mat * nat :=
  match x with
  | [] => ([], s)
  | r :: x' =>
      let '(y, s') := mask_rows p x' (s + length r) in
      (mask_row p r s :: y, s')
  end.

(** [self(x)]: the identity in evaluation mode and for [p = 0]; all zeros
    for [p = 1]; otherwise every entry is dropped or rescaled by its own
    draw. *)
Definition forward `{Generator} (self : t) (x : mat) : M nat mat := λ s,
  if negb (training self) || Scalar.eqb (p self) 0 then (Ok x, s)
  else if Scalar.eqb (p self) 1 then (Ok ((λ r : vec, (λ _, 0%Q) <$> r) <$> x), s)
  else let '(y, s') := mask_rows (p self) x s in (Ok y, s').

Definition train (mode : bool) (self : t) : t :=
  {| p := p self; training := mode |}.

End Dropout.

(** The attribute name [f"dense_{i}"]. *)
Definition dense_name (i : Z) : string := "dense_" +:+ pretty i.

(** [getattr(self, f"dense_{i}")] on the attributes set by [setattr]. *)
Definition getattr_dense (dense : gmap string Linear.t) (i : Z) : result Linear.t :=
  match dense !! dense_name i with
  | Some l => Ok l
  | None => Raise (AttributeError (dense_name i))
  end.

(** ** class Encoder *)

Module Encoder.

Record t := {
  input_layer : Linear.t;
  n_layers : Z;
  dense : gmap string Linear.t;   (* the attributes dense_0, dense_1, ... *)
  activation : mat → mat;
  hidden_layers : list Z;
  dropout : Dropout.t;
  dropout_rate : Q;
  input_size : Z;
  training : bool
}.

(** [Encoder.__init__] *)
Definition init `{Generator} (input_size : Z) (hidden_layers : list Z)
    (dropout_rate : Q) (activation : mat → mat) : M nat t :=
  h0 ← lift (py_index hidden_layers 0);
  input_layer ← Linear.init input_size h0;
  '(dense, n_layers) ←
    for_fold (py_range 0 (Z.of_nat (length hidden_layers) - 1))
      (λ '(dense, n_layers) i,
         a ← lift (py_index hidden_layers i);
         b ← lift (py_index hidden_layers (i + 1));
         l ← Linear.init a b;
         mret (<[dense_name i := l]> dense, (n_layers + 1)%Z))
      (∅, 0%Z);
  dropout ← lift (Dropout.init dropout_rate);
  mret {| input_layer := input_layer;
          n_layers := n_layers;
          dense := dense;
          activation := activation;
          hidden_layers := hidden_layers;
          dropout := dropout;
          dropout_rate := dropout_rate;
          input_size := input_size;
          training := true |}.

(** [Encoder.forward] *)
Definition forward `{Generator} (self : t) (x : mat) : M nat mat :=
  x ← lift (Linear.forward (input_layer self) x);
  let x := activation self x in
  x ← for_fold (py_range 0 (n_layers self - 1))
        (λ x i,
           dense_i ← lift (getattr_dense (dense self) i);
           x ← lift (Linear.forward dense_i x);
           let x := activation self x in
           Dropout.forward (dropout self) x)
        x;
  output_layer ← lift (getattr_dense (dense self) (n_layers self - 1));
  lift (Linear.forward output_layer x).

(** [self.train(mode)]: the flag of the module and of its children. *)
Definition train (mode : bool) (self : t) : t :=
  {| input_layer := input_layer self;
     n_layers := n_layers self;
     dense := dense self;
     activation := activation self;
     hidden_layers := hidden_layers self;
     dropout := Dropout.train mode (dropout self);
     dropout_rate := dropout_rate self;
     input_size := input_size self;
     training := mode |}.

End Encoder.

(** ** class Decoder *)

Module Decoder.

Record t := {
  hidden_layers : list Z;
  dense : gmap string Linear.t;
  output_layer : Linear.t;
  n_layers : Z;
  activation : mat → mat;
  dropout : Dropout.t;
  training : bool
}.

(** [Decoder.__init__] *)
Definition init `{Generator} (encoder : Encoder.t) (activation : mat → mat)
    : M nat t :=
  let hidden_layers := Encoder.hidden_layers encoder in
  let n_layers := Encoder.n_layers encoder in
  let hidden_layers := rev hidden_layers in
  dense ←
    for_fold (py_range 0 n_layers)
      (λ dense i,
         a ← lift (py_index hidden_layers i);
         b ← lift (py_index hidden_layers (i + 1));
         l ← Linear.init a b;
         mret (<[dense_name i := l]> dense))
      ∅;
  a ← lift (py_index hidden_layers (-1));
  output_layer ← Linear.init a (Encoder.input_size encoder);
  dropout ← lift (Dropout.init (Encoder.dropout_rate encoder));
  mret {| hidden_layers := hidden_layers;
          dense := dense;
          output_layer := output_layer;
          n_layers := n_layers;
          activation := activation;
          dropout := dropout;
          training := true |}.

(** [Decoder.forward] *)
Definition forward `{Generator} (self : t) (x : mat) : M nat mat :=
  x ← for_fold (py_range 0 (n_layers self))
        (λ x i,
           dense_i ← lift (getattr_dense (dense self) i);
           x ← lift (Linear.forward dense_i x);
           let x := activation self x in
           Dropout.forward (dropout self) x)
        x;
  lift (Linear.forward (output_layer self) x).

Definition train (mode : bool) (self : t) : t :=
  {| hidden_layers := hidden_layers self;
     dense := dense self;
     output_layer := output_layer self;
     n_layers := n_layers self;
     activation := activation self;
     dropout := Dropout.train mode (dropout self);
     training := mode |}.

End Decoder.

(** ** class AutoEncoder *)

Module AutoEncoder.

Record t := {
  encoder : Encoder.t;
  decoder : Decoder.t;
  hidden_layers : list Z;
  training : bool
}.

(** [AutoEncoder.__init__]: the [activation] argument is accepted and not
    passed on; [Encoder] and [Decoder] are called with their default. *)
Definition init `{Generator} (input_size : Z) (hidden_layers : list Z)
    (dropout_rate : Q) (activation : mat → mat) : M nat t :=
  encoder ← Encoder.init input_size hidden_layers dropout_rate ReLU;
  decoder ← Decoder.init encoder ReLU;
  mret {| encoder := encoder;
          decoder := decoder;
          hidden_layers := hidden_layers;
          training := true |}.

(** [AutoEncoder.forward] *)
Definition forward `{Generator} (self : t) (x : mat) : M nat (mat * mat) :=
  encoded ← Encoder.forward (encoder self) x;
  decoded ← Decoder.forward (decoder self) encoded;
  mret (encoded, decoded).

(** [model.train(mode)], as [nn.Module] defines it. *)
Definition train (mode : bool) (self : t) : t :=
  {| encoder := Encoder.train mode (encoder self);
     decoder := Decoder.train mode (decoder self);
     hidden_layers := hidden_layers self;
     training := mode |}.

(** [model.eval()] is [model.train(False)]. *)
Definition eval (self : t) : t := train false self.

End AutoEncoder.

(** ** Automatic differentiation and the optimizer

    [loss.backward()] followed by [optimizer.step()] replaces every entry of
    every parameter by a new value.  Which value is the tensor library's
    business: it is taken as given, as a function of the learning rate, the
    momentum, the optimizer's buffers, the model, the batch and the position
    of the generator at the forward pass, for the parameter named as in
    [named_parameters()].

    So is the range of its float32 arithmetic: [mse_range input target] says
    whether the computation of the mean squared error of two tensors stays
    in the range of the format. *)

Class Autograd := {
  buffers : Type;
  no_buffers : buffers;
  sgd_weight : Q → Q → buffers → AutoEncoder.t → mat → nat →
               string → nat → nat → Q → Q;
  sgd_bias : Q → Q → buffers → AutoEncoder.t → mat → nat →
             string → nat → Q → Q;
  sgd_buffers : Q → Q → buffers → AutoEncoder.t → mat → nat → buffers;
  mse_range : mat → mat → Scalar.range
}.

(** The layers of a model under their qualified names. *)
Definition map_layers (f : string → Linear.t → Linear.t) (m : AutoEncoder.t)
    : AutoEncoder.t :=
  let e := AutoEncoder.encoder m in
  let d := AutoEncoder.decoder m in
  {| AutoEncoder.encoder :=
       {| Encoder.input_layer := f "encoder.input_layer" (Encoder.input_layer e);
          Encoder.n_layers := Encoder.n_layers e;
          Encoder.dense :=
            map_imap (λ k l, Some (f ("encoder." +:+ k) l)) (Encoder.dense e);
          Encoder.activation := Encoder.activation e;
          Encoder.hidden_layers := Encoder.hidden_layers e;
          Encoder.dropout := Encoder.dropout e;
          Encoder.dropout_rate := Encoder.dropout_rate e;
          Encoder.input_size := Encoder.input_size e;
          Encoder.training := Encoder.training e |};
     AutoEncoder.decoder :=
       {| Decoder.hidden_layers := Decoder.hidden_layers d;
          Decoder.dense :=
            map_imap (λ k l, Some (f ("decoder." +:+ k) l)) (Decoder.dense d);
          Decoder.output_layer :=
            f "decoder.output_layer" (Decoder.output_layer d);
          Decoder.n_layers := Decoder.n_layers d;
          Decoder.activation := Decoder.activation d;
          Decoder.dropout := Decoder.dropout d;
          Decoder.training := Decoder.training d |};
     AutoEncoder.hidden_layers := AutoEncoder.hidden_layers m;
     AutoEncoder.training := AutoEncoder.training m |}.

(** [torch.optim.SGD]: the identity of the model whose parameters it
    holds, its hyper-parameters and its buffers. *)
Module SGD.
Record t `{Autograd} := {
  id : nat;
  params : nat;
  lr : Q;
  momentum : Q;
  state : buffers
}.
End SGD.

(** [lr_scheduler.StepLR]: the identity of its optimizer and its counter. *)
Module StepLR.
Record t := {
  optimizer : nat;
  step_size : Z;
  gamma : Q;
  last_epoch : Z
}.
End StepLR.

(** [torch.utils.data.DataLoader] over records that are already flat:
    [x_batch.view(x_batch.shape[0], -1)] keeps the entries of a record in
    their order. *)
Module DataLoader.

Record t := {
  dataset : list (vec * Z);
  batch_size : nat;
  shuffle : bool
}.

Definition batch_lengths (n len : nat) : list nat :=
  replicate (len / n) n ++ (if len mod n =? 0 then [] else [len mod n]).

(** One pass [for x_batch, y_batch in dataloader]: the batches in their
    order; a shuffling loader draws a permutation first. *)
Definition iter `{Generator} (self : t) : M nat (list (mat * list Z)) := λ s,
  let n := length (dataset self) in
  let '(order, s') :=
    if shuffle self then (randperm s n, S s) else (seq 0 n, s) in
  let records := omap (λ i, dataset self !! i) order in
  (Ok ((λ b : list (vec * Z), (fst <$> b, snd <$> b))
         <$> reshape (batch_lengths (batch_size self) (length records)) records),
   s').

End DataLoader.

(** [nn.MSELoss()(input, target)]: the mean of the squared differences of
    two tensors of one shape ([nan] when they have no entry), where float32
    holds the computation, and [inf] or [nan] where it does not.  Shapes
    that differ are rejected; broadcasting is not modelled. *)
Definition same_shape (a b : mat) : bool :=
  (length a =? length b) &&
  forallb (λ p : vec * vec, length (fst p) =? length (snd p)) (zip a b).

Definition MSELoss `{Autograd} (input target : mat) : result Scalar.float :=
  if same_shape input target then
    let sq := zip_with (λ o x, let d := Scalar.sub o x in Scalar.mul d d)
                       (concat input) (concat target) in
    match sq with
    | [] => Ok Scalar.NaN
    | _ => Ok (Scalar.float32 (mse_range input target)
                 (Scalar.div (Scalar.sum sq) (Scalar.of_nat (length sq))))
    end
  else Raise RuntimeError.

(** ** The notebook *)

(** What a cell does that is visible from outside, and the two steps of a
    batch the claims speak about. *)
Inductive event :=
| Forward (m : AutoEncoder.t)        (* [model(x_batch)], with the model as called *)
| Step (lr : Q)                      (* [optimizer.step()] at this learning rate *)
| Print (epoch n_epochs : Z) (mean_loss : Scalar.float)
| Save (path : string) (m : AutoEncoder.t).

Module Notebook.
Section WithLibrary.
Context `{Generator} `{Autograd}.

Record t := {
  model : option (nat * AutoEncoder.t);   (* the object bound to [model]: its identity and its state *)
  optimizer : option SGD.t;
  scheduler : option StepLR.t;
  loss_ : option unit;   (* whether [loss_] is bound; the module [nn.MSELoss()] has no state *)
  losses : option (list Scalar.float);   (* the list bound to [losses] *)
  loss : option Scalar.float;   (* the tensor bound to [loss] *)
  mean_loss : option Scalar.float;
  best_loss : option Scalar.float;
  dataloader : DataLoader.t;
  torch_models : bool;   (* whether the directory ./torch_models exists *)
  files : gmap string AutoEncoder.t;   (* the files under ./torch_models, none where it does not exist *)
  rng : nat;   (* position of the global generator *)
  fresh : nat;   (* identity of the next object created *)
  trace : list event   (* what the cells have done so far, oldest first *)
}.

Definition set_model (v : option (nat * AutoEncoder.t)) (ns : t) : t :=
  {| model := v; optimizer := optimizer ns; scheduler := scheduler ns;
     loss_ := loss_ ns; losses := losses ns; loss := loss ns;
     mean_loss := mean_loss ns; best_loss := best_loss ns;
     dataloader := dataloader ns; torch_models := torch_models ns;
     files := files ns; rng := rng ns; fresh := fresh ns; trace := trace ns |}.
Definition set_optimizer (v : option SGD.t) (ns : t) : t :=
  {| model := model ns; optimizer := v; scheduler := scheduler ns;
     loss_ := loss_ ns; losses := losses ns; loss := loss ns;
     mean_loss := mean_loss ns; best_loss := best_loss ns;
     dataloader := dataloader ns; torch_models := torch_models ns;
     files := files ns; rng := rng ns; fresh := fresh ns; trace := trace ns |}.
Definition set_scheduler (v : option StepLR.t) (ns : t) : t :=
  {| model := model ns; optimizer := optimizer ns; scheduler := v;
     loss_ := loss_ ns; losses := losses ns; loss := loss ns;
     mean_loss := mean_loss ns; best_loss := best_loss ns;
     dataloader := dataloader ns; torch_models := torch_models ns;
     files := files ns; rng := rng ns; fresh := fresh ns; trace := trace ns |}.
Definition set_loss_ (v : option unit) (ns : t) : t :=
  {| model := model ns; optimizer := optimizer ns;
     scheduler := scheduler ns; loss_ := v; losses := losses ns;
     loss := loss ns; mean_loss := mean_loss ns; best_loss := best_loss ns;
     dataloader := dataloader ns; torch_models := torch_models ns;
     files := files ns; rng := rng ns; fresh := fresh ns; trace := trace ns |}.
Definition set_losses (v : option (list Scalar.float)) (ns : t) : t :=
  {| model := model ns; optimizer := optimizer ns;
     scheduler := scheduler ns; loss_ := loss_ ns; losses := v;
     loss := loss ns; mean_loss := mean_loss ns; best_loss := best_loss ns;
     dataloader := dataloader ns; torch_models := torch_models ns;
     files := files ns; rng := rng ns; fresh := fresh ns; trace := trace ns |}.
Definition set_loss (v : option Scalar.float) (ns : t) : t :=
  {| model := model ns; optimizer := optimizer ns;
     scheduler := scheduler ns; loss_ := loss_ ns; losses := losses ns;
     loss := v; mean_loss := mean_loss ns; best_loss := best_loss ns;
     dataloader := dataloader ns; torch_models := torch_models ns;
     files := files ns; rng := rng ns; fresh := fresh ns; trace := trace ns |}.
Definition set_mean_loss (v : option Scalar.float) (ns : t) : t :=
  {| model := model ns; optimizer := optimizer ns;
     scheduler := scheduler ns; loss_ := loss_ ns; losses := losses ns;
     loss := loss ns; mean_loss := v; best_loss := best_loss ns;
     dataloader := dataloader ns; torch_models := torch_models ns;
     files := files ns; rng := rng ns; fresh := fresh ns; trace := trace ns |}.
Definition set_best_loss (v : option Scalar.float) (ns : t) : t :=
  {| model := model ns; optimizer := optimizer ns;
     scheduler := scheduler ns; loss_ := loss_ ns; losses := losses ns;
     loss := loss ns; mean_loss := mean_loss ns; best_loss := v;
     dataloader := dataloader ns; torch_models := torch_models ns;
     files := files ns; rng := rng ns; fresh := fresh ns; trace := trace ns |}.
Definition set_dataloader (v : DataLoader.t) (ns : t) : t :=
  {| model := model ns; optimizer := optimizer ns;
     scheduler := scheduler ns; loss_ := loss_ ns; losses := losses ns;
     loss := loss ns; mean_loss := mean_loss ns; best_loss := best_loss ns;
     dataloader := v; torch_models := torch_models ns; files := files ns;
     rng := rng ns; fresh := fresh ns; trace := trace ns |}.
Definition set_files (v : gmap string AutoEncoder.t) (ns : t) : t :=
  {| model := model ns; optimizer := optimizer ns;
     scheduler := scheduler ns; loss_ := loss_ ns; losses := losses ns;
     loss := loss ns; mean_loss := mean_loss ns; best_loss := best_loss ns;
     dataloader := dataloader ns; torch_models := torch_models ns;
     files := v; rng := rng ns; fresh := fresh ns; trace := trace ns |}.
Definition set_rng (v : nat) (ns : t) : t :=
  {| model := model ns; optimizer := optimizer ns;
     scheduler := scheduler ns; loss_ := loss_ ns; losses := losses ns;
     loss := loss ns; mean_loss := mean_loss ns; best_loss := best_loss ns;
     dataloader := dataloader ns; torch_models := torch_models ns;
     files := files ns; rng := v; fresh := fresh ns; trace := trace ns |}.
Definition set_fresh (v : nat) (ns : t) : t :=
  {| model := model ns; optimizer := optimizer ns;
     scheduler := scheduler ns; loss_ := loss_ ns; losses := losses ns;
     loss := loss ns; mean_loss := mean_loss ns; best_loss := best_loss ns;
     dataloader := dataloader ns; torch_models := torch_models ns;
     files := files ns; rng := rng ns; fresh := v; trace := trace ns |}.
Definition set_trace (v : list event) (ns : t) : t :=
  {| model := model ns; optimizer := optimizer ns;
     scheduler := scheduler ns; loss_ := loss_ ns; losses := losses ns;
     loss := loss ns; mean_loss := mean_loss ns; best_loss := best_loss ns;
     dataloader := dataloader ns; torch_models := torch_models ns;
     files := files ns; rng := rng ns; fresh := fresh ns; trace := v |}.

Definition getvar {A} (name : string) (var : t → option A) : M t A := λ ns,
  match var ns with
  | Some v => (Ok v, ns)
  | None => (Raise (NameError name), ns)
  end.

Definition log (e : event) : M t unit :=
  modify (λ ns, set_trace (trace ns ++ [e]) ns).

(** A computation that draws from the global generator. *)
Definition draw {A} (c : M nat A) : M t A := λ ns,
  let '(r, s) := c (rng ns) in (r, set_rng s ns).

Definition new_id : M t nat := λ ns,
  (Ok (fresh ns), set_fresh (S (fresh ns)) ns).

(** [torch.save(model, path)], for a path in ./torch_models: the file holds
    the model as it is now.  No cell creates the directory; where it does
    not exist the library raises [RuntimeError] and nothing is written. *)
Definition torch_save (path : string) : M t unit :=
  '(_, m) ← getvar "model" model;
  dir ← gets torch_models;
  if (dir : bool)
  then modify (λ ns, set_files (<[path := m]> (files ns)) ns);;
       log (Save path m)
  else raise RuntimeError.

(** [torch.load(path)]: a new object with the state the file holds. *)
Definition torch_load (path : string) : M t (nat * AutoEncoder.t) :=
  fs ← gets files;
  match fs !! path with
  | Some m => i ← new_id; mret (i, m)
  | None => raise (FileNotFoundError path)
  end.

(** [model = torch.load(path)] *)
Definition load_model (path : string) : M t (nat * AutoEncoder.t) :=
  '(i, m) ← torch_load path;
  modify (set_model (Some (i, m)));;
  mret (i, m).

(** The cell "Create Model and Specify Training Parameters". *)
Definition create_model_cell (n_input_features : Z) (hidden_layers : list Z)
    (dropout_rate : Q) : M t unit :=
  (* loss_ = nn.MSELoss() *)
  modify (set_loss_ (Some tt));;
  m ← draw (AutoEncoder.init n_input_features hidden_layers dropout_rate ReLU);
  i ← new_id;
  modify (set_model (Some (i, m)));;
  (* model.train() *)
  modify (set_model (Some (i, AutoEncoder.train true m)));;
  let lr := 1 # 10 in
  o ← new_id;
  modify (set_optimizer (Some {| SGD.id := o; SGD.params := i; SGD.lr := lr;
                                 SGD.momentum := 9 # 10;
                                 SGD.state := no_buffers |}));;
  modify (set_scheduler (Some {| StepLR.optimizer := o;
                                 StepLR.step_size := 100;
                                 StepLR.gamma := 1 # 10;
                                 StepLR.last_epoch := 0 |})).

(** [loss.backward(); optimizer.step()]: the parameters the optimizer holds
    are those of the model it was created for. *)
Definition optimizer_step (x_batch : mat) (s0 : nat) : M t unit :=
  o ← getvar "optimizer" optimizer;
  '(i, m) ← getvar "model" model;
  log (Step (SGD.lr o));;
  if SGD.params o =? i then
    let ctx {A} (f : Q → Q → buffers → AutoEncoder.t → mat → nat → A) : A :=
      f (SGD.lr o) (SGD.momentum o) (SGD.state o) m x_batch s0 in
    modify (set_model (Some (i,
      map_layers (λ name, Linear.update (ctx sgd_weight name)
                                        (ctx sgd_bias name)) m)));;
    modify (set_optimizer (Some {| SGD.id := SGD.id o;
                                   SGD.params := SGD.params o;
                                   SGD.lr := SGD.lr o;
                                   SGD.momentum := SGD.momentum o;
                                   SGD.state := ctx sgd_buffers |}))
  else mret tt.

(** The body of the batch loop; the two training cells have the same
    statements in it. *)
Definition train_batch (x_batch : mat) : M t unit :=
  (* optimizer.zero_grad() *)
  _ ← getvar "optimizer" optimizer;
  '(_, m) ← getvar "model" model;
  s0 ← gets rng;
  log (Forward m);;
  '(_, output) ← draw (AutoEncoder.forward m x_batch);
  (* loss = loss_(output, x_batch) *)
  _ ← getvar "loss_" loss_;
  l ← lift (MSELoss output x_batch);
  modify (set_loss (Some l));;
  ls ← getvar "losses" losses;
  modify (set_losses (Some (ls ++ [l])));;
  optimizer_step x_batch s0.

Definition batch_loop : M t unit :=
  dl ← gets dataloader;
  batches ← draw (DataLoader.iter dl);
  for_each batches (λ '(x_batch, y_batch), train_batch x_batch).

(** [scheduler.step()] *)
Definition scheduler_step : M t unit :=
  sch ← getvar "scheduler" scheduler;
  let n := (StepLR.last_epoch sch + 1)%Z in
  modify (set_scheduler (Some {| StepLR.optimizer := StepLR.optimizer sch;
                                 StepLR.step_size := StepLR.step_size sch;
                                 StepLR.gamma := StepLR.gamma sch;
                                 StepLR.last_epoch := n |}));;
  o ← gets optimizer;
  match o with
  | Some o =>
      if (SGD.id o =? StepLR.optimizer sch)
         && (n `mod` StepLR.step_size sch =? 0)%Z
      then modify (set_optimizer (Some
             {| SGD.id := SGD.id o; SGD.params := SGD.params o;
                SGD.lr := Scalar.mul (SGD.lr o) (StepLR.gamma sch);
                SGD.momentum := SGD.momentum o;
                SGD.state := SGD.state o |}))
      else mret tt
  | None => mret tt
  end.

(** [mean_loss = np.round(np.mean(losses), 5)] and the progress line. *)
Definition report (epoch n_epochs eval_every : Z) : M t Scalar.float :=
  ls ← getvar "losses" losses;
  let mean_loss := Scalar.np_round (Scalar.np_mean ls) 5 in
  modify (set_mean_loss (Some mean_loss));;
  (if (eval_every =? 0)%Z then raise ZeroDivisionError
   else if ((epoch + 1) `mod` eval_every =? 0)%Z
        then log (Print (epoch + 1) n_epochs mean_loss)
        else mret tt);;
  mret mean_loss.

(** The cell "Pre-train AutoEncoder". *)
Definition pretrain_epoch (n_epochs eval_every epoch : Z) : M t unit :=
  modify (set_losses (Some []));;
  batch_loop;;
  mean_loss ← report epoch n_epochs eval_every;
  scheduler_step;;
  best_loss ← getvar "best_loss" best_loss;
  if Scalar.float_ltb mean_loss best_loss then
    l ← getvar "loss" loss;
    modify (set_best_loss (Some l));;
    torch_save "./torch_models/autoencoder"
  else mret tt.

Definition pretrain_cell (n_epochs eval_every : Z) : M t unit :=
  modify (set_best_loss (Some Scalar.Inf));;
  for_each (py_range 0 n_epochs) (pretrain_epoch n_epochs eval_every).

(** The cell "Fine-Tune Auto-Encoder". *)
Definition finetune_epoch (n_epochs eval_every epoch : Z) : M t unit :=
  batch_loop;;
  _ ← report epoch n_epochs eval_every;
  torch_save "./torch_models/autoencoder-finetuned".

Definition finetune_cell (n_epochs eval_every : Z) : M t unit :=
  '(i, m) ← load_model "./torch_models/autoencoder";
  (* model.eval() *)
  modify (set_model (Some (i, AutoEncoder.eval m)));;
  let lr := 1 # 10 in
  o ← new_id;
  modify (set_optimizer (Some {| SGD.id := o; SGD.params := i; SGD.lr := lr;
                                 SGD.momentum := 9 # 10;
                                 SGD.state := no_buffers |}));;
  modify (set_best_loss (Some Scalar.Inf));;
  for_each (py_range 0 n_epochs) (finetune_epoch n_epochs eval_every).

(** The cells "Evaluate Pre-trained Auto-Encoder" and "Evaluate Fine-tuned
    Auto-Encoder": the embedding of the data [X]. *)
Definition evaluate_cell (path : string) (X : mat) : M t mat :=
  '(i, m) ← load_model path;
  log (Forward m);;
  '(embedded, _) ← draw (AutoEncoder.forward m X);
  mret embedded.

End WithLibrary.
End Notebook.

(** The cells with the constants the notebook writes in them. *)
Definition pretrained_path : string := "./torch_models/autoencoder".
Definition finetuned_path : string := "./torch_models/autoencoder-finetuned".


(** ** A small instance to run the cells on

    A generator that initialises every parameter to zero, keeps the units at
    even positions and leaves the order of the records as it is; and
    gradient descent with momentum as it acts on a model whose weights are
    all zero: the reconstruction is then the bias of the output layer, the
    gradient of every other parameter is zero, and so only that bias
    moves.  Every loss stays in the range of float32. *)
Module Toy.

#[export] Instance zeros : Generator :=
  {| uniform := λ _, 0%Q;
     bernoulli := Nat.even;
     randperm := λ _ n, seq 0 n |}.

(** The same, with every parameter initialised to one. *)
Definition ones : Generator :=
  {| uniform := λ _, 1%Q;
     bernoulli := Nat.even;
     randperm := λ _ n, seq 0 n |}.

(** Gradient of the mean squared error in the [j]-th entry of the output
    bias: [2 / (N d)] times the sum over the rows of [output - x]. *)
Definition output_bias_grad `{Generator} (m : AutoEncoder.t) (x : mat)
    (s0 : nat) (j : nat) : Q :=
  match fst (AutoEncoder.forward m x s0) with
  | Ok (_, output) =>
      let col (t : mat) := (λ r : vec, default 0%Q (r !! j)) <$> t in
      Scalar.div
        (Scalar.mul 2 (Scalar.sum (zip_with Scalar.sub (col output) (col x))))
        (Scalar.of_nat (length (concat x)))
  | Raise _ => 0%Q
  end.

(** The momentum buffer of the output bias: empty before the first step. *)
Definition next_buffer `{Generator} (momentum : Q) (buf : option vec)
    (m : AutoEncoder.t) (x : mat) (s0 : nat) : vec :=
  let d := length (Linear.bias (Decoder.output_layer (AutoEncoder.decoder m))) in
  (λ j, let g := output_bias_grad m x s0 j in
        match buf with
        | None => g
        | Some b => Scalar.add (Scalar.mul momentum (default 0%Q (b !! j))) g
        end) <$> seq 0 d.

Definition sgd `{Generator} : Autograd :=
  {| buffers := option vec;
     no_buffers := None;
     sgd_weight := λ lr momentum buf m x s0 name j i old, old;
     sgd_bias := λ lr momentum buf m x s0 name j old,
       if String.eqb name "decoder.output_layer"
       then Scalar.sub old
              (Scalar.mul lr (default 0%Q (next_buffer momentum buf m x s0 !! j)))
       else old;
     sgd_buffers := λ lr momentum buf m x s0,
       Some (next_buffer momentum buf m x s0);
     mse_range := λ input target, Scalar.InRange |}.

(** The optimizer over each of the two generators. *)
Definition backend : Autograd := @sgd zeros.
Definition backend_ones : Autograd := @sgd ones.

(** Two records of one feature, in batches of one. *)
Definition two_records : DataLoader.t :=
  {| DataLoader.dataset := [([3%Q], 0%Z); ([1%Q], 1%Z)];
     DataLoader.batch_size := 1;
     DataLoader.shuffle := true |}.

(** One record of one feature. *)
Definition one_record : DataLoader.t :=
  {| DataLoader.dataset := [([1%Q], 0%Z)];
     DataLoader.batch_size := 1;
     DataLoader.shuffle := true |}.

(** A kernel in which only the cells above the one that creates the model
    have run, started where the directory ./torch_models exists and is
    empty. *)
Definition fresh_kernel `{Autograd} (dl : DataLoader.t) : Notebook.t :=
  {| Notebook.model := None;
     Notebook.optimizer := None;
     Notebook.scheduler := None;
     Notebook.loss_ := None;
     Notebook.losses := None;
     Notebook.loss := None;
     Notebook.mean_loss := None;
     Notebook.best_loss := None;
     Notebook.dataloader := dl;
     Notebook.torch_models := true;
     Notebook.files := ∅;
     Notebook.rng := 0;
     Notebook.fresh := 0;
     Notebook.trace := [] |}.

(** The same kernel, started where the directory ./torch_models does not
    exist. *)
Definition no_directory `{Autograd} (dl : DataLoader.t) : Notebook.t :=
  {| Notebook.model := None;
     Notebook.optimizer := None;
     Notebook.scheduler := None;
     Notebook.loss_ := None;
     Notebook.losses := None;
     Notebook.loss := None;
     Notebook.mean_loss := None;
     Notebook.best_loss := None;
     Notebook.dataloader := dl;
     Notebook.torch_models := false;
     Notebook.files := ∅;
     Notebook.rng := 0;
     Notebook.fresh := 0;
     Notebook.trace := [] |}.

(** A library whose loss leaves the range of float32 as soon as an entry of
    the input differs from that of the target by 2 * 10^19 or more: the
    square of such a difference is above the largest float32. *)
Definition out_of_range (input target : mat) : Scalar.range :=
  if existsb (λ d, Qle_bool (inject_Z (2 * 10 ^ 19)) d
                   || Qle_bool d (inject_Z (- (2 * 10 ^ 19))))
       (zip_with Scalar.sub (concat input) (concat target))
  then Scalar.Overflow
  else Scalar.InRange.

Definition backend_float32 : Autograd :=
  {| buffers := @buffers backend;
     no_buffers := @no_buffers backend;
     sgd_weight := @sgd_weight backend;
     sgd_bias := @sgd_bias backend;
     sgd_buffers := @sgd_buffers backend;
     mse_range := out_of_range |}.

(** One record of one feature, which float32 holds and whose square it does
    not. *)
Definition huge_record : DataLoader.t :=
  {| DataLoader.dataset := [([inject_Z (10 ^ 30)], 0%Z)];
     DataLoader.batch_size := 1;
     DataLoader.shuffle := true |}.

Definition run {A} `{Autograd} (c : M Notebook.t A) (ns : Notebook.t) : Notebook.t :=
  snd (c ns).

(** The kernel after the model was created over the widths [[1; 1]] and
    pre-trained for [n] epochs on the two records, with a progress line for
    every epoch. *)
Definition pretrained (n : Z) : Notebook.t :=
  run (H:=backend)
    (@Notebook.create_model_cell zeros backend 1 [1; 1]%Z (1 # 5);;
     @Notebook.pretrain_cell zeros backend n 1)
    (@fresh_kernel backend two_records).

(** The kernel after a model over the widths [[1; 1; 1]], with a dropout
    rate of one half and every parameter initialised to one, was created and
    pre-trained for one epoch on the one record. *)
Definition pretrained_dropout : Notebook.t :=
  run (H:=backend_ones)
    (@Notebook.create_model_cell ones backend_ones 1 [1; 1; 1]%Z (1 # 2);;
     @Notebook.pretrain_cell ones backend_ones 1 1)
    (@fresh_kernel backend_ones one_record).

Definition forwards (tr : list event) : list AutoEncoder.t :=
  omap (λ e, match e with Forward m => Some m | _ => None end) tr.
Definition steps (tr : list event) : list Q :=
  omap (λ e, match e with Step lr => Some lr | _ => None end) tr.
Definition saves (tr : list event) : list string :=
  omap (λ e, match e with Save path _ => Some path | _ => None end) tr.
Definition prints (tr : list event) : list (Z * Z * Scalar.float) :=
  omap (λ e, match e with
             | Print epoch n_epochs mean_loss => Some (epoch, n_epochs, mean_loss)
             | _ => None
             end) tr.

End Toy.

(** ** Vocabulary of the statements *)

(** A tensor of [n] rows of [w] entries. *)
Definition rows_of (w : Z) (n : nat) (x : mat) : Prop :=
  length x = n ∧ Forall (λ r, Z.of_nat (length r) = w) x.

(** The layers [dense_0], ..., [dense_{n-1}] in the order they were set. *)
Definition dense_layers (dense : gmap string Linear.t) (n : Z) : list Linear.t :=
  omap (λ i, dense !! dense_name i) (py_range 0 n).

(** The attributes [dense_i] connect consecutive widths of [widths]. *)
Definition chain_shaped (widths : list Z) (dense : gmap string Linear.t) : Prop :=
  ∀ i a b, widths !! i = Some a → widths !! Datatypes.S i = Some b →
    ∃ l, dense !! dense_name (Z.of_nat i) = Some l ∧ Linear.shaped a b l.

(** The topology of a decoder: the [(in_features, out_features)] of its
    layers in the order [forward] applies them. *)
Definition decoder_topology (d : Decoder.t) : list (Z * Z) :=
  (λ l, (Linear.in_features l, Linear.out_features l))
    <$> (dense_layers (Decoder.dense d) (Decoder.n_layers d)
         ++ [Decoder.output_layer d]).

(** The parameters of a decoder, in the order of [parameters()]. *)
Definition decoder_parameters (d : Decoder.t) : vec :=
  concat (Linear.parameters
            <$> (dense_layers (Decoder.dense d) (Decoder.n_layers d)
                 ++ [Decoder.output_layer d])).

(** A model over the widths [hl] for inputs of [input_size] features, with
    the activation [AutoEncoder] gives its parts. *)
Definition encoder_shaped (input_size : Z) (hl : list Z) (e : Encoder.t) : Prop :=
  Encoder.n_layers e = (Z.of_nat (length hl) - 1)%Z ∧
  (∃ h0, hl !! 0 = Some h0 ∧ Linear.shaped input_size h0 (Encoder.input_layer e)) ∧
  chain_shaped hl (Encoder.dense e) ∧
  Encoder.activation e = ReLU.

Definition decoder_shaped (input_size : Z) (hl : list Z) (d : Decoder.t) : Prop :=
  Decoder.n_layers d = (Z.of_nat (length hl) - 1)%Z ∧
  chain_shaped (rev hl) (Decoder.dense d) ∧
  (∃ h0, hl !! 0 = Some h0 ∧ Linear.shaped h0 input_size (Decoder.output_layer d)) ∧
  Decoder.activation d = ReLU.

Definition model_shaped (input_size : Z) (hl : list Z) (m : AutoEncoder.t) : Prop :=
  encoder_shaped input_size hl (AutoEncoder.encoder m) ∧
  decoder_shaped input_size hl (AutoEncoder.decoder m).

(** All the training flags of a model are [b]. *)
Definition in_mode (b : bool) (m : AutoEncoder.t) : Prop :=
  AutoEncoder.training m = b ∧
  Encoder.training (AutoEncoder.encoder m) = b ∧
  Dropout.training (Encoder.dropout (AutoEncoder.encoder m)) = b ∧
  Decoder.training (AutoEncoder.decoder m) = b ∧
  Dropout.training (Decoder.dropout (AutoEncoder.decoder m)) = b.

(** What the loops of the two constructors build over the widths [widths]:
    the layer between each width and the next, drawn one after the other
    from position [s] on, under the names [dense_k], [dense_{k+1}], ... *)
Fixpoint chain_layers `{Generator} (widths : list Z) (s : nat) : list Linear.t :=
  match widths with
  | a :: ((b :: _) as rest) =>
      Linear.make s a b :: chain_layers rest (s + Linear.size a b)
  | _ => []
  end.

Fixpoint chain_size (widths : list Z) : nat :=
  match widths with
  | a :: ((b :: _) as rest) => Linear.size a b + chain_size rest
  | _ => 0
  end.

Fixpoint set_chain (layers : list Linear.t) (k : Z)
    (dense : gmap string Linear.t) : gmap string Linear.t :=
  match layers with
  | [] => dense
  | l :: layers' => set_chain layers' (k + 1) (<[dense_name k := l]> dense)
  end.

(** A dropout rate [nn.Dropout] accepts: between 0 and 1. *)
Definition valid_rate (p : Q) : Prop :=
  Scalar.ltb p 0 = false ∧ Scalar.ltb 1 p = false.

(** The pairs of neighbours of a sequence. *)
Definition consecutive (l : list Z) : list (Z * Z) := zip l (tail l).


(** A triple: from a state in [P], the outcome and the state left behind
    are in [Q], whether the computation ends normally or not. *)
Definition hoare {S A} (P : S → Prop) (c : M S A) (Q : result A → S → Prop) : Prop :=
  ∀ s, P s → Q (c s).1 (c s).2.

(** The trace [t] is [t0] followed by events that all satisfy [P]. *)
Definition extends_by (P : event → Prop) (t0 t : list event) : Prop :=
  ∃ new, t = t0 ++ new ∧ Forall P new.

(** A forward pass, if the event is one, was made in mode [b]. *)
Definition forward_in_mode (b : bool) (e : event) : Prop :=
  match e with Forward m => in_mode b m | _ => True end.

(** An optimizer step, if the event is one, was made at the rate [lr]. *)
Definition step_at (lr : Q) (e : event) : Prop :=
  match e with Step lr' => lr' = lr | _ => True end.

Definition is_save (e : event) : Prop :=
  match e with Save _ _ => True | _ => False end.

(** The trace of one epoch that ends by writing [path]: no checkpoint is
    written before its last event, which writes [path]. *)
Definition epoch_saving (path : string) (seg : list event) : Prop :=
  ∃ before m, seg = before ++ [Save path m] ∧ Forall (λ e, ¬ is_save e) before.

(** Invariants of the training cells, over the trace [t0] they start from:
    the model bound to [model] is in mode [b] and every forward pass was
    made in it; the optimizer has the rate [lr], the scheduler is [sch], and
    every step was made at [lr]; no checkpoint was written; the list
    [losses] has only grown from [ls0]. *)
Definition mode_inv `{Autograd} (b : bool) (t0 : list event) (ns : Notebook.t) : Prop :=
  (∀ i m, Notebook.model ns = Some (i, m) → in_mode b m) ∧
  extends_by (forward_in_mode b) t0 (Notebook.trace ns).

Definition rate_inv `{Autograd} (lr : Q) (sch : option StepLR.t) (t0 : list event)
    (ns : Notebook.t) : Prop :=
  (∀ o, Notebook.optimizer ns = Some o → SGD.lr o = lr) ∧
  Notebook.scheduler ns = sch ∧
  extends_by (step_at lr) t0 (Notebook.trace ns).

Definition no_save_inv `{Autograd} (t0 : list event) (ns : Notebook.t) : Prop :=
  extends_by (λ e, ¬ is_save e) t0 (Notebook.trace ns).

(** Every record of the data set has [input_size] features. *)
Definition data_shaped (input_size : Z) (dl : DataLoader.t) : Prop :=
  Forall (λ rec : vec * Z, Z.of_nat (length rec.1) = input_size)
         (DataLoader.dataset dl).

(** A kernel in which a pass over the data can run: [model] is bound to a
    model over the widths [hl] for the records of the data, and
    [optimizer], [loss_] and [losses] are bound. *)
Definition ready `{Autograd} (input_size : Z) (hl : list Z) (ns : Notebook.t) : Prop :=
  (∃ i m, Notebook.model ns = Some (i, m) ∧ model_shaped input_size hl m) ∧
  is_Some (Notebook.optimizer ns) ∧
  is_Some (Notebook.loss_ ns) ∧
  is_Some (Notebook.losses ns) ∧
  data_shaped input_size (Notebook.dataloader ns).

(** The kernel in which the loop of the fine-tuning cell starts, when the
    checkpoint holds [m0]. *)
Definition finetune_start `{Autograd} (ns : Notebook.t) (m0 : AutoEncoder.t)
    : Notebook.t :=
  let i := Notebook.fresh ns in
  Notebook.set_best_loss (Some Scalar.Inf)
    (Notebook.set_optimizer
       (Some {| SGD.id := Datatypes.S i; SGD.params := i; SGD.lr := 1 # 10;
                SGD.momentum := 9 # 10; SGD.state := no_buffers |})
       (Notebook.set_fresh (Datatypes.S (Datatypes.S i))
          (Notebook.set_model (Some (i, AutoEncoder.eval m0))
             (Notebook.set_model (Some (i, m0))
                (Notebook.set_fresh (Datatypes.S i) ns))))).

(** The model bound to [model] and every model in a file satisfy [P]. *)
Definition models_inv `{Autograd} (P : AutoEncoder.t → Prop) (ns : Notebook.t) : Prop :=
  (∀ i m, Notebook.model ns = Some (i, m) → P m) ∧
  (∀ path m, Notebook.files ns !! path = Some m → P m).

(** [P] does not depend on the values of the parameters. *)
Definition update_stable (P : AutoEncoder.t → Prop) : Prop :=
  ∀ fw fb m, P m → P (map_layers (λ name, Linear.update (fw name) (fb name)) m).

(** A computation on the generator that does not draw: the position stays
    and the result is the same from every position. *)
Definition pure_at {A} (c : M nat A) : Prop :=
  ∀ s, c s = ((c 0).1, s).


(** ** The evaluation cells and further vocabulary *)

(** The checkpoint that the cell "Evaluate Fine-tuned Auto-Encoder" loads. *)
Definition finetuned_old_path : string := "./torch_models/autoencoder-finetuned-old".

Definition notebook_evaluate_finetuned `{Generator} `{Autograd} (X : mat)
    : M Notebook.t mat :=
  Notebook.evaluate_cell "./torch_models/autoencoder-finetuned-old" X.

(** The files after the writes of a trace, made in its order. *)
Definition replay_saves (tr : list event) (fs : gmap string AutoEncoder.t)
    : gmap string AutoEncoder.t :=
  foldl (λ fs e, match e with Save path m => <[path := m]> fs | _ => fs end) fs tr.

(** A write, if the event is one, goes to [path]. *)
Definition saves_to (path : string) (e : event) : Prop :=
  match e with Save p _ => p = path | _ => True end.

(** Since the trace was [t0] and the files were [f0], the files have
    changed by the writes of the trace and by nothing else, and every write
    went to [path]. *)
Definition files_inv `{Autograd} (path : string) (t0 : list event)
    (f0 : gmap string AutoEncoder.t) (ns : Notebook.t) : Prop :=
  ∃ new, Notebook.trace ns = t0 ++ new ∧
         Notebook.files ns = replay_saves new f0 ∧
         Forall (saves_to path) new.

(** The rate that [StepLR] has given its optimizer when its counter is at
    [last_epoch]: the rate [lr0] it started from, multiplied by [gamma]
    once for every [step_size] steps of the scheduler. *)
Definition StepLR_rate (lr0 gamma : Q) (step_size last_epoch : Z) : Q :=
  Nat.iter (Z.to_nat (last_epoch / step_size)) (λ lr, Scalar.mul lr gamma) lr0.

(** The scheduler after one more step. *)
Definition StepLR_next (sch : StepLR.t) : StepLR.t :=
  {| StepLR.optimizer := StepLR.optimizer sch;
     StepLR.step_size := StepLR.step_size sch;
     StepLR.gamma := StepLR.gamma sch;
     StepLR.last_epoch := (StepLR.last_epoch sch + 1)%Z |}.

(** The optimizer [oid] is bound to [optimizer] with the rate [lr], the
    scheduler is [sch], and every step since the trace [t0] was made at the
    rate [lr_steps]. *)
Definition sched_inv `{Autograd} (oid : nat) (lr lr_steps : Q) (sch : StepLR.t)
    (t0 : list event) (ns : Notebook.t) : Prop :=
  (∃ o, Notebook.optimizer ns = Some o ∧ SGD.id o = oid ∧ SGD.lr o = lr) ∧
  Notebook.scheduler ns = Some sch ∧
  extends_by (step_at lr_steps) t0 (Notebook.trace ns).

(** The pre-training cell up to the end of its first [j] epochs. *)
Definition pretrain_epochs `{Generator} `{Autograd} (n_epochs eval_every : Z)
    (j : nat) : M Notebook.t unit :=
  modify (Notebook.set_best_loss (Some Scalar.Inf));;
  for_each (py_range 0 (Z.of_nat j)) (Notebook.pretrain_epoch n_epochs eval_every).

(** The scheduler that the cell "Create Model and Specify Training
    Parameters" creates for the optimizer [oid], after [k] steps. *)
Definition notebook_scheduler (oid : nat) (k : nat) : StepLR.t :=
  {| StepLR.optimizer := oid;
     StepLR.step_size := 100;
     StepLR.gamma := 1 # 10;
     StepLR.last_epoch := Z.of_nat k |}.

(** The rate of the notebook's schedule in the epoch after [k] others. *)
Definition notebook_rate (k : nat) : Q :=
  StepLR_rate (1 # 10) (1 # 10) 100 (Z.of_nat k).

(** A loss that is a number, neither [inf] nor [nan]. *)
Definition is_finite (x : Scalar.float) : Prop := ∃ q, x = Scalar.Finite q.

(** The value bound to [mean_loss] is a number. *)
Definition mean_is_finite `{Autograd} (ns : Notebook.t) : Prop :=
  ∃ q, Notebook.mean_loss ns = Some (Scalar.Finite q).

(** No loss leaves the range of float32. *)
Definition never_overflows `{Autograd} : Prop :=
  ∀ input target, mse_range input target = Scalar.InRange.

(** A loader that yields every record: it does not shuffle, or else the
    generator draws permutations. *)
Definition yields_all `{Generator} (dl : DataLoader.t) : Prop :=
  DataLoader.shuffle dl = false ∨ ∀ s n, randperm s n ≡ₚ seq 0 n.

(** A kernel in which a batch can be trained on: [model] is bound to a
    model over the widths [hl] for the records of the data, and [optimizer]
    and [loss_] are bound.  The pre-training cell also needs [scheduler]. *)
Definition runnable `{Autograd} (input_size : Z) (hl : list Z) (ns : Notebook.t)
    : Prop :=
  (∃ i m, Notebook.model ns = Some (i, m) ∧ model_shaped input_size hl m) ∧
  is_Some (Notebook.optimizer ns) ∧
  is_Some (Notebook.loss_ ns) ∧
  data_shaped input_size (Notebook.dataloader ns).

Definition trainable `{Autograd} (input_size : Z) (hl : list Z) (ns : Notebook.t)
    : Prop :=
  runnable input_size hl ns ∧ is_Some (Notebook.scheduler ns).

(** Inside an epoch: a batch can be trained on, what the batches do not
    assign is as it was, [loss] is bound once a batch was seen, and the
    losses are numbers when the records have entries and no loss leaves the
    range of float32. *)
Definition epoch_inv `{Autograd} (input_size : Z) (hl : list Z)
    (b0 : option Scalar.float) (f0 : gmap string AutoEncoder.t)
    (dl0 : DataLoader.t) (sch0 : option StepLR.t) (d0 : bool)
    (ns : Notebook.t) : Prop :=
  runnable input_size hl ns ∧
  Notebook.best_loss ns = b0 ∧ Notebook.files ns = f0 ∧
  Notebook.dataloader ns = dl0 ∧ Notebook.scheduler ns = sch0 ∧
  Notebook.torch_models ns = d0 ∧
  ∃ ls, Notebook.losses ns = Some ls ∧
        (ls ≠ [] → is_Some (Notebook.loss ns)) ∧
        (never_overflows → (0 < input_size)%Z → Forall is_finite ls).

(** While a model other than the one the optimizer was created for is
    bound to [model]: the model is [m], the optimizer holds the parameters
    of another object, and every pass and every write since the trace [t0]
    was made with [m]. *)
Definition stale_inv `{Autograd} (i : nat) (m : AutoEncoder.t) (t0 : list event)
    (ns : Notebook.t) : Prop :=
  Notebook.model ns = Some (i, m) ∧
  (∃ o, Notebook.optimizer ns = Some o ∧ SGD.params o ≠ i) ∧
  extends_by (λ e, match e with
                   | Forward m' | Save _ m' => m' = m
                   | _ => True
                   end) t0 (Notebook.trace ns).

(** After [k] batches of an epoch that started at the trace [t0]: the list
    [losses] has [k] entries, and [k] forward passes and [k] optimizer
    steps were made. *)
Definition batches_inv `{Autograd} (t0 : list event) (k : nat) (ns : Notebook.t)
    : Prop :=
  ∃ ls seg, Notebook.losses ns = Some ls ∧ length ls = k ∧
            Notebook.trace ns = t0 ++ seg ∧
            length (Toy.forwards seg) = k ∧ length (Toy.steps seg) = k.

(** ** The data cells

    The two parts of MNIST as the notebook loads them: the images, rows of
    pixel values between 0 and 255, and their labels. *)
Module MNIST.

Record t := {
  data : list (list (list Z));   (* [.data]: the images as stored *)
  targets : list Z
}.

(** [transforms.ToTensor()] on an 8-bit image: the values divided by 255.
    The channel dimension it adds is left out; a flattened record does not
    show it. *)
Definition ToTensor (img : list (list Z)) : mat :=
  (λ row : list Z, (λ v, Scalar.div (inject_Z v) 255) <$> row) <$> img.

(** [transforms.Normalize((mean,), (std,))] *)
Definition Normalize (mean std : Q) (x : mat) : mat :=
  (λ row : vec, (λ v, Scalar.div (Scalar.sub v mean) std) <$> row) <$> x.

(** [transform]: the composition the notebook passes to [MNIST]. *)
Definition transform (img : list (list Z)) : mat :=
  Normalize (1 # 2) (1 # 2) (ToTensor img).

(** The items of a part, [(transform(image), label)]. *)
Definition items (self : t) : list (mat * Z) :=
  zip (transform <$> data self) (targets self).

(** [dataloader]: over [ConcatDataset([trainset, testset])], in batches of
    256 and shuffled; a record is an item flattened, as
    [x_batch.view(x_batch.shape[0], -1)] makes it. *)
Definition dataloader (trainset testset : t) : DataLoader.t :=
  {| DataLoader.dataset :=
       (λ item : mat * Z, (concat item.1, item.2))
         <$> (items trainset ++ items testset);
     DataLoader.batch_size := 256;
     DataLoader.shuffle := true |}.

(** [X]: the stored images of both parts, each reshaped to one row, as the
    tensor [Tensor(X)] that the evaluation cells pass to the model. *)
Definition X (trainset testset : t) : mat :=
  (λ img : list (list Z), inject_Z <$> concat img)
    <$> (data trainset ++ data testset).

(** [y]: the labels of both parts. *)
Definition y (trainset testset : t) : list Z :=
  targets trainset ++ targets testset.

End MNIST.

(** What [transform] makes of a pixel value. *)
Definition normalised (v : Z) : Q :=
  Scalar.div (Scalar.sub (Scalar.div (inject_Z v) 255) (1 # 2)) (1 # 2).

(** * Properties *)

(** ** Running computations *)

Section Monad.
Context {S : Type}.

Lemma bind_ok {A B} (c : M S A) (k : A → M S B) s a s' :
  c s = (Ok a, s') → (c ≫= k) s = k a s'.
Proof. intros Hc. unfold mbind, M_bind. by rewrite Hc. Qed.

Lemma bind_raise {A B} (c : M S A) (k : A → M S B) s e s' :
  c s = (Raise e, s') → (c ≫= k) s = (Raise e, s').
Proof. intros Hc. unfold mbind, M_bind. by rewrite Hc. Qed.

Lemma lift_ok {A B} (r : result A) (k : A → M S B) s a :
  r = Ok a → (lift r ≫= k) s = k a s.
Proof. intros ->. done. Qed.

Lemma lift_raise {A B} (r : result A) (k : A → M S B) s e :
  r = Raise e → (lift r ≫= k) s = (Raise e, s).
Proof. intros ->. done. Qed.

Lemma hoare_ret {A} (P : S → Prop) (a : A) : hoare P (mret a) (λ r s, r = Ok a ∧ P s).
Proof. by intros s HP. Qed.

Lemma hoare_bind {A B} P (R : result A → S → Prop) (Q : result B → S → Prop)
    (c : M S A) (k : A → M S B) :
  hoare P c R →
  (∀ a, hoare (R (Ok a)) (k a) Q) →
  (∀ e s, R (Raise e) s → Q (Raise e) s) →
  hoare P (c ≫= k) Q.
Proof.
  intros Hc Hk He s HP. specialize (Hc s HP).
  unfold mbind, M_bind. destruct (c s) as [[a|e] s']; simpl in *.
  - by apply Hk.
  - by apply He.
Qed.

Lemma hoare_weaken {A} (P P' : S → Prop) (Q Q' : result A → S → Prop) c :
  hoare P' c Q' → (∀ s, P s → P' s) → (∀ r s, Q' r s → Q r s) → hoare P c Q.
Proof. intros Hc HP HQ s Hs. apply HQ, Hc, HP, Hs. Qed.

(** An invariant of the body is an invariant of the loop, however the
    loop ends. *)
Lemma for_each_invariant {A} (I : S → Prop) (l : list A) (body : A → M S unit) :
  (∀ x, x ∈ l → hoare I (body x) (λ _, I)) →
  hoare I (for_each l body) (λ _, I).
Proof.
  induction l as [|x l IH]; intros Hbody.
  - by intros s Hs.
  - simpl. eapply hoare_bind.
    + apply Hbody. left.
    + intros []. apply IH. intros y Hy. apply Hbody. by right.
    + done.
Qed.

(** A loop that ends normally has run its body on every element: [I n]
    holds after [n] completed rounds. *)
Lemma for_each_count {A} (I : nat → S → Prop) (E : S → Prop) (l : list A)
    (body : A → M S unit) :
  (∀ i x, l !! i = Some x →
     hoare (I i) (body x)
       (λ r s, match r with Ok _ => I (Datatypes.S i) s | Raise _ => E s end)) →
  hoare (I 0) (for_each l body)
    (λ r s, match r with Ok _ => I (length l) s | Raise _ => E s end).
Proof.
  revert I. induction l as [|x l IH]; intros I Hbody.
  - by intros s Hs.
  - simpl. eapply hoare_bind.
    + apply (Hbody 0 x). done.
    + intros []. simpl. apply (IH (λ n, I (Datatypes.S n))).
      intros i y Hy. apply (Hbody (Datatypes.S i) y). done.
    + done.
Qed.

End Monad.

(** ** Python sequences *)

Lemma py_index_nat {A} (l : list A) (i : nat) (x : A) :
  l !! i = Some x → py_index l (Z.of_nat i) = Ok x.
Proof.
  intros Hx. unfold py_index.
  assert ((Z.of_nat i <? 0)%Z = false) as E by (apply Z.ltb_ge; lia).
  rewrite E. cbn beta iota zeta. by rewrite E, Nat2Z.id, Hx.
Qed.

Lemma py_index_last {A} (l : list A) (x : A) :
  last l = Some x → py_index l (-1) = Ok x.
Proof.
  intros Hx. unfold py_index. simpl.
  destruct l as [|y l _] using rev_ind; [done|].
  rewrite last_snoc in Hx. injection Hx as ->.
  rewrite length_app. simpl.
  replace (Z.of_nat (length l + 1) + -1 <? 0)%Z with false
    by (symmetry; apply Z.ltb_ge; lia).
  replace (Z.to_nat (Z.of_nat (length l + 1) + -1)) with (length l) by lia.
  by rewrite lookup_app_r, Nat.sub_diag by lia.
Qed.

Lemma py_index_nil {A} (i : Z) : py_index (@nil A) i = Raise IndexError.
Proof.
  unfold py_index. cbn beta iota zeta.
  destruct (_ <? 0)%Z; [done|]. by rewrite lookup_nil.
Qed.

Lemma py_range_S (n : nat) : py_range 0 (Z.of_nat (Datatypes.S n)) = py_range 0 (Z.of_nat n) ++ [Z.of_nat n].
Proof.
  unfold py_range. rewrite !Z.sub_0_r.
  replace (Z.of_nat (Datatypes.S n)) with (Z.of_nat n + 1)%Z by lia.
  rewrite seqZ_app by lia. f_equal.
Qed.

Lemma dense_name_inj : Inj (=) (=) dense_name.
Proof.
  intros i j Hij. unfold dense_name in Hij.
  apply (inj (String.app "dense_")) in Hij. by apply (inj pretty) in Hij.
Qed.

(** ** Layers *)

Lemma Linear_init_ok `{Generator} (a b : Z) (s : nat) :
  (0 ≤ a)%Z → (0 ≤ b)%Z →
  Linear.init a b s = (Ok (Linear.make s a b), s + Linear.size a b).
Proof.
  intros Ha Hb. unfold Linear.init.
  assert ((a <? 0)%Z = false) as -> by (apply Z.ltb_ge; lia).
  by assert ((b <? 0)%Z = false) as -> by (apply Z.ltb_ge; lia).
Qed.

Lemma Linear_init_negative `{Generator} (a b : Z) (s : nat) :
  (a < 0 ∨ b < 0)%Z → Linear.init a b s = (Raise RuntimeError, s).
Proof.
  intros Hab. unfold Linear.init.
  destruct (Z.ltb_spec a 0), (Z.ltb_spec b 0); simpl; try done; lia.
Qed.

Lemma Linear_make_shaped `{Generator} (a b : Z) (s : nat) :
  Linear.shaped a b (Linear.make s a b).
Proof.
  unfold Linear.shaped, Linear.make; simpl.
  rewrite !length_fmap, !length_seq. split_and!; try done.
  apply Forall_fmap, Forall_forall. intros j _. simpl.
  by rewrite length_fmap, length_seq.
Qed.

Lemma Linear_update_shaped (a b : Z) fw fb (l : Linear.t) :
  Linear.shaped a b l → Linear.shaped a b (Linear.update fw fb l).
Proof.
  intros (Hin & Hout & Hw & Hrows & Hb). unfold Linear.shaped; simpl.
  rewrite !length_imap. split_and!; try done.
  apply Forall_forall. intros r Hr.
  apply elem_of_lookup_imap in Hr as (j & row & -> & Hrow).
  rewrite length_imap. rewrite Forall_forall in Hrows.
  apply Hrows. by eapply list_elem_of_lookup_2.
Qed.

Lemma forallb_rows (w : Z) (x : mat) :
  Forall (λ r, Z.of_nat (length r) = w) x →
  forallb (λ r, (Z.of_nat (length r) =? w)%Z) x = true.
Proof.
  intros Hx. apply forallb_forall. intros r Hr.
  rewrite Forall_forall in Hx. apply Z.eqb_eq, Hx. by apply list_elem_of_In.
Qed.

Lemma Linear_forward_shaped (a b : Z) (n : nat) (l : Linear.t) (x : mat) :
  (0 ≤ b)%Z → Linear.shaped a b l → rows_of a n x →
  ∃ y, Linear.forward l x = Ok y ∧ rows_of b n y.
Proof.
  intros Hb (Hin & Hout & Hw & Hrows & Hbias) [Hn Hx].
  unfold Linear.forward. rewrite Hin, (forallb_rows a x Hx).
  eexists; split; [done|]. split.
  - by rewrite length_fmap.
  - apply Forall_fmap, Forall_forall. intros r _. simpl.
    rewrite length_zip_with, Hw, Hbias. lia.
Qed.

Lemma ReLU_rows (w : Z) (n : nat) (x : mat) : rows_of w n x → rows_of w n (ReLU x).
Proof.
  intros [Hn Hx]. unfold ReLU. split.
  - by rewrite length_fmap.
  - apply Forall_fmap. eapply Forall_impl; [done|].
    intros r Hr. simpl. by rewrite length_fmap.
Qed.

Lemma mask_rows_spec `{Generator} (p : Q) (x : mat) (s : nat) (w : Z) :
  Forall (λ r, Z.of_nat (length r) = w) x →
  length (Dropout.mask_rows p x s).1 = length x ∧
  Forall (λ r, Z.of_nat (length r) = w) (Dropout.mask_rows p x s).1.
Proof.
  revert s. induction x as [|r x IH]; intros s Hx; simpl; [done|].
  inversion Hx as [|?? Hr Hx']; subst.
  destruct (IH (s + length r) Hx') as [Hlen Hall].
  destruct (Dropout.mask_rows p x (s + length r)) as [y s']; simpl in *.
  split; [by rewrite Hlen|]. constructor; [|done].
  unfold Dropout.mask_row. by rewrite length_zip_with, length_seq, Nat.min_id.
Qed.

Lemma Dropout_forward_rows `{Generator} (d : Dropout.t) (x : mat) (s : nat)
    (w : Z) (n : nat) :
  rows_of w n x →
  ∃ y s', Dropout.forward d x s = (Ok y, s') ∧ rows_of w n y.
Proof.
  intros [Hn Hx]. unfold Dropout.forward.
  destruct (negb (Dropout.training d) || Scalar.eqb (Dropout.p d) 0).
  { by exists x, s. }
  destruct (Scalar.eqb (Dropout.p d) 1).
  { eexists _, s. split; [done|]. split; [by rewrite length_fmap|].
    apply Forall_fmap. eapply Forall_impl; [done|].
    intros r Hr. simpl. by rewrite length_fmap. }
  destruct (mask_rows_spec (Dropout.p d) x s w Hx) as [Hlen Hall].
  destruct (Dropout.mask_rows (Dropout.p d) x s) as [y s']; simpl in *.
  exists y, s'. split; [done|]. split; [by rewrite Hlen|done].
Qed.

(** In evaluation mode dropout returns its input and draws nothing. *)
Lemma Dropout_forward_eval `{Generator} (d : Dropout.t) (x : mat) (s : nat) :
  Dropout.training d = false → Dropout.forward d x s = (Ok x, s).
Proof. intros Hd. unfold Dropout.forward. by rewrite Hd. Qed.

(** ** The loops of the constructors *)

Lemma chain_layers_length `{Generator} (widths : list Z) (s : nat) :
  length (chain_layers widths s) = length widths - 1.
Proof.
  revert s. induction widths as [|a [|b rest] IH]; intros s; try done.
  simpl chain_layers. simpl length in *. rewrite IH. lia.
Qed.

Lemma chain_layers_lookup `{Generator} (widths : list Z) (s : nat) i a b :
  widths !! i = Some a → widths !! Datatypes.S i = Some b →
  ∃ l, chain_layers widths s !! i = Some l ∧ Linear.shaped a b l.
Proof.
  revert s i. induction widths as [|a' [|b' rest] IH]; intros s i Ha Hb; try done.
  destruct i as [|i].
  - simpl in *. injection Ha as ->. injection Hb as ->.
    eexists; split; [done|]. apply Linear_make_shaped.
  - simpl chain_layers. apply (IH _ i); done.
Qed.

Lemma Linear_make_parameters `{Generator} (s : nat) (a b : Z) :
  Linear.parameters (Linear.make s a b) = uniform <$> seq s (Linear.size a b).
Proof.
  unfold Linear.parameters, Linear.make, Linear.size; simpl.
  generalize (Z.to_nat a) as n. generalize (Z.to_nat b) as m. clear a b.
  intros m n. rewrite seq_app, fmap_app. f_equal.
  induction m as [|m IH]; [done|].
  rewrite seq_S, fmap_app, concat_app, IH. simpl.
  rewrite app_nil_r, <- fmap_app, <- seq_app. f_equal. f_equal. lia.
Qed.

Lemma chain_layers_cons `{Generator} (a b : Z) (rest : list Z) (s : nat) :
  chain_layers (a :: b :: rest) s
  = Linear.make s a b :: chain_layers (b :: rest) (s + Linear.size a b).
Proof. done. Qed.

Lemma chain_size_cons (a b : Z) (rest : list Z) :
  chain_size (a :: b :: rest) = Linear.size a b + chain_size (b :: rest).
Proof. done. Qed.

Lemma chain_layers_parameters `{Generator} (widths : list Z) (s : nat) :
  concat (Linear.parameters <$> chain_layers widths s)
  = uniform <$> seq s (chain_size widths).
Proof.
  revert s. induction widths as [|a [|b rest] IH]; intros s; try done.
  rewrite chain_layers_cons, chain_size_cons, fmap_cons.
  change (concat (?x :: ?l)) with (x ++ concat l).
  by rewrite IH, Linear_make_parameters, seq_app, fmap_app.
Qed.

Lemma set_chain_lookup_lt (layers : list Linear.t) (k j : Z) dense :
  (j < k)%Z → set_chain layers k dense !! dense_name j = dense !! dense_name j.
Proof.
  revert k dense. induction layers as [|l layers IH]; intros k dense Hj; [done|].
  simpl. rewrite IH by lia. apply lookup_insert_ne.
  intros Heq. apply dense_name_inj in Heq. lia.
Qed.

Lemma set_chain_lookup (layers : list Linear.t) (k : Z) dense (i : nat) :
  set_chain layers k dense !! dense_name (k + Z.of_nat i)
  = match layers !! i with
    | Some l => Some l
    | None => dense !! dense_name (k + Z.of_nat i)
    end.
Proof.
  revert k dense i. induction layers as [|l layers IH]; intros k dense i; [done|].
  simpl. destruct i as [|i].
  - rewrite Z.add_0_r, set_chain_lookup_lt by lia. apply lookup_insert_eq.
  - replace (k + Z.of_nat (Datatypes.S i))%Z with (k + 1 + Z.of_nat i)%Z by lia.
    rewrite IH. simpl. destruct (layers !! i); [done|].
    apply lookup_insert_ne. intros Heq. apply dense_name_inj in Heq. lia.
Qed.

Lemma omap_range {B} (f : Z → option B) (l : list B) :
  (∀ i x, l !! i = Some x → f (Z.of_nat i) = Some x) →
  omap f (py_range 0 (Z.of_nat (length l))) = l.
Proof.
  induction l as [|x l IH] using rev_ind; intros Hf; [done|].
  rewrite length_app, Nat.add_1_r, py_range_S, omap_app, IH.
  - simpl. rewrite (Hf (length l) x); [done|].
    by rewrite lookup_app_r, Nat.sub_diag by lia.
  - intros i y Hy. apply Hf. by apply lookup_app_l_Some.
Qed.

Lemma dense_layers_set_chain (layers : list Linear.t) :
  dense_layers (set_chain layers 0 ∅) (Z.of_nat (length layers)) = layers.
Proof.
  unfold dense_layers. apply omap_range. intros i l Hl.
  pose proof (set_chain_lookup layers 0 ∅ i) as E.
  by rewrite Z.add_0_l, Hl in E.
Qed.

Lemma drop_cons_inv {A} (l : list A) (k : nat) (a : A) (rest : list A) :
  drop k l = a :: rest → l !! k = Some a ∧ drop (Datatypes.S k) l = rest.
Proof.
  intros Hd.
  assert (l !! k = Some a) as Ha.
  { rewrite <- (Nat.add_0_r k), <- lookup_drop, Hd. done. }
  split; [done|]. rewrite (drop_S l a k Ha) in Hd. by injection Hd.
Qed.

Section ConstructorLoops.
Context `{Generator} (widths : list Z) (Hwidths : Forall (λ w, (0 ≤ w)%Z) widths).

Lemma widths_nonneg (i : nat) (w : Z) : widths !! i = Some w → (0 ≤ w)%Z.
Proof.
  intros Hw. rewrite Forall_forall in Hwidths.
  apply Hwidths. by eapply list_elem_of_lookup_2.
Qed.

(** The loop of [Decoder.__init__], started at [dense_k]. *)
Lemma decoder_loop (rest : list Z) (k : nat) (dense : gmap string Linear.t) (s : nat) :
  drop k widths = rest →
  for_fold (seqZ (Z.of_nat k) (Z.of_nat (length rest) - 1))
    (λ dense i,
       a ← lift (py_index widths i);
       b ← lift (py_index widths (i + 1));
       l ← Linear.init a b;
       mret (<[dense_name i := l]> dense))
    dense s
  = (Ok (set_chain (chain_layers rest s) (Z.of_nat k) dense), s + chain_size rest).
Proof.
  revert k dense s. induction rest as [|a [|b rest] IH]; intros k dense s Hd.
  - rewrite seqZ_nil by (simpl; lia). simpl. by rewrite Nat.add_0_r.
  - rewrite seqZ_nil by (simpl; lia). simpl. by rewrite Nat.add_0_r.
  - apply drop_cons_inv in Hd as [Ha Hd].
    pose proof Hd as Hd'. apply drop_cons_inv in Hd' as [Hb _].
    rewrite seqZ_cons by (simpl length; lia).
    cbn [for_fold].
    erewrite bind_ok.
    2:{ rewrite (lift_ok _ _ _ a) by (by apply py_index_nat).
        rewrite (lift_ok _ _ _ b).
        2:{ replace (Z.of_nat k + 1)%Z with (Z.of_nat (Datatypes.S k)) by lia.
            by apply py_index_nat. }
        erewrite bind_ok; [done|].
        apply Linear_init_ok; by eapply widths_nonneg. }
    replace (Z.pred (Z.of_nat (length (a :: b :: rest)) - 1))
      with (Z.of_nat (length (b :: rest)) - 1)%Z by (simpl length; lia).
    replace (Z.succ (Z.of_nat k)) with (Z.of_nat (Datatypes.S k)) by lia.
    rewrite (IH (Datatypes.S k) _ _ Hd).
    rewrite chain_layers_cons, chain_size_cons. simpl set_chain.
    replace (Z.of_nat k + 1)%Z with (Z.of_nat (Datatypes.S k)) by lia.
    by rewrite Nat.add_assoc.
Qed.

(** The loop of [Encoder.__init__], which also counts the layers. *)
Lemma encoder_loop (rest : list Z) (k : nat) (dense : gmap string Linear.t)
    (n_layers : Z) (s : nat) :
  drop k widths = rest →
  for_fold (seqZ (Z.of_nat k) (Z.of_nat (length rest) - 1))
    (λ '(dense, n_layers) i,
       a ← lift (py_index widths i);
       b ← lift (py_index widths (i + 1));
       l ← Linear.init a b;
       mret (<[dense_name i := l]> dense, (n_layers + 1)%Z))
    (dense, n_layers) s
  = (Ok (set_chain (chain_layers rest s) (Z.of_nat k) dense,
         (n_layers + Z.of_nat (length rest - 1))%Z),
     s + chain_size rest).
Proof.
  revert k dense n_layers s.
  induction rest as [|a [|b rest] IH]; intros k dense n_layers s Hd.
  - rewrite seqZ_nil by (simpl; lia). simpl. by rewrite Nat.add_0_r, Z.add_0_r.
  - rewrite seqZ_nil by (simpl; lia). simpl. by rewrite Nat.add_0_r, Z.add_0_r.
  - apply drop_cons_inv in Hd as [Ha Hd].
    pose proof Hd as Hd'. apply drop_cons_inv in Hd' as [Hb _].
    rewrite seqZ_cons by (simpl length; lia).
    cbn [for_fold].
    erewrite bind_ok.
    2:{ rewrite (lift_ok _ _ _ a) by (by apply py_index_nat).
        rewrite (lift_ok _ _ _ b).
        2:{ replace (Z.of_nat k + 1)%Z with (Z.of_nat (Datatypes.S k)) by lia.
            by apply py_index_nat. }
        erewrite bind_ok; [done|].
        apply Linear_init_ok; by eapply widths_nonneg. }
    replace (Z.pred (Z.of_nat (length (a :: b :: rest)) - 1))
      with (Z.of_nat (length (b :: rest)) - 1)%Z by (simpl length; lia).
    replace (Z.succ (Z.of_nat k)) with (Z.of_nat (Datatypes.S k)) by lia.
    rewrite (IH (Datatypes.S k) _ _ _ Hd).
    rewrite chain_layers_cons, chain_size_cons. simpl set_chain.
    replace (Z.of_nat k + 1)%Z with (Z.of_nat (Datatypes.S k)) by lia.
    rewrite Nat.add_assoc. do 3 f_equal. simpl length. lia.
Qed.

End ConstructorLoops.

(** A negative width after the first makes the loop of [Encoder.__init__]
    fail when it reaches the layer that would have it. *)
Lemma encoder_loop_negative `{Generator} (widths rest : list Z) (a : Z) (k : nat)
    (acc : gmap string Linear.t * Z) (s : nat) :
  drop k widths = a :: rest → (0 ≤ a)%Z → (∃ w, w ∈ rest ∧ (w < 0)%Z) →
  ∃ s', for_fold (seqZ (Z.of_nat k) (Z.of_nat (length (a :: rest)) - 1))
          (λ '(dense, n_layers) i,
             a ← lift (py_index widths i);
             b ← lift (py_index widths (i + 1));
             l ← Linear.init a b;
             mret (<[dense_name i := l]> dense, (n_layers + 1)%Z))
          acc s
        = (Raise RuntimeError, s').
Proof.
  revert a k acc s. induction rest as [|b rest IH]; intros a k [dense nl] s Hd Ha (w & Hw & Hneg).
  { by apply elem_of_nil in Hw. }
  apply drop_cons_inv in Hd as [Hka Hd].
  pose proof Hd as Hd'. apply drop_cons_inv in Hd' as [Hkb _].
  rewrite seqZ_cons by (simpl length; lia). cbn [for_fold].
  assert (py_index widths (Z.of_nat k + 1) = Ok b) as Hb.
  { replace (Z.of_nat k + 1)%Z with (Z.of_nat (Datatypes.S k)) by lia.
    by apply py_index_nat. }
  destruct (Z.lt_ge_cases b 0) as [Hb0|Hb0].
  - exists s. erewrite bind_raise; [done|].
    rewrite (lift_ok _ _ _ a) by (by apply py_index_nat).
    rewrite (lift_ok _ _ _ b) by done.
    erewrite bind_raise; [done|]. apply Linear_init_negative. lia.
  - erewrite bind_ok.
    2:{ rewrite (lift_ok _ _ _ a) by (by apply py_index_nat).
        rewrite (lift_ok _ _ _ b) by done.
        erewrite bind_ok; [done|]. by apply Linear_init_ok. }
    replace (Z.pred (Z.of_nat (length (a :: b :: rest)) - 1))
      with (Z.of_nat (length (b :: rest)) - 1)%Z by (simpl length; lia).
    replace (Z.succ (Z.of_nat k)) with (Z.of_nat (Datatypes.S k)) by lia.
    apply IH; [done|done|].
    exists w. split; [|done]. apply elem_of_cons in Hw as [->|Hw]; [lia|done].
Qed.

Lemma Dropout_init_ok (p : Q) :
  valid_rate p → Dropout.init p = Ok {| Dropout.p := p; Dropout.training := true |}.
Proof. intros [H0 H1]. unfold Dropout.init. by rewrite H0, H1. Qed.

(** What [Encoder.__init__] builds from widths that are not negative. *)
Lemma Encoder_init_ok `{Generator} (input_size h0 : Z) (hl : list Z) (p : Q)
    (activation : mat → mat) (s : nat) :
  (0 ≤ input_size)%Z → Forall (λ w, (0 ≤ w)%Z) (h0 :: hl) → valid_rate p →
  Encoder.init input_size (h0 :: hl) p activation s
  = (Ok {| Encoder.input_layer := Linear.make s input_size h0;
           Encoder.n_layers := Z.of_nat (length hl);
           Encoder.dense :=
             set_chain (chain_layers (h0 :: hl) (s + Linear.size input_size h0)) 0 ∅;
           Encoder.activation := activation;
           Encoder.hidden_layers := h0 :: hl;
           Encoder.dropout := {| Dropout.p := p; Dropout.training := true |};
           Encoder.dropout_rate := p;
           Encoder.input_size := input_size;
           Encoder.training := true |},
     s + Linear.size input_size h0 + chain_size (h0 :: hl)).
Proof.
  intros Hin Hhl Hp. unfold Encoder.init.
  rewrite (lift_ok _ _ _ h0) by done.
  erewrite bind_ok.
  2:{ apply Linear_init_ok; [done|]. by inversion Hhl. }
  erewrite bind_ok.
  2:{ unfold py_range. rewrite Z.sub_0_r.
      apply (encoder_loop (h0 :: hl) Hhl (h0 :: hl) 0). done. }
  cbv beta iota.
  rewrite (lift_ok _ _ _ _ (Dropout_init_ok p Hp)).
  replace (0 + Z.of_nat (length (h0 :: hl) - 1))%Z with (Z.of_nat (length hl))
    by (simpl length; lia).
  done.
Qed.

(** A negative input size or width makes [Encoder.__init__] fail in the
    constructor of the first layer that would have it. *)
Lemma Encoder_init_negative `{Generator} (input_size h0 : Z) (hl : list Z) (p : Q)
    (activation : mat → mat) (s : nat) :
  (input_size < 0 ∨ ∃ w, w ∈ h0 :: hl ∧ w < 0)%Z →
  ∃ s', Encoder.init input_size (h0 :: hl) p activation s = (Raise RuntimeError, s').
Proof.
  intros Hneg.
  unfold Encoder.init. rewrite (lift_ok _ _ _ h0) by done.
  destruct (decide (input_size < 0 ∨ h0 < 0)%Z) as [Hfirst|Hfirst].
  { exists s. erewrite bind_raise; [done|]. by apply Linear_init_negative. }
  erewrite bind_ok by (apply Linear_init_ok; lia).
  assert (∃ w, w ∈ hl ∧ (w < 0)%Z) as Htail.
  { destruct Hneg as [?|(w & Hw & ?)]; [lia|].
    exists w. split; [|done]. apply elem_of_cons in Hw as [->|Hw]; [lia|done]. }
  unfold py_range. rewrite Z.sub_0_r.
  edestruct (encoder_loop_negative (h0 :: hl) hl h0 0) as [s' Hloop];
    [done|lia|done|].
  exists s'. erewrite bind_raise; [done|]. apply Hloop.
Qed.

(** With widths that are not negative, [Encoder.__init__] fails only if
    [nn.Dropout] rejects the rate. *)
Lemma Encoder_init_invalid_rate `{Generator} (input_size h0 : Z) (hl : list Z) (p : Q)
    (activation : mat → mat) (s : nat) :
  (0 ≤ input_size)%Z → Forall (λ w, (0 ≤ w)%Z) (h0 :: hl) → ¬ valid_rate p →
  ∃ s', Encoder.init input_size (h0 :: hl) p activation s = (Raise ValueError, s').
Proof.
  intros Hin Hhl Hp. unfold Encoder.init.
  rewrite (lift_ok _ _ _ h0) by done.
  erewrite bind_ok.
  2:{ apply Linear_init_ok; [done|]. by inversion Hhl. }
  erewrite bind_ok.
  2:{ unfold py_range. rewrite Z.sub_0_r.
      apply (encoder_loop (h0 :: hl) Hhl (h0 :: hl) 0). done. }
  cbv beta iota. eexists. apply lift_raise.
  unfold Dropout.init, valid_rate in *.
  destruct (Scalar.ltb p 0), (Scalar.ltb 1 p); simpl; try done.
  by destruct Hp.
Qed.

(** An encoder that was constructed: what went in and what came out. *)
Lemma Encoder_init_inv `{Generator} (input_size : Z) (hl : list Z) (p : Q)
    (activation : mat → mat) (s : nat) (e : Encoder.t) (s' : nat) :
  Encoder.init input_size hl p activation s = (Ok e, s') →
  ∃ h0 hl', hl = h0 :: hl' ∧ (0 ≤ input_size)%Z ∧
    Forall (λ w, (0 ≤ w)%Z) hl ∧ valid_rate p ∧
    Encoder.init input_size hl p activation s
    = (Ok {| Encoder.input_layer := Linear.make s input_size h0;
             Encoder.n_layers := Z.of_nat (length hl');
             Encoder.dense :=
               set_chain (chain_layers hl (s + Linear.size input_size h0)) 0 ∅;
             Encoder.activation := activation;
             Encoder.hidden_layers := hl;
             Encoder.dropout := {| Dropout.p := p; Dropout.training := true |};
             Encoder.dropout_rate := p;
             Encoder.input_size := input_size;
             Encoder.training := true |},
       s + Linear.size input_size h0 + chain_size hl).
Proof.
  intros He. destruct hl as [|h0 hl']; [done|].
  exists h0, hl'. split; [done|].
  destruct (decide (0 ≤ input_size)%Z) as [Hin|Hin].
  2:{ destruct (Encoder_init_negative input_size h0 hl' p activation s) as [? E];
        [lia|]. by rewrite E in He. }
  destruct (decide (Forall (λ w, (0 ≤ w)%Z) (h0 :: hl'))) as [Hhl|Hhl].
  2:{ apply not_Forall_Exists in Hhl; [|apply _].
      apply Exists_exists in Hhl as (w & Hw & Hneg).
      destruct (Encoder_init_negative input_size h0 hl' p activation s) as [? E].
      { right. exists w. split; [done|]. simpl in Hneg. lia. }
      by rewrite E in He. }
  assert (valid_rate p) as Hp.
  { unfold valid_rate.
    destruct (Scalar.ltb p 0) eqn:E0; [|destruct (Scalar.ltb 1 p) eqn:E1; [|done]].
    - destruct (Encoder_init_invalid_rate input_size h0 hl' p activation s) as [? E];
        [done|done| |by rewrite E in He].
      unfold valid_rate. rewrite E0. by intros [? _].
    - destruct (Encoder_init_invalid_rate input_size h0 hl' p activation s) as [? E];
        [done|done| |by rewrite E in He].
      unfold valid_rate. rewrite E1. by intros [_ ?]. }
  split_and!; try done. by apply Encoder_init_ok.
Qed.

(** ** Construction of an encoder (claim C3) *)

(** C3, counterexample: the width sequence [[10]] has fewer than two
    elements and [[3; 0; 2]] has a zero width, and for both the construction
    of an [Encoder] does not fail: it returns an encoder. *)
Lemma Encoder_init_accepts_short_and_zero :
  (length [10%Z] < 2 ∧
   ¬ ∃ e s', @Encoder.init Toy.zeros 784 [10%Z] (1 # 5) ReLU 0 = (Raise e, s')) ∧
  ((∃ w, w ∈ [3; 0; 2]%Z ∧ (w ≤ 0)%Z) ∧
   ¬ ∃ e s', @Encoder.init Toy.zeros 784 [3; 0; 2]%Z (1 # 5) ReLU 0 = (Raise e, s')).
Proof.
  split; split.
  - simpl. lia.
  - intros (e & s' & He).
    rewrite Encoder_init_ok in He;
      [done | lia | repeat constructor; lia | by split].
  - exists 0%Z. split; [set_solver|lia].
  - intros (e & s' & He).
    rewrite Encoder_init_ok in He;
      [done | lia | repeat constructor; lia | by split].
Qed.

(** C3, as the code has it: [Encoder.__init__] does not validate the width
    sequence.  An empty sequence fails with [IndexError] and a negative
    width (or input size) with the tensor library's [RuntimeError], both at
    construction time, so that no encoder is returned; every other sequence,
    also one of a single element or with zero widths, gives an encoder with
    [len(hidden_layers) - 1] dense layers (given a dropout rate between 0
    and 1). *)
Theorem Encoder_init_outcome `{Generator} (input_size : Z) (hl : list Z) (p : Q)
    (activation : mat → mat) (s : nat) :
  (hl = [] →
     Encoder.init input_size hl p activation s = (Raise IndexError, s)) ∧
  (hl ≠ [] → (input_size < 0 ∨ ∃ w, w ∈ hl ∧ w < 0)%Z →
     ∃ s', Encoder.init input_size hl p activation s = (Raise RuntimeError, s')) ∧
  (hl ≠ [] → (0 ≤ input_size)%Z → Forall (λ w, (0 ≤ w)%Z) hl → valid_rate p →
     ∃ e s', Encoder.init input_size hl p activation s = (Ok e, s') ∧
             Encoder.n_layers e = (Z.of_nat (length hl) - 1)%Z ∧
             Encoder.hidden_layers e = hl ∧
             Encoder.input_size e = input_size).
Proof.
  split_and!.
  - intros ->. done.
  - intros Hne Hneg. destruct hl as [|h0 hl]; [done|].
    by apply Encoder_init_negative.
  - intros Hne Hin Hhl Hp. destruct hl as [|h0 hl]; [done|].
    eexists _, _. split; [by apply Encoder_init_ok|].
    simpl. split_and!; try done. lia.
Qed.

(** The theorem at work: the empty sequence, a negative width, and the
    sequence [[10]]. *)
Lemma Encoder_init_outcome_witness :
  @Encoder.init Toy.zeros 784 [] (1 # 5) ReLU 0 = (Raise IndexError, 0) ∧
  (∃ s', @Encoder.init Toy.zeros 784 [3; -1; 2]%Z (1 # 5) ReLU 0
         = (Raise RuntimeError, s')) ∧
  (∃ e s', @Encoder.init Toy.zeros 784 [10%Z] (1 # 5) ReLU 0 = (Ok e, s') ∧
           Encoder.n_layers e = 0%Z ∧ Encoder.hidden_layers e = [10%Z] ∧
           Encoder.input_size e = 784%Z).
Proof.
  split_and!.
  - apply (Encoder_init_outcome (H:=Toy.zeros) 784 [] (1 # 5) ReLU 0). reflexivity.
  - apply (Encoder_init_outcome (H:=Toy.zeros) 784 [3; -1; 2]%Z (1 # 5) ReLU 0).
    + discriminate.
    + right. exists (-1)%Z. split; [|lia]. right. left.
  - apply (Encoder_init_outcome (H:=Toy.zeros) 784 [10%Z] (1 # 5) ReLU 0).
    + discriminate.
    + lia.
    + repeat constructor. lia.
    + split; reflexivity.
Defined.

(** ** Construction of a decoder (claim C7) *)

Lemma last_rev_cons {A} (x : A) (l : list A) : last (rev (x :: l)) = Some x.
Proof. simpl. apply last_snoc. Qed.

(** What [Decoder.__init__] builds from an encoder whose layer count goes
    with its widths. *)
Lemma Decoder_init_ok `{Generator} (e : Encoder.t) (h0 : Z) (hl : list Z)
    (activation : mat → mat) (s : nat) :
  Encoder.hidden_layers e = h0 :: hl →
  Encoder.n_layers e = Z.of_nat (length hl) →
  Forall (λ w, (0 ≤ w)%Z) (h0 :: hl) →
  (0 ≤ Encoder.input_size e)%Z →
  valid_rate (Encoder.dropout_rate e) →
  Decoder.init e activation s
  = (Ok {| Decoder.hidden_layers := rev (h0 :: hl);
           Decoder.dense := set_chain (chain_layers (rev (h0 :: hl)) s) 0 ∅;
           Decoder.output_layer :=
             Linear.make (s + chain_size (rev (h0 :: hl))) h0 (Encoder.input_size e);
           Decoder.n_layers := Z.of_nat (length hl);
           Decoder.activation := activation;
           Decoder.dropout := {| Dropout.p := Encoder.dropout_rate e;
                                 Dropout.training := true |};
           Decoder.training := true |},
     s + chain_size (rev (h0 :: hl)) + Linear.size h0 (Encoder.input_size e)).
Proof.
  intros Hhl Hn Hnonneg Hin Hp. unfold Decoder.init. rewrite Hhl, Hn.
  assert (Forall (λ w, (0 ≤ w)%Z) (rev (h0 :: hl))) as Hrev.
  { apply Forall_forall. intros w Hw. rewrite Forall_forall in Hnonneg.
    apply Hnonneg. apply list_elem_of_In. apply in_rev.
    by apply list_elem_of_In. }
  erewrite bind_ok.
  2:{ unfold py_range. rewrite Z.sub_0_r.
      pose proof (decoder_loop (rev (h0 :: hl)) Hrev (rev (h0 :: hl)) 0 ∅ s) as E.
      rewrite length_rev in E. simpl length in E.
      replace (Z.of_nat (Datatypes.S (length hl)) - 1)%Z
        with (Z.of_nat (length hl)) in E by lia.
      by apply E. }
  rewrite (lift_ok _ _ _ h0) by (apply py_index_last, last_rev_cons).
  erewrite bind_ok.
  2:{ apply Linear_init_ok; [|done]. by inversion Hnonneg. }
  by rewrite (lift_ok _ _ _ _ (Dropout_init_ok _ Hp)).
Qed.

Lemma consecutive_chain `{Generator} (widths : list Z) (s : nat) :
  (λ l, (Linear.in_features l, Linear.out_features l)) <$> chain_layers widths s
  = consecutive widths.
Proof.
  revert s. induction widths as [|a [|b rest] IH]; intros s; try done.
  rewrite chain_layers_cons, fmap_cons, IH. done.
Qed.

Lemma consecutive_snoc (l : list Z) (a b : Z) :
  consecutive (l ++ [a; b]) = consecutive (l ++ [a]) ++ [(a, b)].
Proof.
  unfold consecutive. induction l as [|x [|y l] IH]; try done.
  simpl in *. by rewrite IH.
Qed.

(** The layers of a constructed decoder connect the reversed widths and
    then the input size; its parameters are the draws it made. *)
Lemma Decoder_init_layout `{Generator} (e : Encoder.t) (h0 : Z) (hl : list Z)
    (activation : mat → mat) (s : nat) (d : Decoder.t) (s' : nat) :
  Encoder.hidden_layers e = h0 :: hl →
  Encoder.n_layers e = Z.of_nat (length hl) →
  Forall (λ w, (0 ≤ w)%Z) (h0 :: hl) →
  (0 ≤ Encoder.input_size e)%Z →
  valid_rate (Encoder.dropout_rate e) →
  Decoder.init e activation s = (Ok d, s') →
  decoder_topology d = consecutive (rev (h0 :: hl) ++ [Encoder.input_size e]) ∧
  s ≤ s' ∧
  decoder_parameters d = uniform <$> seq s (s' - s).
Proof.
  intros Hhl Hn Hnonneg Hin Hp Hd.
  rewrite (Decoder_init_ok e h0 hl activation s) in Hd by done.
  injection Hd as <- <-.
  unfold decoder_topology, decoder_parameters.
  cbn [Decoder.dense Decoder.n_layers Decoder.output_layer].
  change (rev hl ++ [h0]) with (rev (h0 :: hl)).
  assert (dense_layers (set_chain (chain_layers (rev (h0 :: hl)) s) 0 ∅)
            (Z.of_nat (length hl)) = chain_layers (rev (h0 :: hl)) s) as ->.
  { rewrite <- (dense_layers_set_chain (chain_layers (rev (h0 :: hl)) s)) at 2.
    rewrite chain_layers_length, length_rev. simpl length.
    do 2 f_equal. lia. }
  split_and!.
  - rewrite fmap_app, consecutive_chain. simpl rev.
    rewrite <- app_assoc. cbn [app]. by rewrite consecutive_snoc.
  - lia.
  - rewrite fmap_app, concat_app, chain_layers_parameters. simpl concat.
    rewrite app_nil_r, Linear_make_parameters, <- fmap_app, <- seq_app.
    change (rev hl ++ [h0]) with (rev (h0 :: hl)).
    do 2 f_equal. lia.
Qed.

(** C7, counterexample: with [a = 3], [b = 2], [c = 1] and inputs of four
    features, the decoders built from encoders with the width sequences
    [[a; b; c]] and [[c; b; a]] do not have the same topology: the first maps
    1 -> 2 -> 3 -> 4 features and the second 3 -> 2 -> 1 -> 4. *)
Lemma Decoder_topologies_differ :
  ∃ e1 s1 d1 s2 e2 s3 d2 s4,
    @Encoder.init Toy.zeros 4 [3; 2; 1]%Z (1 # 5) ReLU 0 = (Ok e1, s1) ∧
    @Decoder.init Toy.zeros e1 ReLU s1 = (Ok d1, s2) ∧
    @Encoder.init Toy.zeros 4 [1; 2; 3]%Z (1 # 5) ReLU s2 = (Ok e2, s3) ∧
    @Decoder.init Toy.zeros e2 ReLU s3 = (Ok d2, s4) ∧
    decoder_topology d1 = [(1, 2); (2, 3); (3, 4)]%Z ∧
    decoder_topology d2 = [(3, 2); (2, 1); (1, 4)]%Z ∧
    decoder_topology d1 ≠ decoder_topology d2.
Proof.
  do 8 eexists.
  split; [vm_compute; reflexivity|].
  split; [vm_compute; reflexivity|].
  split; [vm_compute; reflexivity|].
  split; [vm_compute; reflexivity|].
  split; [vm_compute; reflexivity|].
  split; [vm_compute; reflexivity|].
  vm_compute. discriminate.
Qed.

(** The widths of a decoder are those of its encoder in reverse, whatever
    the encoder is. *)
Lemma Decoder_init_hidden_layers `{Generator} (e : Encoder.t)
    (activation : mat → mat) (s : nat) (d : Decoder.t) (s' : nat) :
  Decoder.init e activation s = (Ok d, s') →
  Decoder.hidden_layers d = rev (Encoder.hidden_layers e).
Proof.
  unfold Decoder.init, mbind, M_bind, lift, mret, M_ret. intros Hd.
  repeat case_match; simplify_eq. done.
Qed.

Lemma Encoder_init_fields `{Generator} (input_size : Z) (hl : list Z) (p : Q)
    (activation : mat → mat) (s : nat) (e : Encoder.t) (s' : nat) :
  Encoder.init input_size hl p activation s = (Ok e, s') →
  ∃ h0 hl', hl = h0 :: hl' ∧ (0 ≤ input_size)%Z ∧
    Forall (λ w, (0 ≤ w)%Z) hl ∧ valid_rate p ∧ s ≤ s' ∧
    Encoder.hidden_layers e = hl ∧
    Encoder.n_layers e = Z.of_nat (length hl') ∧
    Encoder.input_size e = input_size ∧
    Encoder.dropout_rate e = p ∧
    Encoder.activation e = activation.
Proof.
  intros He.
  destruct (Encoder_init_inv _ _ _ _ _ _ _ He)
    as (h0 & hl' & -> & Hin & Hhl & Hp & E).
  rewrite E in He. injection He as <- <-.
  exists h0, hl'. split_and!; try done. lia.
Qed.

(** C7, as the code has it.  A decoder is built from an encoder alone and
    its width sequence is the reverse of the encoder's; its layers connect
    the reversed widths and then the input size.  Hence the decoders of
    encoders with the sequences [[a; b; c]] and [[c; b; a]] have the
    sequences [[c; b; a]] and [[a; b; c]], and the same topology exactly when
    [a = c].  Each decoder draws its own parameters: they are the draws of
    the generator from the position where its construction starts to the
    position where it ends, so that decoders built one after the other
    share none. *)
Theorem Decoder_init_mirrors_encoder `{Generator} :
  (∀ e activation s d s',
     Decoder.init e activation s = (Ok d, s') →
     Decoder.hidden_layers d = rev (Encoder.hidden_layers e)) ∧
  (∀ input_size hl p act s e s1 act' s1' d s2,
     Encoder.init input_size hl p act s = (Ok e, s1) →
     Decoder.init e act' s1' = (Ok d, s2) →
     decoder_topology d = consecutive (rev hl ++ [input_size]) ∧
     s1' ≤ s2 ∧
     decoder_parameters d = uniform <$> seq s1' (s2 - s1')) ∧
  (∀ input_size a b c p act s e1 s1 d1 s2 e2 s3 d2 s4,
     Encoder.init input_size [a; b; c] p act s = (Ok e1, s1) →
     Decoder.init e1 act s1 = (Ok d1, s2) →
     Encoder.init input_size [c; b; a] p act s2 = (Ok e2, s3) →
     Decoder.init e2 act s3 = (Ok d2, s4) →
     Decoder.hidden_layers d1 = [c; b; a] ∧
     Decoder.hidden_layers d2 = [a; b; c] ∧
     (decoder_topology d1 = decoder_topology d2 ↔ a = c) ∧
     s1 ≤ s2 ∧ s2 ≤ s3 ∧ s3 ≤ s4 ∧
     decoder_parameters d1 = uniform <$> seq s1 (s2 - s1) ∧
     decoder_parameters d2 = uniform <$> seq s3 (s4 - s3)).
Proof.
  assert (∀ input_size hl p act s e s1 act' s1' d s2,
     Encoder.init input_size hl p act s = (Ok e, s1) →
     Decoder.init e act' s1' = (Ok d, s2) →
     Decoder.hidden_layers d = rev hl ∧
     s ≤ s1 ∧
     decoder_topology d = consecutive (rev hl ++ [input_size]) ∧
     s1' ≤ s2 ∧
     decoder_parameters d = uniform <$> seq s1' (s2 - s1')) as Hgen.
  { intros input_size hl p act s e s1 act' s1' d s2 He Hd.
    pose proof (Decoder_init_hidden_layers _ _ _ _ _ Hd) as Hrev.
    destruct (Encoder_init_fields _ _ _ _ _ _ _ He)
      as (h0 & hl' & -> & Hin & Hhl & Hp & Hs & Eh & En & Ei & Ep & _).
    rewrite Eh in Hrev. split; [done|]. split; [done|].
    rewrite <- Ei. apply (Decoder_init_layout e h0 hl' act');
      rewrite ?Ei, ?Ep; done. }
  split_and!.
  - apply @Decoder_init_hidden_layers.
  - intros * He Hd. destruct (Hgen _ _ _ _ _ _ _ _ _ _ _ He Hd) as (_ & _ & ?). done.
  - intros * He1 Hd1 He2 Hd2.
    destruct (Hgen _ _ _ _ _ _ _ _ _ _ _ He1 Hd1) as (Hh1 & _ & Ht1 & Hs1 & Hp1).
    destruct (Hgen _ _ _ _ _ _ _ _ _ _ _ He2 Hd2) as (Hh2 & Hs2 & Ht2 & Hs3 & Hp2).
    split_and!; try done.
    rewrite Ht1, Ht2. simpl. unfold consecutive. simpl. split.
    + intros [=]. done.
    + by intros ->.
Qed.

(** The theorem at work on the sequences [[3; 2; 2]] and [[2; 2; 3]]. *)
Lemma Decoder_init_mirrors_encoder_witness :
  ∃ d1 d2,
    Decoder.hidden_layers d1 = [2; 2; 3]%Z ∧
    Decoder.hidden_layers d2 = [3; 2; 2]%Z ∧
    (decoder_topology d1 = decoder_topology d2 ↔ 3 = 2)%Z ∧
    decoder_parameters d1 = @uniform Toy.zeros <$> seq 29 (60 - 29) ∧
    decoder_parameters d2 = @uniform Toy.zeros <$> seq 85 (111 - 85).
Proof.
  destruct (Decoder_init_mirrors_encoder (H:=Toy.zeros)) as (_ & _ & Habc).
  edestruct (Habc 4%Z 3%Z 2%Z 2%Z (1 # 5) ReLU 0)
    as (H1 & H2 & H3 & _ & _ & _ & H4 & H5);
    [vm_compute; reflexivity..|].
  eexists _, _. split_and!; [exact H1|exact H2|exact H3|exact H4|exact H5].
Defined.

(** ** Shapes through the forward pass (claim C6) *)

Lemma chain_shaped_set_chain `{Generator} (widths : list Z) (s : nat) :
  chain_shaped widths (set_chain (chain_layers widths s) 0 ∅).
Proof.
  intros i a b Ha Hb.
  destruct (chain_layers_lookup widths s i a b Ha Hb) as (l & Hl & Hshape).
  exists l. split; [|done].
  pose proof (set_chain_lookup (chain_layers widths s) 0 ∅ i) as E.
  by rewrite Z.add_0_l, Hl in E.
Qed.

Lemma getattr_dense_shaped (widths : list Z) (dense : gmap string Linear.t)
    (i : nat) (a b : Z) :
  chain_shaped widths dense →
  widths !! i = Some a → widths !! Datatypes.S i = Some b →
  ∃ l, getattr_dense dense (Z.of_nat i) = Ok l ∧ Linear.shaped a b l.
Proof.
  intros Hchain Ha Hb. destruct (Hchain i a b Ha Hb) as (l & Hl & Hshape).
  exists l. split; [|done]. unfold getattr_dense. by rewrite Hl.
Qed.

(** The loop that [Encoder.forward] and [Decoder.forward] share: [k] rounds
    from layer [j] on take rows of the [j]-th width to rows of the
    [(j + k)]-th. *)
Lemma forward_loop `{Generator} (widths : list Z) (dense : gmap string Linear.t)
    (dr : Dropout.t) (k j : nat) (x : mat) (s : nat) (n : nat) (w : Z) :
  chain_shaped widths dense → Forall (λ w, (0 ≤ w)%Z) widths →
  j + k < length widths → widths !! j = Some w → rows_of w n x →
  ∃ y s' w',
    for_fold (seqZ (Z.of_nat j) (Z.of_nat k))
      (λ x i,
         dense_i ← lift (getattr_dense dense i);
         x ← lift (Linear.forward dense_i x);
         let x := ReLU x in
         Dropout.forward dr x)
      x s
    = (Ok y, s') ∧ widths !! (j + k) = Some w' ∧ rows_of w' n y.
Proof.
  intros Hchain Hnonneg.
  revert j x s w. induction k as [|k IH]; intros j x s w Hlen Hw Hx.
  { exists x, s, w. rewrite seqZ_nil by lia. by rewrite Nat.add_0_r. }
  destruct (lookup_lt_is_Some_2 widths (Datatypes.S j)) as [b Hb]; [lia|].
  destruct (getattr_dense_shaped widths dense j w b Hchain Hw Hb)
    as (l & Hl & Hshape).
  assert (0 ≤ b)%Z as Hb0.
  { rewrite Forall_forall in Hnonneg. apply Hnonneg.
    by eapply list_elem_of_lookup_2. }
  destruct (Linear_forward_shaped w b n l x Hb0 Hshape Hx) as (y1 & Hy1 & Hrows1).
  destruct (Dropout_forward_rows dr (ReLU y1) s b n (ReLU_rows _ _ _ Hrows1))
    as (y2 & s2 & Hy2 & Hrows2).
  destruct (IH (Datatypes.S j) y2 s2 b) as (y & s' & w' & Hloop & Hw' & Hrows);
    [lia|done|done|].
  exists y, s', w'. split; [|split; [|done]].
  - rewrite seqZ_cons by lia. cbn [for_fold].
    erewrite bind_ok.
    2:{ rewrite (lift_ok _ _ _ l) by done.
        rewrite (lift_ok _ _ _ y1) by done. exact Hy2. }
    replace (Z.succ (Z.of_nat j)) with (Z.of_nat (Datatypes.S j)) by lia.
    replace (Z.pred (Z.of_nat (Datatypes.S k))) with (Z.of_nat k) by lia.
    exact Hloop.
  - by replace (j + Datatypes.S k) with (Datatypes.S j + k) by lia.
Qed.

Lemma Encoder_forward_shaped `{Generator} (input_size : Z) (hl : list Z)
    (e : Encoder.t) (x : mat) (n : nat) (s : nat) :
  2 ≤ length hl → Forall (λ w, (0 ≤ w)%Z) hl →
  encoder_shaped input_size hl e → rows_of input_size n x →
  ∃ y s', Encoder.forward e x s = (Ok y, s') ∧ rows_of (default 0%Z (last hl)) n y.
Proof.
  intros Hlen Hnonneg (Hn & (h0 & Hh0 & Hinput) & Hchain & Hact) Hx.
  assert (0 ≤ h0)%Z as Hh0nn.
  { rewrite Forall_forall in Hnonneg. apply Hnonneg.
    by eapply list_elem_of_lookup_2. }
  destruct (Linear_forward_shaped _ _ n _ x Hh0nn Hinput Hx) as (y0 & Hy0 & Hrows0).
  destruct (forward_loop hl (Encoder.dense e) (Encoder.dropout e)
              (length hl - 2) 0 (ReLU y0) s n h0)
    as (y1 & s1 & w1 & Hloop & Hw1 & Hrows1);
    [done|done|lia|done|by apply ReLU_rows|].
  simpl in Hw1.
  destruct (lookup_lt_is_Some_2 hl (Datatypes.S (length hl - 2))) as [wk Hwk]; [lia|].
  destruct (getattr_dense_shaped hl (Encoder.dense e) (length hl - 2) w1 wk
              Hchain Hw1 Hwk) as (l & Hl & Hshape).
  assert (0 ≤ wk)%Z as Hwknn.
  { rewrite Forall_forall in Hnonneg. apply Hnonneg.
    by eapply list_elem_of_lookup_2. }
  destruct (Linear_forward_shaped _ _ n _ y1 Hwknn Hshape Hrows1) as (y & Hy & Hrows).
  assert (last hl = Some wk) as Hlast.
  { rewrite last_lookup. rewrite <- Hwk. f_equal. lia. }
  exists y, s1. rewrite Hlast. split; [|done].
  unfold Encoder.forward. rewrite (lift_ok _ _ _ y0) by done.
  rewrite Hact, Hn. unfold py_range. rewrite Z.sub_0_r.
  replace (Z.of_nat (length hl) - 1 - 1)%Z with (Z.of_nat (length hl - 2)) by lia.
  erewrite bind_ok by exact Hloop.
  rewrite (lift_ok _ _ _ l) by done. by rewrite Hy.
Qed.

Lemma rev_lookup {A} (l : list A) (i : nat) :
  i < length l → rev l !! i = l !! (length l - Datatypes.S i).
Proof. intros Hi. rewrite rev_alt. by apply reverse_lookup. Qed.

Lemma Decoder_forward_shaped `{Generator} (input_size : Z) (hl : list Z)
    (d : Decoder.t) (x : mat) (n : nat) (s : nat) :
  1 ≤ length hl → Forall (λ w, (0 ≤ w)%Z) hl → (0 ≤ input_size)%Z →
  decoder_shaped input_size hl d → rows_of (default 0%Z (last hl)) n x →
  ∃ y s', Decoder.forward d x s = (Ok y, s') ∧ rows_of input_size n y.
Proof.
  intros Hlen Hnonneg Hin (Hn & Hchain & (h0 & Hh0 & Houtput) & Hact) Hx.
  assert (Forall (λ w, (0 ≤ w)%Z) (rev hl)) as Hrev.
  { apply Forall_forall. intros w Hw. rewrite Forall_forall in Hnonneg.
    apply Hnonneg, list_elem_of_In, in_rev. by apply list_elem_of_In. }
  destruct (lookup_lt_is_Some_2 (rev hl) 0) as [wk Hwk];
    [rewrite length_rev; lia|].
  assert (last hl = Some wk) as Hlast.
  { rewrite last_lookup. rewrite rev_lookup in Hwk by lia. rewrite <- Hwk.
    f_equal. lia. }
  rewrite Hlast in Hx. simpl in Hx.
  destruct (forward_loop (rev hl) (Decoder.dense d) (Decoder.dropout d)
              (length hl - 1) 0 x s n wk)
    as (y1 & s1 & w1 & Hloop & Hw1 & Hrows1);
    [done|done|rewrite length_rev; lia|done|done|].
  simpl in Hw1. rewrite rev_lookup in Hw1 by lia.
  replace (length hl - Datatypes.S (length hl - 1)) with 0 in Hw1 by lia.
  assert (w1 = h0) as -> by congruence.
  destruct (Linear_forward_shaped _ _ n _ y1 Hin Houtput Hrows1) as (y & Hy & Hrows).
  exists y, s1. split; [|done].
  unfold Decoder.forward. rewrite Hact, Hn. unfold py_range. rewrite Z.sub_0_r.
  replace (Z.of_nat (length hl) - 1)%Z with (Z.of_nat (length hl - 1)) by lia.
  erewrite bind_ok by exact Hloop. by rewrite Hy.
Qed.

Lemma Decoder_init_activation `{Generator} (e : Encoder.t)
    (activation : mat → mat) (s : nat) (d : Decoder.t) (s' : nat) :
  Decoder.init e activation s = (Ok d, s') → Decoder.activation d = activation.
Proof.
  unfold Decoder.init, mbind, M_bind, lift, mret, M_ret. intros Hd.
  repeat case_match; simplify_eq. done.
Qed.

(** What [AutoEncoder.__init__] returns for widths that are not negative. *)
Lemma AutoEncoder_init_shaped `{Generator} (input_size : Z) (hl : list Z) (p : Q)
    (activation : mat → mat) (s : nat) :
  hl ≠ [] → Forall (λ w, (0 ≤ w)%Z) hl → (0 ≤ input_size)%Z → valid_rate p →
  ∃ m s', AutoEncoder.init input_size hl p activation s = (Ok m, s') ∧
          model_shaped input_size hl m ∧ in_mode true m.
Proof.
  intros Hne Hnonneg Hin Hp. destruct hl as [|h0 hl]; [done|].
  unfold AutoEncoder.init.
  erewrite bind_ok by (by apply Encoder_init_ok).
  erewrite bind_ok by (by apply (Decoder_init_ok _ h0 hl)).
  eexists _, _. split; [done|]. split; [split|done].
  - split_and!.
    + cbn [AutoEncoder.encoder Encoder.n_layers length]. lia.
    + exists h0. split; [done|]. apply Linear_make_shaped.
    + apply chain_shaped_set_chain.
    + done.
  - split_and!.
    + cbn [AutoEncoder.decoder Decoder.n_layers length]. lia.
    + apply (chain_shaped_set_chain (rev (h0 :: hl))).
    + exists h0. split; [done|]. apply Linear_make_shaped.
    + done.
Qed.

Lemma chain_shaped_map_imap (widths : list Z) (dense : gmap string Linear.t)
    (f : string → Linear.t → Linear.t) :
  (∀ k a b l, Linear.shaped a b l → Linear.shaped a b (f k l)) →
  chain_shaped widths dense →
  chain_shaped widths (map_imap (λ k l, Some (f k l)) dense).
Proof.
  intros Hf Hchain i a b Ha Hb.
  destruct (Hchain i a b Ha Hb) as (l & Hl & Hshape).
  exists (f (dense_name (Z.of_nat i)) l). split; [|by apply Hf].
  by rewrite map_lookup_imap, Hl.
Qed.

(** An update of the parameters and a change of mode keep the shapes. *)
Lemma map_layers_shaped (input_size : Z) (hl : list Z) (m : AutoEncoder.t)
    (f : string → Linear.t → Linear.t) :
  (∀ k a b l, Linear.shaped a b l → Linear.shaped a b (f k l)) →
  model_shaped input_size hl m → model_shaped input_size hl (map_layers f m).
Proof.
  intros Hf [(Hn & (h0 & Hh0 & Hinput) & Hchain & Hact)
             (Hn' & Hchain' & (h0' & Hh0' & Houtput) & Hact')].
  split; split_and!; simpl; try done.
  - exists h0. split; [done|]. by apply Hf.
  - apply (chain_shaped_map_imap _ _ (λ k, f ("encoder." +:+ k))); [|done].
    intros. by apply Hf.
  - apply (chain_shaped_map_imap _ _ (λ k, f ("decoder." +:+ k))); [|done].
    intros. by apply Hf.
  - exists h0'. split; [done|]. by apply Hf.
Qed.

Lemma train_shaped (input_size : Z) (hl : list Z) (m : AutoEncoder.t) (mode : bool) :
  model_shaped input_size hl m → model_shaped input_size hl (AutoEncoder.train mode m).
Proof. intros [He Hd]. split; [apply He|apply Hd]. Qed.

Lemma AutoEncoder_forward_shaped `{Generator} (input_size : Z) (hl : list Z)
    (m : AutoEncoder.t) (x : mat) (n : nat) (s : nat) :
  2 ≤ length hl → Forall (λ w, (0 ≤ w)%Z) hl → (0 ≤ input_size)%Z →
  model_shaped input_size hl m → rows_of input_size n x →
  ∃ encoded decoded s',
    AutoEncoder.forward m x s = (Ok (encoded, decoded), s') ∧
    rows_of (default 0%Z (last hl)) n encoded ∧
    rows_of input_size n decoded.
Proof.
  intros Hlen Hnonneg Hin [He Hd] Hx.
  destruct (Encoder_forward_shaped input_size hl _ x n s Hlen Hnonneg He Hx)
    as (enc & s1 & Henc & Hrows1).
  destruct (Decoder_forward_shaped input_size hl (AutoEncoder.decoder m) enc n s1) as (dec & s2 & Hdec & Hrows2);
    [lia|done|done|done|done|].
  exists enc, dec, s2. split; [|done].
  unfold AutoEncoder.forward. erewrite bind_ok by exact Henc.
  by erewrite bind_ok by exact Hdec.
Qed.

(** C6: for a width sequence of at least two positive widths (so for every
    [k ≥ 2] in particular) and a positive input size, [AutoEncoder] is
    constructed, and its [forward] on [n] records of [input_size] features
    returns the pair of an embedding of [n] rows as long as the last width
    and a reconstruction of [n] rows as long as the input; the same holds in
    either mode and after any update of the parameters. *)
Theorem AutoEncoder_forward_lengths `{Generator} (input_size : Z) (hl : list Z)
    (p : Q) (activation : mat → mat) (s : nat) :
  2 ≤ length hl → Forall (λ w, (0 < w)%Z) hl → (0 < input_size)%Z → valid_rate p →
  ∃ m s', AutoEncoder.init input_size hl p activation s = (Ok m, s') ∧
    ∀ (x : mat) (n : nat), rows_of input_size n x →
      (∀ r, ∃ encoded decoded r',
         AutoEncoder.forward m x r = (Ok (encoded, decoded), r') ∧
         rows_of (default 0%Z (last hl)) n encoded ∧
         rows_of input_size n decoded) ∧
      (∀ mode fw fb r, ∃ encoded decoded r',
         AutoEncoder.forward
           (AutoEncoder.train mode
              (map_layers (λ name, Linear.update (fw name) (fb name)) m)) x r
         = (Ok (encoded, decoded), r') ∧
         rows_of (default 0%Z (last hl)) n encoded ∧
         rows_of input_size n decoded).
Proof.
  intros Hlen Hpos Hin Hp.
  assert (Forall (λ w, (0 ≤ w)%Z) hl) as Hnonneg.
  { eapply Forall_impl; [done|]. simpl. lia. }
  destruct (AutoEncoder_init_shaped input_size hl p activation s)
    as (m & s' & Hinit & Hshaped & _); [|done|lia|done|].
  { intros ->. simpl in Hlen. lia. }
  exists m, s'. split; [done|]. intros x n Hx. split.
  - intros r. apply AutoEncoder_forward_shaped; [done|done|lia|done|done].
  - intros mode fw fb r.
    apply AutoEncoder_forward_shaped; [done|done|lia| |done].
    apply train_shaped, map_layers_shaped; [|done].
    intros. by apply Linear_update_shaped.
Qed.

(** The theorem at work on the widths [[3; 2]] and two records of four
    features. *)
Lemma AutoEncoder_forward_lengths_witness :
  ∃ m s', @AutoEncoder.init Toy.ones 4 [3; 2]%Z (1 # 5) ReLU 0 = (Ok m, s') ∧
    ∃ encoded decoded r',
      @AutoEncoder.forward Toy.ones m [[1; 2; 3; 4]; [0; 0; 1; 0]]%Q 7
      = (Ok (encoded, decoded), r') ∧
      rows_of 2 2 encoded ∧ rows_of 4 2 decoded.
Proof.
  destruct (AutoEncoder_forward_lengths (H:=Toy.ones) 4 [3; 2]%Z (1 # 5) ReLU 0)
    as (m & s' & Hinit & Hforward).
  - simpl. lia.
  - repeat constructor; lia.
  - lia.
  - split; reflexivity.
  - exists m, s'. split; [exact Hinit|].
    destruct (Hforward [[1; 2; 3; 4]; [0; 0; 1; 0]]%Q 2) as [Hplain _].
    + split; [reflexivity|]. repeat constructor.
    + exact (Hplain 7).
Defined.

(** ** The activation argument of [AutoEncoder] (claim C9) *)

Lemma AutoEncoder_init_activation `{Generator} (input_size : Z) (hl : list Z)
    (p : Q) (activation : mat → mat) (s : nat) (m : AutoEncoder.t) (s' : nat) :
  AutoEncoder.init input_size hl p activation s = (Ok m, s') →
  Encoder.activation (AutoEncoder.encoder m) = ReLU ∧
  Decoder.activation (AutoEncoder.decoder m) = ReLU.
Proof.
  unfold AutoEncoder.init. intros Hm.
  destruct (Encoder.init input_size hl p ReLU s) as [[e|?] s1] eqn:He.
  2:{ by erewrite bind_raise in Hm. }
  erewrite bind_ok in Hm by exact He.
  destruct (Decoder.init e ReLU s1) as [[d|?] s2] eqn:Hd.
  2:{ by erewrite bind_raise in Hm. }
  erewrite bind_ok in Hm by exact Hd.
  injection Hm as <- <-. simpl. split.
  - by destruct (Encoder_init_fields _ _ _ _ _ _ _ He) as (? & ? & _ & _ & _ & _ & _ & _ & _ & _ & _ & ?).
  - by eapply Decoder_init_activation.
Qed.

(** C9: the activation given to [AutoEncoder] has no effect.  Constructed
    from the same state of the generator with two activations, the two
    models are the same; their encoder and decoder apply [ReLU]; and their
    forward passes agree on every input and at every position of the
    generator. *)
Theorem AutoEncoder_init_ignores_activation `{Generator} (input_size : Z)
    (hl : list Z) (p : Q) (act1 act2 : mat → mat) (s : nat) :
  AutoEncoder.init input_size hl p act1 s = AutoEncoder.init input_size hl p act2 s ∧
  ∀ m1 s1 m2 s2,
    AutoEncoder.init input_size hl p act1 s = (Ok m1, s1) →
    AutoEncoder.init input_size hl p act2 s = (Ok m2, s2) →
    Encoder.activation (AutoEncoder.encoder m1) = ReLU ∧
    Decoder.activation (AutoEncoder.decoder m1) = ReLU ∧
    Encoder.activation (AutoEncoder.encoder m2) = ReLU ∧
    Decoder.activation (AutoEncoder.decoder m2) = ReLU ∧
    ∀ x r, AutoEncoder.forward m1 x r = AutoEncoder.forward m2 x r.
Proof.
  split; [done|]. intros m1 s1 m2 s2 H1 H2.
  destruct (AutoEncoder_init_activation _ _ _ _ _ _ _ H1) as [He1 Hd1].
  destruct (AutoEncoder_init_activation _ _ _ _ _ _ _ H2) as [He2 Hd2].
  split_and!; try done.
  intros x r. change (AutoEncoder.init input_size hl p act2 s)
    with (AutoEncoder.init input_size hl p act1 s) in H2.
  rewrite H1 in H2. by injection H2 as -> _.
Qed.

(** The theorem at work: the identity as activation against the default. *)
Lemma AutoEncoder_init_ignores_activation_witness :
  ∃ m1 m2 s1 s2,
    @AutoEncoder.init Toy.ones 1 [1; 1; 1]%Z (1 # 2) (λ x, x) 0 = (Ok m1, s1) ∧
    @AutoEncoder.init Toy.ones 1 [1; 1; 1]%Z (1 # 2) ReLU 0 = (Ok m2, s2) ∧
    Encoder.activation (AutoEncoder.encoder m1) = ReLU ∧
    @AutoEncoder.forward Toy.ones m1 [[1%Q]] 0
    = @AutoEncoder.forward Toy.ones m2 [[1%Q]] 0.
Proof.
  destruct (AutoEncoder_init_ignores_activation (H:=Toy.ones)
              1 [1; 1; 1]%Z (1 # 2) (λ x, x) ReLU 0) as [_ Hsame].
  edestruct Hsame as (Ha & _ & _ & _ & Hf); [vm_compute; reflexivity..|].
  eexists _, _, _, _.
  split; [vm_compute; reflexivity|]. split; [vm_compute; reflexivity|].
  split; [exact Ha|]. exact (Hf [[1%Q]] 0).
Defined.

(** ** Loading a checkpoint (claim C4) *)

(** C4, counterexample: the file holds a model for inputs of two features
    with the widths [[2; 1]], the model bound to [model] is one for inputs of
    one feature with the widths [[1; 1]].  The load does not fail, and
    [model] is then the model of the file. *)
Lemma load_accepts_other_topology :
  ∃ m_old m_file s1 s2,
    @AutoEncoder.init Toy.zeros 1 [1; 1]%Z (1 # 5) ReLU 0 = (Ok m_old, s1) ∧
    @AutoEncoder.init Toy.zeros 2 [2; 1]%Z (1 # 5) ReLU 0 = (Ok m_file, s2) ∧
    AutoEncoder.hidden_layers m_old ≠ AutoEncoder.hidden_layers m_file ∧
    Encoder.input_size (AutoEncoder.encoder m_old)
    ≠ Encoder.input_size (AutoEncoder.encoder m_file) ∧
    let ns := Notebook.set_files {[pretrained_path := m_file]}
                (Notebook.set_model (Some (0, m_old))
                   (@Toy.fresh_kernel Toy.backend Toy.two_records)) in
    (@Notebook.load_model Toy.backend pretrained_path ns).1 = Ok (0, m_file) ∧
    Notebook.model (@Notebook.load_model Toy.backend pretrained_path ns).2
    = Some (0, m_file).
Proof.
  do 4 eexists.
  split; [vm_compute; reflexivity|].
  split; [vm_compute; reflexivity|].
  split; [vm_compute; discriminate|].
  split; [vm_compute; discriminate|].
  split; vm_compute; reflexivity.
Qed.

Section Loading.
Context `{Generator} `{Autograd}.

Lemma torch_load_absent (path : string) (ns : Notebook.t) :
  Notebook.files ns !! path = None →
  Notebook.torch_load path ns = (Raise (FileNotFoundError path), ns).
Proof.
  intros Hnone. unfold Notebook.torch_load.
  erewrite bind_ok by reflexivity. by rewrite Hnone.
Qed.

Lemma load_model_absent (path : string) (ns : Notebook.t) :
  Notebook.files ns !! path = None →
  Notebook.load_model path ns = (Raise (FileNotFoundError path), ns).
Proof.
  intros Hnone. unfold Notebook.load_model.
  erewrite bind_raise; [done|]. by apply torch_load_absent.
Qed.

Lemma load_model_present (path : string) (ns : Notebook.t) (m : AutoEncoder.t) :
  Notebook.files ns !! path = Some m →
  Notebook.load_model path ns
  = (Ok (Notebook.fresh ns, m),
     Notebook.set_model (Some (Notebook.fresh ns, m))
       (Notebook.set_fresh (Datatypes.S (Notebook.fresh ns)) ns)).
Proof.
  intros Hsome. unfold Notebook.load_model, Notebook.torch_load.
  erewrite bind_ok.
  2:{ erewrite bind_ok by reflexivity. rewrite Hsome. reflexivity. }
  reflexivity.
Qed.

(** C4, as the code has it.  A load of a file that is absent fails, with
    [FileNotFoundError], and leaves the whole state as it was, the binding
    of [model] included; so do the two cells that start with a load.  A load
    of a file that is present succeeds whatever model it holds: nothing is
    compared with the model bound before, and [model] is bound to a new
    object with the state in the file, topology and parameters together. *)
Theorem load_model_outcome (path : string) (ns : Notebook.t) :
  (Notebook.files ns !! path = None →
     Notebook.load_model path ns = (Raise (FileNotFoundError path), ns) ∧
     (∀ X, Notebook.evaluate_cell path X ns = (Raise (FileNotFoundError path), ns)) ∧
     (path = pretrained_path → ∀ n_epochs eval_every,
        Notebook.finetune_cell n_epochs eval_every ns
        = (Raise (FileNotFoundError path), ns))) ∧
  (∀ m, Notebook.files ns !! path = Some m →
     ∃ ns', Notebook.load_model path ns = (Ok (Notebook.fresh ns, m), ns') ∧
            Notebook.model ns' = Some (Notebook.fresh ns, m) ∧
            Notebook.files ns' = Notebook.files ns).
Proof.
  split.
  - intros Hnone. pose proof (load_model_absent path ns Hnone) as Hload.
    split_and!; [done| |].
    + intros X. unfold Notebook.evaluate_cell. by erewrite bind_raise.
    + intros -> n_epochs eval_every. unfold Notebook.finetune_cell.
      by erewrite bind_raise.
  - intros m Hsome. eexists. split; [by apply load_model_present|]. done.
Qed.

End Loading.

(** The theorem at work: a kernel with no file, and the kernel of the
    counterexample. *)
Lemma load_model_outcome_witness :
  let ns := @Toy.fresh_kernel Toy.backend Toy.two_records in
  @Notebook.load_model Toy.backend pretrained_path ns
  = (Raise (FileNotFoundError pretrained_path), ns) ∧
  ∀ m, ∃ ns',
    @Notebook.load_model Toy.backend pretrained_path
      (Notebook.set_files {[pretrained_path := m]} ns)
    = (Ok (0, m), ns') ∧
    Notebook.model ns' = Some (0, m).
Proof.
  intros ns. split.
  - apply (@load_model_outcome Toy.zeros Toy.backend pretrained_path ns). reflexivity.
  - intros m.
    destruct (@load_model_outcome Toy.zeros Toy.backend pretrained_path
                (Notebook.set_files {[pretrained_path := m]} ns)) as [_ Hpresent].
    destruct (Hpresent m) as (ns' & Hload & Hmodel & _).
    + apply lookup_singleton_eq.
    + exists ns'. split; [exact Hload|exact Hmodel].
Defined.

(** ** Invariants of the training cells *)

Lemma extends_by_refl (P : event → Prop) (t : list event) : extends_by P t t.
Proof. exists []. by rewrite app_nil_r. Qed.

Lemma extends_by_snoc (P : event → Prop) (t0 t : list event) (e : event) :
  extends_by P t0 t → P e → extends_by P t0 (t ++ [e]).
Proof.
  intros (new & -> & Hnew) He. exists (new ++ [e]).
  split; [by rewrite app_assoc|]. apply Forall_app. by split; [|constructor].
Qed.

Lemma extends_by_trans (P : event → Prop) (t0 t1 t2 : list event) :
  extends_by P t0 t1 → extends_by P t1 t2 → extends_by P t0 t2.
Proof.
  intros (n1 & -> & H1) (n2 & -> & H2). exists (n1 ++ n2).
  split; [by rewrite app_assoc|]. by apply Forall_app.
Qed.

Lemma extends_by_impl (P Q : event → Prop) (t0 t : list event) :
  (∀ e, P e → Q e) → extends_by P t0 t → extends_by Q t0 t.
Proof.
  intros HPQ (new & -> & Hnew). exists new. split; [done|].
  by eapply Forall_impl.
Qed.

Lemma map_layers_mode (b : bool) (f : string → Linear.t → Linear.t) (m : AutoEncoder.t) :
  in_mode b m → in_mode b (map_layers f m).
Proof. intros Hm. exact Hm. Qed.

Lemma train_mode (b : bool) (m : AutoEncoder.t) : in_mode b (AutoEncoder.train b m).
Proof. by repeat split. Qed.

(** Unfold a cell down to the state it leaves, one case for each way it
    can go. *)
Ltac run_cell :=
  unfold Notebook.train_batch, Notebook.optimizer_step, Notebook.report,
    Notebook.scheduler_step, Notebook.torch_save, Notebook.load_model,
    Notebook.torch_load, Notebook.new_id, Notebook.getvar, Notebook.log,
    Notebook.draw, mbind, M_bind, mret, M_ret, modify, gets, lift, raise;
  repeat (case_match; simplify_eq; cbn [fst snd] in * );
  cbn [fst snd Notebook.model Notebook.optimizer Notebook.scheduler
       Notebook.losses Notebook.loss Notebook.mean_loss Notebook.best_loss
       Notebook.dataloader Notebook.files Notebook.rng Notebook.fresh
       Notebook.trace Notebook.loss_ Notebook.torch_models
       Notebook.set_loss_ Notebook.set_model Notebook.set_optimizer
       Notebook.set_scheduler Notebook.set_losses Notebook.set_loss
       Notebook.set_mean_loss Notebook.set_best_loss Notebook.set_files
       Notebook.set_rng Notebook.set_fresh Notebook.set_trace] in *.

(** Two readings of one variable give one value. *)
Ltac same_reads :=
  repeat match goal with
         | H1 : ?x = Some ?a, H2 : ?x = Some ?b |- _ =>
             rewrite H1 in H2; simplify_eq
         | H1 : ?x = Some ?a, H2 : ?x = None |- _ =>
             rewrite H1 in H2; discriminate H2
         end.

Section Driver.
Context `{Generator} `{Autograd}.

(** An invariant of the batches that does not depend on the generator is
    an invariant of a pass over the data. *)
Lemma batch_loop_invariant (J : Notebook.t → Prop) :
  (∀ ns s, J ns → J (Notebook.set_rng s ns)) →
  (∀ x_batch, hoare J (Notebook.train_batch x_batch) (λ _, J)) →
  hoare J Notebook.batch_loop (λ _, J).
Proof.
  intros Hrng Hbatch. unfold Notebook.batch_loop.
  eapply hoare_bind with (R := λ _, J); [by intros ns Hns| |done].
  intros dl. eapply hoare_bind with (R := λ _, J); [| |done].
  - intros ns Hns. unfold Notebook.draw.
    destruct (DataLoader.iter dl (Notebook.rng ns)) as [r s]. by apply Hrng.
  - intros batches. apply for_each_invariant. intros [x_batch y_batch] _.
    apply Hbatch.
Qed.

Ltac close_mode Hmodel :=
  split;
  [ intros ? ? ?; simplify_eq;
    first [by eapply Hmodel | apply map_layers_mode; by eapply Hmodel]
  | repeat (apply extends_by_snoc; [|simpl; first [done | by eapply Hmodel]]);
    done ].

Lemma train_batch_mode (b : bool) (t0 : list event) (x_batch : mat) :
  hoare (mode_inv b t0) (Notebook.train_batch x_batch) (λ _, mode_inv b t0).
Proof.
  intros ns [Hmodel Htrace]. unfold mode_inv.
  run_cell.
  all: close_mode Hmodel.
Qed.


Lemma report_mode (b : bool) (t0 : list event) (epoch n_epochs eval_every : Z) :
  hoare (mode_inv b t0) (Notebook.report epoch n_epochs eval_every)
    (λ _, mode_inv b t0).
Proof.
  intros ns [Hmodel Htrace]. unfold mode_inv. run_cell.
  all: close_mode Hmodel.
Qed.

Lemma scheduler_step_mode (b : bool) (t0 : list event) :
  hoare (mode_inv b t0) Notebook.scheduler_step (λ _, mode_inv b t0).
Proof.
  intros ns [Hmodel Htrace]. unfold mode_inv. run_cell.
  all: close_mode Hmodel.
Qed.

Lemma torch_save_mode (b : bool) (t0 : list event) (path : string) :
  hoare (mode_inv b t0) (Notebook.torch_save path) (λ _, mode_inv b t0).
Proof.
  intros ns [Hmodel Htrace]. unfold mode_inv. run_cell.
  all: close_mode Hmodel.
Qed.

Lemma batch_loop_mode (b : bool) (t0 : list event) :
  hoare (mode_inv b t0) Notebook.batch_loop (λ _, mode_inv b t0).
Proof.
  apply batch_loop_invariant; [|apply train_batch_mode].
  by intros ns s [Hmodel Htrace].
Qed.

Lemma pretrain_epoch_mode (b : bool) (t0 : list event) (n_epochs eval_every epoch : Z) :
  hoare (mode_inv b t0) (Notebook.pretrain_epoch n_epochs eval_every epoch)
    (λ _, mode_inv b t0).
Proof.
  unfold Notebook.pretrain_epoch.
  eapply hoare_bind with (R := λ _, mode_inv b t0); [by intros ns [??]| |done].
  intros ?. eapply hoare_bind; [apply batch_loop_mode| |done].
  intros ?. eapply hoare_bind; [apply report_mode| |done].
  intros mean_loss. eapply hoare_bind; [apply scheduler_step_mode| |done].
  intros ?. eapply hoare_bind with (R := λ _, mode_inv b t0); [| |done].
  { intros ns Hns. by run_cell. }
  intros best_loss. destruct (Scalar.float_ltb mean_loss best_loss).
  - eapply hoare_bind with (R := λ _, mode_inv b t0); [| |done].
    { intros ns Hns. by run_cell. }
    intros l. eapply hoare_bind with (R := λ _, mode_inv b t0); [| |done].
    { by intros ns [??]. }
    intros ?. apply torch_save_mode.
  - by intros ns Hns.
Qed.

Lemma pretrain_cell_mode (b : bool) (t0 : list event) (n_epochs eval_every : Z) :
  hoare (mode_inv b t0) (Notebook.pretrain_cell n_epochs eval_every)
    (λ _, mode_inv b t0).
Proof.
  unfold Notebook.pretrain_cell.
  eapply hoare_bind with (R := λ _, mode_inv b t0); [by intros ns [??]| |done].
  intros ?. apply for_each_invariant. intros epoch _. apply pretrain_epoch_mode.
Qed.

Lemma finetune_epoch_mode (b : bool) (t0 : list event) (n_epochs eval_every epoch : Z) :
  hoare (mode_inv b t0) (Notebook.finetune_epoch n_epochs eval_every epoch)
    (λ _, mode_inv b t0).
Proof.
  unfold Notebook.finetune_epoch.
  eapply hoare_bind; [apply batch_loop_mode| |done].
  intros ?. eapply hoare_bind; [apply report_mode| |done].
  intros ?. apply torch_save_mode.
Qed.

(** The cell that creates the model leaves it in training mode and makes no
    forward pass. *)
Lemma create_model_cell_mode (t0 : list event) (n_input_features : Z)
    (hidden_layers : list Z) (dropout_rate : Q) :
  hoare (λ ns, Notebook.trace ns = t0)
    (Notebook.create_model_cell n_input_features hidden_layers dropout_rate)
    (λ r ns, Notebook.trace ns = t0 ∧ (r = Ok tt → mode_inv true t0 ns)).
Proof.
  intros ns Hns. unfold Notebook.create_model_cell.
  run_cell; (split; [done|]); [|done].
  intros ?. split; [|apply extends_by_refl].
  intros i m [= <- <-]. apply train_mode.
Qed.

(** The fine-tuning cell puts the model it loads in evaluation mode before
    its loop, and the loop keeps it there. *)
Lemma finetune_cell_mode (n_epochs eval_every : Z) (ns : Notebook.t) :
  let ns' := (Notebook.finetune_cell n_epochs eval_every ns).2 in
  extends_by (forward_in_mode false) (Notebook.trace ns) (Notebook.trace ns') ∧
  (is_Some (Notebook.files ns !! pretrained_path) →
   ∀ i m, Notebook.model ns' = Some (i, m) → in_mode false m).
Proof.
  unfold Notebook.finetune_cell.
  destruct (Notebook.files ns !! pretrained_path) as [m0|] eqn:Hfile.
  - erewrite bind_ok by (by apply load_model_present).
    cbv beta iota.
    match goal with |- context [for_each ?l ?body] =>
      pose proof (for_each_invariant (mode_inv false (Notebook.trace ns)) l body) as Hloop
    end.
    unfold mbind at 1 2 3 4 5, M_bind, modify, Notebook.new_id. cbn [fst snd].
    match goal with |- context [for_each ?l ?body ?st] =>
      specialize (Hloop (λ x _, finetune_epoch_mode _ _ _ _ x) st)
    end.
    destruct Hloop as [Hmodel Htrace].
    { split; [|apply extends_by_refl].
      intros i m [= <- <-]. apply train_mode. }
    split; [done|]. intros _. done.
  - rewrite (bind_raise _ _ _ _ _ (load_model_absent _ _ Hfile)). simpl.
    split; [apply extends_by_refl|]. by intros [??].
Qed.

End Driver.

(** ** The mode of the model during training (claim C10) *)

(** C10: the fine-tuning cell calls [model.eval()] on the model it loads,
    before its loop, and nothing in the loop changes the mode.  Every
    forward pass of fine-tuning is made by a model whose flags are all off,
    for which both dropout layers return their input and draw nothing; and
    the model is still in evaluation mode when the cell ends.  In
    pre-training, after the cell that creates the model and calls
    [model.train()], every forward pass is made in training mode. *)
Theorem finetune_runs_in_eval_mode `{Generator} `{Autograd} :
  (∀ n_epochs eval_every ns,
     let ns' := (Notebook.finetune_cell n_epochs eval_every ns).2 in
     extends_by
       (λ e, ∀ m, e = Forward m →
          in_mode false m ∧
          ∀ x s,
            Dropout.forward (Encoder.dropout (AutoEncoder.encoder m)) x s = (Ok x, s) ∧
            Dropout.forward (Decoder.dropout (AutoEncoder.decoder m)) x s = (Ok x, s))
       (Notebook.trace ns) (Notebook.trace ns') ∧
     (is_Some (Notebook.files ns !! pretrained_path) →
      ∀ i m, Notebook.model ns' = Some (i, m) → in_mode false m)) ∧
  (∀ n_input_features hidden_layers dropout_rate n_epochs eval_every ns,
     let ns' := ((Notebook.create_model_cell n_input_features hidden_layers
                    dropout_rate;;
                  Notebook.pretrain_cell n_epochs eval_every) ns).2 in
     extends_by (forward_in_mode true) (Notebook.trace ns) (Notebook.trace ns')).
Proof.
  split.
  - intros n_epochs eval_every ns ns'.
    destruct (finetune_cell_mode n_epochs eval_every ns) as [Htrace Hmodel].
    split; [|done].
    eapply extends_by_impl; [|exact Htrace].
    intros e He m ->. simpl in He. split; [done|].
    destruct He as (_ & _ & Henc & _ & Hdec).
    intros x s. by rewrite !Dropout_forward_eval.
  - intros n_input_features hidden_layers dropout_rate n_epochs eval_every ns ns'.
    subst ns'.
    pose proof (create_model_cell_mode (Notebook.trace ns) n_input_features
                  hidden_layers dropout_rate ns eq_refl) as [Htrace Hmode].
    unfold mbind, M_bind.
    destruct (Notebook.create_model_cell _ _ _ ns) as [[[]|e] ns1]; simpl in *.
    + specialize (Hmode eq_refl).
      by destruct (pretrain_cell_mode true (Notebook.trace ns) n_epochs eval_every
                     ns1 Hmode) as [_ ?].
    + rewrite Htrace. apply extends_by_refl.
Qed.

(** The theorem at work: fine-tuning for one epoch after one epoch of
    pre-training makes two forward passes, both in evaluation mode, where
    pre-training made its two in training mode. *)
Lemma finetune_runs_in_eval_mode_witness :
  let ns := Toy.pretrained 1 in
  let ns' := (@Notebook.finetune_cell Toy.zeros Toy.backend 1 1 ns).2 in
  AutoEncoder.training <$> Toy.forwards (Notebook.trace ns) = [true; true] ∧
  AutoEncoder.training <$> Toy.forwards (Notebook.trace ns')
  = [true; true; false; false] ∧
  extends_by (λ e, ∀ m, e = Forward m → in_mode false m)
    (Notebook.trace ns) (Notebook.trace ns').
Proof.
  intros ns ns'. split; [vm_compute; reflexivity|]. split; [vm_compute; reflexivity|].
  destruct (@finetune_runs_in_eval_mode Toy.zeros Toy.backend) as [Hfinetune _].
  destruct (Hfinetune 1%Z 1%Z ns) as [Htrace _].
  eapply extends_by_impl; [|exact Htrace].
  intros e He m Hm. exact (proj1 (He m Hm)).
Defined.

(** ** The learning rate and the checkpoints of fine-tuning (claim C8) *)

Section FineTuning.
Context `{Generator} `{Autograd}.

Ltac close_rate Hopt :=
  simplify_eq; split_and!;
  first
    [ done
    | by (intros ? ?; simplify_eq; cbn [SGD.lr]; eapply Hopt)
    | by (repeat (apply extends_by_snoc;
                  [|simpl; first [done | by eapply Hopt]])) ].

Lemma train_batch_rate (lr : Q) (sch : option StepLR.t) (t0 : list event)
    (x_batch : mat) :
  hoare (rate_inv lr sch t0) (Notebook.train_batch x_batch) (λ _, rate_inv lr sch t0).
Proof.
  intros ns (Hopt & Hsch & Htrace). unfold rate_inv. run_cell.
  all: close_rate Hopt.
Qed.

Lemma report_rate (lr : Q) (sch : option StepLR.t) (t0 : list event)
    (epoch n_epochs eval_every : Z) :
  hoare (rate_inv lr sch t0) (Notebook.report epoch n_epochs eval_every)
    (λ _, rate_inv lr sch t0).
Proof.
  intros ns (Hopt & Hsch & Htrace). unfold rate_inv. run_cell.
  all: close_rate Hopt.
Qed.

Lemma torch_save_rate (lr : Q) (sch : option StepLR.t) (t0 : list event)
    (path : string) :
  hoare (rate_inv lr sch t0) (Notebook.torch_save path) (λ _, rate_inv lr sch t0).
Proof.
  intros ns (Hopt & Hsch & Htrace). unfold rate_inv. run_cell.
  all: close_rate Hopt.
Qed.

Lemma finetune_epoch_rate (lr : Q) (sch : option StepLR.t) (t0 : list event)
    (n_epochs eval_every epoch : Z) :
  hoare (rate_inv lr sch t0) (Notebook.finetune_epoch n_epochs eval_every epoch)
    (λ _, rate_inv lr sch t0).
Proof.
  unfold Notebook.finetune_epoch.
  eapply hoare_bind with (R := λ _, rate_inv lr sch t0); [|intros ?|done].
  { apply batch_loop_invariant; [|apply train_batch_rate].
    by intros ns s (? & ? & ?). }
  eapply hoare_bind; [apply report_rate|intros ?|done].
  apply torch_save_rate.
Qed.

(** No checkpoint is written before the end of an epoch. *)
Lemma train_batch_no_save (t0 : list event) (x_batch : mat) :
  hoare (no_save_inv t0) (Notebook.train_batch x_batch) (λ _, no_save_inv t0).
Proof.
  intros ns Htrace. unfold no_save_inv in *. run_cell.
  all: repeat (apply extends_by_snoc; [|simpl; tauto]); done.
Qed.

Lemma report_no_save (t0 : list event) (epoch n_epochs eval_every : Z) :
  hoare (no_save_inv t0) (Notebook.report epoch n_epochs eval_every)
    (λ _, no_save_inv t0).
Proof.
  intros ns Htrace. unfold no_save_inv in *. run_cell.
  all: repeat (apply extends_by_snoc; [|simpl; tauto]); done.
Qed.

(** An epoch of fine-tuning that ends normally has written the checkpoint
    as its last step, and nothing decides whether it does. *)
Lemma finetune_epoch_saves (n_epochs eval_every epoch : Z) (ns : Notebook.t) :
  let ns' := (Notebook.finetune_epoch n_epochs eval_every epoch ns).2 in
  (Notebook.finetune_epoch n_epochs eval_every epoch ns).1 = Ok tt →
  ∃ seg i m,
    Notebook.trace ns' = Notebook.trace ns ++ seg ∧
    epoch_saving finetuned_path seg ∧
    Notebook.model ns' = Some (i, m) ∧
    Notebook.files ns' !! finetuned_path = Some m.
Proof.
  assert (hoare (no_save_inv (Notebook.trace ns))
            (Notebook.finetune_epoch n_epochs eval_every epoch)
            (λ r ns', r = Ok tt →
               ∃ seg i m,
                 Notebook.trace ns' = Notebook.trace ns ++ seg ∧
                 epoch_saving finetuned_path seg ∧
                 Notebook.model ns' = Some (i, m) ∧
                 Notebook.files ns' !! finetuned_path = Some m)) as Hepoch.
  { unfold Notebook.finetune_epoch.
    eapply hoare_bind with (R := λ _, no_save_inv (Notebook.trace ns));
      [|intros ?|done].
    { apply batch_loop_invariant; [|apply train_batch_no_save].
      by intros ??. }
    eapply hoare_bind; [apply report_no_save|intros ?|done].
    intros st (new & Hnew & Hno). run_cell; try done.
    intros _. eexists (new ++ [Save _ _]), _, _. split_and!.
    - by rewrite Hnew, app_assoc.
    - by eexists new, _.
    - done.
    - apply lookup_insert_eq. }
  intros ns'. apply Hepoch, extends_by_refl.
Qed.

(** The loop of the fine-tuning cell. *)
Lemma finetune_loop_saves (n_epochs eval_every : Z) (ns : Notebook.t) :
  let c := for_each (py_range 0 n_epochs)
             (Notebook.finetune_epoch n_epochs eval_every) in
  (c ns).1 = Ok tt →
  ∃ segs, Notebook.trace (c ns).2 = Notebook.trace ns ++ concat segs ∧
          length segs = Z.to_nat n_epochs ∧
          Forall (epoch_saving finetuned_path) segs ∧
          (0 < n_epochs →
           ∃ i m, Notebook.model (c ns).2 = Some (i, m) ∧
                  Notebook.files (c ns).2 !! finetuned_path = Some m)%Z.
Proof.
  intros c Hok.
  pose (I := λ (k : nat) (st : Notebook.t),
    ∃ segs, Notebook.trace st = Notebook.trace ns ++ concat segs ∧
            length segs = k ∧
            Forall (epoch_saving finetuned_path) segs ∧
            (0 < k → ∃ i m, Notebook.model st = Some (i, m) ∧
                             Notebook.files st !! finetuned_path = Some m)).
  assert (∀ i epoch, py_range 0 n_epochs !! i = Some epoch →
            hoare (I i) (Notebook.finetune_epoch n_epochs eval_every epoch)
              (λ r st, match r with
                       | Ok _ => I (Datatypes.S i) st
                       | Raise _ => True
                       end)) as Hbody.
  { intros i epoch _ st HI.
    destruct HI as (segs & Htrace & Hlen & Hsegs & _).
    pose proof (finetune_epoch_saves n_epochs eval_every epoch st) as Hepoch.
    destruct (Notebook.finetune_epoch n_epochs eval_every epoch st) as [[[]|?] st'];
      [|done].
    destruct (Hepoch eq_refl) as (seg & j & m & Htrace' & Hseg & Hmodel & Hfile).
    simpl in *. exists (segs ++ [seg]). split_and!.
    + rewrite Htrace', Htrace, concat_app. simpl.
      by rewrite app_nil_r, app_assoc.
    + rewrite length_app. simpl. lia.
    + apply Forall_app. by split; [|constructor].
    + intros _. by exists j, m. }
  pose proof (for_each_count I (λ _, True) (py_range 0 n_epochs)
                (Notebook.finetune_epoch n_epochs eval_every) Hbody ns) as Hloop.
  fold c in Hloop. rewrite Hok in Hloop.
  destruct Hloop as (segs & Htrace & Hlen & Hsegs & Hfile).
  { exists []. simpl. rewrite app_nil_r. split_and!; try done. lia. }
  assert (length (py_range 0 n_epochs) = Z.to_nat n_epochs) as Hn.
  { unfold py_range. by rewrite length_seqZ, Z.sub_0_r. }
  rewrite Hn in Hlen, Hfile.
  exists segs. split_and!; try done. intros Hpos. apply Hfile. lia.
Qed.

End FineTuning.

(** ** Fine-tuning runs to its end *)

Lemma for_each_total {S A} (I : S → Prop) (l : list A) (body : A → M S unit) :
  (∀ x, x ∈ l → hoare I (body x) (λ r s, r = Ok tt ∧ I s)) →
  hoare I (for_each l body) (λ r s, r = Ok tt ∧ I s).
Proof.
  induction l as [|x l IH]; intros Hbody.
  - by intros s Hs.
  - simpl. eapply hoare_bind with (R := λ r s, r = Ok tt ∧ I s).
    + apply Hbody. left.
    + intros []. eapply hoare_weaken.
      * apply IH. intros y Hy. apply Hbody. by right.
      * by intros s [_ ?].
      * done.
    + by intros e s [? _].
Qed.

Lemma Forall_reshape {A} (P : A → Prop) (szs : list nat) (l : list A) :
  Forall P l → Forall (Forall P) (reshape szs l).
Proof.
  revert l. induction szs as [|n szs IH]; intros l Hl; simpl; [done|].
  constructor.
  - by apply Forall_take.
  - apply IH. by apply Forall_drop.
Qed.

Lemma DataLoader_iter_batches `{Generator} (input_size : Z) (dl : DataLoader.t) (s : nat) :
  data_shaped input_size dl →
  ∃ batches s', DataLoader.iter dl s = (Ok batches, s') ∧
    Forall (λ b : mat * list Z, rows_of input_size (length b.1) b.1) batches.
Proof.
  intros Hdata. unfold DataLoader.iter.
  destruct (if DataLoader.shuffle dl then _ else _) as [order s'].
  eexists _, _. split; [done|].
  apply Forall_fmap.
  eapply Forall_impl.
  - apply Forall_reshape with (P := λ rec : vec * Z, Z.of_nat (length rec.1) = input_size).
    apply Forall_forall. intros rec Hrec.
    apply list_elem_of_omap in Hrec as (i & _ & Hi).
    unfold data_shaped in Hdata. rewrite Forall_forall in Hdata.
    apply Hdata. by eapply list_elem_of_lookup_2.
  - intros b Hb. simpl. split; [done|]. by apply Forall_fmap.
Qed.

Lemma same_shape_rows (w : Z) (n : nat) (a b : mat) :
  rows_of w n a → rows_of w n b → same_shape a b = true.
Proof.
  intros [Hna Ha] [Hnb Hb]. unfold same_shape.
  apply andb_true_iff. split; [apply Nat.eqb_eq; congruence|].
  apply forallb_forall. intros [ra rb] Hin.
  apply list_elem_of_In in Hin.
  apply elem_of_zip_l in Hin as Hra. apply elem_of_zip_r in Hin as Hrb.
  rewrite Forall_forall in Ha, Hb. simpl in *.
  apply Nat.eqb_eq. specialize (Ha _ Hra). specialize (Hb _ Hrb). lia.
Qed.

Lemma MSELoss_rows `{Autograd} (w : Z) (n : nat) (a b : mat) :
  rows_of w n a → rows_of w n b → ∃ l, MSELoss a b = Ok l.
Proof.
  intros Ha Hb. unfold MSELoss. rewrite (same_shape_rows w n a b Ha Hb).
  destruct (zip_with _ _ _); eauto.
Qed.

Section Completion.
Context `{Generator} `{Autograd}.
Context (input_size : Z) (hl : list Z).
Context (Hlen : 2 ≤ length hl) (Hnonneg : Forall (λ w, (0 ≤ w)%Z) hl)
        (Hin : (0 ≤ input_size)%Z).

Lemma train_batch_total (d0 : bool) (x_batch : mat) :
  rows_of input_size (length x_batch) x_batch →
  hoare (λ ns, ready input_size hl ns ∧ Notebook.torch_models ns = d0)
    (Notebook.train_batch x_batch)
    (λ r ns, r = Ok tt ∧ ready input_size hl ns ∧ Notebook.torch_models ns = d0).
Proof.
  intros Hx ns
    [((i & m & Hmodel & Hshaped) & [o Ho] & [u Hu] & [ls Hls] & Hdata) Hdir].
  destruct (AutoEncoder_forward_shaped input_size hl m x_batch _ (Notebook.rng ns)
              Hlen Hnonneg Hin Hshaped Hx)
    as (enc & dec & s' & Hforward & _ & Hdec).
  destruct (MSELoss_rows _ _ _ _ Hdec Hx) as [l Hl].
  unfold ready. run_cell; simplify_eq; try congruence.
  - split; [done|]. split_and!; try done. eexists _, _. split; [done|].
    apply map_layers_shaped; [|done]. intros. by apply Linear_update_shaped.
  - split; [done|]. split_and!; try done. by eexists _, _.
Qed.

Lemma batch_loop_total (d0 : bool) :
  hoare (λ ns, ready input_size hl ns ∧ Notebook.torch_models ns = d0)
    Notebook.batch_loop
    (λ r ns, r = Ok tt ∧ ready input_size hl ns ∧ Notebook.torch_models ns = d0).
Proof.
  intros ns Hready. unfold Notebook.batch_loop.
  erewrite bind_ok by reflexivity.
  pose proof Hready as [(Hmodel & Hopt & Hcrit & Hlosses & Hdata) Hdir].
  destruct (DataLoader_iter_batches input_size (Notebook.dataloader ns)
              (Notebook.rng ns) Hdata) as (batches & s' & Hiter & Hbatches).
  erewrite bind_ok by (unfold Notebook.draw; rewrite Hiter; reflexivity).
  apply (for_each_total
           (λ ns, ready input_size hl ns ∧ Notebook.torch_models ns = d0));
    [|done].
  intros [x_batch y_batch] Hb. rewrite Forall_forall in Hbatches.
  apply train_batch_total. apply (Hbatches _ Hb).
Qed.

(** An epoch of fine-tuning ends normally where a pass over the data can
    run, the reporting interval is not zero and the directory of the
    checkpoints exists. *)
Lemma finetune_epoch_total (n_epochs eval_every epoch : Z) :
  eval_every ≠ 0%Z →
  hoare (λ ns, ready input_size hl ns ∧ Notebook.torch_models ns = true)
    (Notebook.finetune_epoch n_epochs eval_every epoch)
    (λ r ns, r = Ok tt ∧ ready input_size hl ns ∧ Notebook.torch_models ns = true).
Proof.
  intros Heval. unfold Notebook.finetune_epoch.
  eapply hoare_bind
    with (R := λ r ns, r = Ok tt ∧ ready input_size hl ns ∧
                       Notebook.torch_models ns = true);
    [apply batch_loop_total|intros ?|by intros ?? [? _]].
  intros ns [_ [((i & m & Hmodel & Hshaped) & Hopt & Hcrit & [ls Hls] & Hdata) Hdir]].
  apply Z.eqb_neq in Heval. unfold ready.
  run_cell; simplify_eq; try congruence.
  all: (split; [done|]); split_and!; try done; by eexists _, _.
Qed.

(** With a checkpoint of a model for the data, [loss_] and [losses] bound,
    the directory of the checkpoints in place and a reporting interval that
    is not zero, the fine-tuning cell ends normally. *)
Lemma finetune_cell_total (n_epochs eval_every : Z) (ns : Notebook.t) (m0 : AutoEncoder.t) :
  Notebook.files ns !! pretrained_path = Some m0 →
  model_shaped input_size hl m0 →
  data_shaped input_size (Notebook.dataloader ns) →
  is_Some (Notebook.loss_ ns) →
  is_Some (Notebook.losses ns) →
  Notebook.torch_models ns = true →
  eval_every ≠ 0%Z →
  (Notebook.finetune_cell n_epochs eval_every ns).1 = Ok tt.
Proof.
  intros Hfile Hshaped Hdata Hcrit Hlosses Hdir Heval. unfold Notebook.finetune_cell.
  erewrite bind_ok by (by apply load_model_present).
  cbv beta iota.
  unfold mbind, M_bind, modify, Notebook.new_id. cbn [fst snd].
  match goal with |- (for_each ?l ?body ?st).1 = _ =>
    destruct (for_each_total
                (λ ns, ready input_size hl ns ∧ Notebook.torch_models ns = true)
                l body (λ x _, finetune_epoch_total _ _ x Heval) st) as [Hok _]
  end; [|done].
  split; [|done]. split_and!; try done.
  eexists _, _. split; [done|]. by apply train_shaped.
Qed.

End Completion.

(** ** Invariants of the pre-training cell *)

Section PreTraining.
Context `{Generator} `{Autograd}.

(** An invariant of the steps of an epoch that does not depend on the
    variables the cell itself assigns is an invariant of the cell. *)
Lemma pretrain_cell_invariant (J : Notebook.t → Prop) :
  (∀ ns v, J ns → J (Notebook.set_losses v ns)) →
  (∀ ns v, J ns → J (Notebook.set_best_loss v ns)) →
  (∀ ns s, J ns → J (Notebook.set_rng s ns)) →
  (∀ x_batch, hoare J (Notebook.train_batch x_batch) (λ _, J)) →
  (∀ epoch n_epochs eval_every,
     hoare J (Notebook.report epoch n_epochs eval_every) (λ _, J)) →
  hoare J Notebook.scheduler_step (λ _, J) →
  (∀ path, hoare J (Notebook.torch_save path) (λ _, J)) →
  ∀ n_epochs eval_every,
    hoare J (Notebook.pretrain_cell n_epochs eval_every) (λ _, J).
Proof.
  intros Hlosses Hbest Hrng Hbatch Hreport Hsched Hsave n_epochs eval_every.
  unfold Notebook.pretrain_cell.
  eapply hoare_bind with (R := λ _, J); [|intros ?|done].
  { intros ns Hns. by apply Hbest. }
  apply for_each_invariant. intros epoch _. unfold Notebook.pretrain_epoch.
  eapply hoare_bind with (R := λ _, J); [|intros ?|done].
  { intros ns Hns. by apply Hlosses. }
  eapply hoare_bind with (R := λ _, J); [by apply batch_loop_invariant|intros ?|done].
  eapply hoare_bind with (R := λ _, J); [apply Hreport|intros mean_loss|done].
  eapply hoare_bind with (R := λ _, J); [apply Hsched|intros ?|done].
  eapply hoare_bind with (R := λ _, J); [|intros best_loss|done].
  { intros ns Hns. by run_cell. }
  destruct (Scalar.float_ltb mean_loss best_loss).
  - eapply hoare_bind with (R := λ _, J); [|intros l|done].
    { intros ns Hns. by run_cell. }
    eapply hoare_bind with (R := λ _, J); [|intros ?|done].
    { intros ns Hns. by apply Hbest. }
    apply Hsave.
  - by intros ns Hns.
Qed.

Ltac close_models HP Hmodel Hfiles :=
  same_reads; simplify_eq; split;
  first
    [ by (intros ? ? ?; simplify_eq; eapply Hmodel)
    | by (intros ? ? ?; simplify_eq; apply HP; by eapply Hmodel)
    | done
    | by (intros path' m' Hlookup;
          apply lookup_insert_Some in Hlookup as [[_ <-]|[_ Hlookup]];
          [eapply Hmodel | eapply Hfiles]) ].

Lemma pretrain_cell_models (P : AutoEncoder.t → Prop) (n_epochs eval_every : Z) :
  update_stable P →
  hoare (models_inv P) (Notebook.pretrain_cell n_epochs eval_every)
    (λ _, models_inv P).
Proof.
  intros HP. apply pretrain_cell_invariant.
  - by intros ns v [??].
  - by intros ns v [??].
  - by intros ns s [??].
  - intros x ns [Hmodel Hfiles]. unfold models_inv. run_cell.
    all: close_models HP Hmodel Hfiles.
  - intros epoch n e ns [Hmodel Hfiles]. unfold models_inv. run_cell.
    all: close_models HP Hmodel Hfiles.
  - intros ns [Hmodel Hfiles]. unfold models_inv. run_cell.
    all: close_models HP Hmodel Hfiles.
  - intros path ns [Hmodel Hfiles]. unfold models_inv. run_cell.
    all: close_models HP Hmodel Hfiles.
Qed.

Lemma model_shaped_stable (input_size : Z) (hl : list Z) :
  update_stable (model_shaped input_size hl).
Proof.
  intros fw fb m Hm. apply map_layers_shaped; [|done].
  intros. by apply Linear_update_shaped.
Qed.

Lemma in_mode_stable (b : bool) : update_stable (in_mode b).
Proof. intros fw fb m Hm. exact Hm. Qed.

(** The kernel after the model was created and pre-trained, from a kernel
    without files: every checkpoint holds a model over the widths given,
    in training mode. *)
Lemma pretrained_files (input_size : Z) (hl : list Z) (p : Q)
    (n_epochs eval_every : Z) (ns : Notebook.t) :
  hl ≠ [] → Forall (λ w, (0 ≤ w)%Z) hl → (0 ≤ input_size)%Z → valid_rate p →
  Notebook.files ns = ∅ →
  ∀ path m,
    Notebook.files ((Notebook.create_model_cell input_size hl p;;
                     Notebook.pretrain_cell n_epochs eval_every) ns).2
      !! path = Some m →
    model_shaped input_size hl m ∧ in_mode true m.
Proof.
  intros Hne Hnonneg Hin Hp Hfiles.
  destruct (AutoEncoder_init_shaped input_size hl p ReLU (Notebook.rng ns))
    as (m0 & s' & Hinit & Hshaped & _); [done..|].
  erewrite bind_ok.
  2:{ unfold Notebook.create_model_cell.
      erewrite bind_ok by reflexivity. erewrite bind_ok.
      2:{ unfold Notebook.draw. cbn [Notebook.rng Notebook.set_loss_].
          rewrite Hinit. reflexivity. }
      reflexivity. }
  apply (pretrain_cell_models (λ m, model_shaped input_size hl m ∧ in_mode true m)).
  - intros fw fb m [Hm1 Hm2]. split; [by apply model_shaped_stable|done].
  - split.
    + intros i m [= <- <-]. split; [by apply train_shaped|apply train_mode].
    + intros path m. cbn. rewrite Hfiles. by rewrite lookup_empty.
Qed.

End PreTraining.

(** ** The checkpoint of an epoch of pre-training *)

Section BestLoss.
Context `{Generator} `{Autograd}.

(** What an epoch of pre-training that ends normally does at its end: the
    checkpoint is written exactly when the rounded mean of the epoch's batch
    losses is below the value of [best_loss], and [best_loss] then becomes
    the value of [loss], the loss of the last batch. *)
Lemma pretrain_epoch_checkpoint (n_epochs eval_every epoch : Z)
    (b0 : option Scalar.float) (f0 : gmap string AutoEncoder.t) :
  hoare (λ st, Notebook.best_loss st = b0 ∧ Notebook.files st = f0)
    (Notebook.pretrain_epoch n_epochs eval_every epoch)
    (λ r st', r = Ok tt →
       ∃ ls best,
         Notebook.losses st' = Some ls ∧
         Notebook.mean_loss st' = Some (Scalar.np_round (Scalar.np_mean ls) 5) ∧
         b0 = Some best ∧
         if Scalar.float_ltb (Scalar.np_round (Scalar.np_mean ls) 5) best
         then Notebook.best_loss st' = Notebook.loss st' ∧
              ∃ i m, Notebook.model st' = Some (i, m) ∧
                     Notebook.files st' = <[pretrained_path := m]> f0
         else Notebook.best_loss st' = Some best ∧ Notebook.files st' = f0).
Proof.
  unfold Notebook.pretrain_epoch.
  pose (J := λ st : Notebook.t, Notebook.best_loss st = b0 ∧ Notebook.files st = f0).
  eapply hoare_bind with (R := λ _, J); [by intros st [??]|intros ?|done].
  eapply hoare_bind with (R := λ _, J); [|intros ?|done].
  { apply batch_loop_invariant; [by intros st s [??]|].
    intros x st [Hb Hf]. unfold J. run_cell; by split. }
  intros st [Hb Hf]. run_cell; same_reads; try done.
  all: intros _; eexists _, _; split_and!; try done.
  all: match goal with Hlt : Scalar.float_ltb _ _ = _ |- _ => rewrite Hlt end.
  all: first [done | split; [done|]; by eexists _, _].
Qed.

End BestLoss.

Section FineTuningCell.
Context `{Generator} `{Autograd}.

Lemma finetune_cell_unfold (n_epochs eval_every : Z) (ns : Notebook.t)
    (m0 : AutoEncoder.t) :
  Notebook.files ns !! pretrained_path = Some m0 →
  Notebook.finetune_cell n_epochs eval_every ns
  = for_each (py_range 0 n_epochs) (Notebook.finetune_epoch n_epochs eval_every)
      (finetune_start ns m0).
Proof.
  intros Hfile. unfold Notebook.finetune_cell.
  erewrite bind_ok by (by apply load_model_present). reflexivity.
Qed.

(** The rate, the scheduler and the checkpoints of the fine-tuning cell,
    and when it ends normally. *)
Lemma finetune_cell_rate_and_saves (n_epochs eval_every : Z)
    (ns : Notebook.t) :
  let r := (Notebook.finetune_cell n_epochs eval_every ns).1 in
  let ns' := (Notebook.finetune_cell n_epochs eval_every ns).2 in
  extends_by (step_at (1 # 10)) (Notebook.trace ns) (Notebook.trace ns') ∧
  Notebook.scheduler ns' = Notebook.scheduler ns ∧
  (is_Some (Notebook.files ns !! pretrained_path) →
   ∃ o, Notebook.optimizer ns' = Some o ∧ SGD.lr o = 1 # 10) ∧
  (r = Ok tt →
   ∃ segs,
     Notebook.trace ns' = Notebook.trace ns ++ concat segs ∧
     length segs = Z.to_nat n_epochs ∧
     Forall (epoch_saving finetuned_path) segs ∧
     ((0 < n_epochs)%Z →
      ∃ i m, Notebook.model ns' = Some (i, m) ∧
             Notebook.files ns' !! finetuned_path = Some m)) ∧
  (∀ input_size hl m0,
     Notebook.files ns !! pretrained_path = Some m0 →
     model_shaped input_size hl m0 →
     2 ≤ length hl → Forall (λ w, (0 ≤ w)%Z) hl → (0 ≤ input_size)%Z →
     data_shaped input_size (Notebook.dataloader ns) →
     is_Some (Notebook.loss_ ns) →
     is_Some (Notebook.losses ns) →
     Notebook.torch_models ns = true →
     eval_every ≠ 0%Z →
     r = Ok tt).
Proof.
  intros r ns'. subst r ns'.
  destruct (Notebook.files ns !! pretrained_path) as [m0|] eqn:Hfile.
  - rewrite (finetune_cell_unfold _ _ _ m0 Hfile).
    pose proof (for_each_invariant
      (rate_inv (1 # 10) (Notebook.scheduler ns) (Notebook.trace ns))
      (py_range 0 n_epochs) (Notebook.finetune_epoch n_epochs eval_every)
      (λ x _, finetune_epoch_rate _ _ _ _ _ x) (finetune_start ns m0))
      as (Hopt & Hsch & Hsteps).
    { split_and!; [by intros o [= <-]|done|apply extends_by_refl]. }
    assert (is_Some (Notebook.optimizer
      (for_each (py_range 0 n_epochs) (Notebook.finetune_epoch n_epochs eval_every)
         (finetune_start ns m0)).2)) as [o Ho].
    { pose proof (for_each_invariant (λ st, is_Some (Notebook.optimizer st))
        (py_range 0 n_epochs) (Notebook.finetune_epoch n_epochs eval_every))
        as Hkeep.
      apply Hkeep; [|done]. intros epoch _.
      unfold Notebook.finetune_epoch.
      eapply hoare_bind with (R := λ _ st, is_Some (Notebook.optimizer st));
        [|intros ?|done].
      { apply batch_loop_invariant; [done|].
        intros x st Hst. run_cell; done. }
      eapply hoare_bind with (R := λ _ st, is_Some (Notebook.optimizer st));
        [|intros ?|done].
      { intros st Hst. run_cell; done. }
      intros st Hst. run_cell; done. }
    split_and!; try done.
    + intros _. exists o. split; [done|]. by apply Hopt.
    + intros Hok. by apply (finetune_loop_saves n_epochs eval_every (finetune_start ns m0)).
    + intros input_size hl m1 [= <-] Hshaped Hlen Hnonneg Hin Hdata Hcrit Hlosses
        Hdir Heval.
      rewrite <- (finetune_cell_unfold _ _ _ m0 Hfile).
      by eapply finetune_cell_total.
  - unfold Notebook.finetune_cell.
    rewrite (bind_raise _ _ _ _ _ (load_model_absent _ _ Hfile)). simpl.
    split_and!; first [done | apply extends_by_refl | by intros [??]].
Qed.

(** C8: the fine-tuning cell creates its optimizer with the rate 0.1 and
    never steps a scheduler, so that every optimizer step of every epoch is
    made at the rate 0.1 and the scheduler is left as it was; and an epoch
    ends by writing the checkpoint, with no test before it: when the cell
    ends normally its trace is one segment for each epoch, each ending with
    the write of the fine-tuned checkpoint, which then holds the model as it
    is.  The cell does end normally when the pre-trained checkpoint holds a
    model for the records of the data, [loss_] and [losses] are bound, the
    directory of the checkpoints exists and the reporting interval is not
    zero.  An epoch of pre-training, unlike that, writes its
    checkpoint behind a test: the files change exactly when the rounded mean
    of the epoch's losses is below the value of [best_loss]. *)
Theorem finetune_fixed_rate_saves_every_epoch (n_epochs eval_every : Z)
    (ns : Notebook.t) :
  let r := (Notebook.finetune_cell n_epochs eval_every ns).1 in
  let ns' := (Notebook.finetune_cell n_epochs eval_every ns).2 in
  extends_by (step_at (1 # 10)) (Notebook.trace ns) (Notebook.trace ns') ∧
  Notebook.scheduler ns' = Notebook.scheduler ns ∧
  (is_Some (Notebook.files ns !! pretrained_path) →
   ∃ o, Notebook.optimizer ns' = Some o ∧ SGD.lr o = 1 # 10) ∧
  (r = Ok tt →
   ∃ segs,
     Notebook.trace ns' = Notebook.trace ns ++ concat segs ∧
     length segs = Z.to_nat n_epochs ∧
     Forall (epoch_saving finetuned_path) segs ∧
     ((0 < n_epochs)%Z →
      ∃ i m, Notebook.model ns' = Some (i, m) ∧
             Notebook.files ns' !! finetuned_path = Some m)) ∧
  (∀ input_size hl m0,
     Notebook.files ns !! pretrained_path = Some m0 →
     model_shaped input_size hl m0 →
     2 ≤ length hl → Forall (λ w, (0 ≤ w)%Z) hl → (0 ≤ input_size)%Z →
     data_shaped input_size (Notebook.dataloader ns) →
     is_Some (Notebook.loss_ ns) →
     is_Some (Notebook.losses ns) →
     Notebook.torch_models ns = true →
     eval_every ≠ 0%Z →
     r = Ok tt) ∧
  (∀ epoch st,
     (Notebook.pretrain_epoch n_epochs eval_every epoch st).1 = Ok tt →
     ∃ ls best,
       Notebook.losses (Notebook.pretrain_epoch n_epochs eval_every epoch st).2
       = Some ls ∧
       Notebook.best_loss st = Some best ∧
       if Scalar.float_ltb (Scalar.np_round (Scalar.np_mean ls) 5) best
       then ∃ i m,
         Notebook.model (Notebook.pretrain_epoch n_epochs eval_every epoch st).2
         = Some (i, m) ∧
         Notebook.files (Notebook.pretrain_epoch n_epochs eval_every epoch st).2
         = <[pretrained_path := m]> (Notebook.files st)
       else
         Notebook.files (Notebook.pretrain_epoch n_epochs eval_every epoch st).2
         = Notebook.files st).
Proof.
  intros r ns'.
  destruct (finetune_cell_rate_and_saves n_epochs eval_every ns)
    as (Hsteps & Hsch & Hopt & Hsaves & Htotal).
  split; [exact Hsteps|]. split; [exact Hsch|]. split; [exact Hopt|].
  split; [exact Hsaves|]. split; [exact Htotal|].
  intros epoch st Hok.
  destruct (pretrain_epoch_checkpoint n_epochs eval_every epoch
              (Notebook.best_loss st) (Notebook.files st) st (conj eq_refl eq_refl) Hok)
    as (ls & best & Hls & _ & Hbest & Hcases).
  exists ls, best. split; [exact Hls|]. split; [exact Hbest|].
  destruct (Scalar.float_ltb _ best); [exact (proj2 Hcases)|exact (proj2 Hcases)].
Qed.

End FineTuningCell.

(** The pre-trained kernel of the examples, as the run that leaves it. *)
Lemma pretrained_unfold (n : Z) :
  Toy.pretrained n
  = ((@Notebook.create_model_cell Toy.zeros Toy.backend 1 [1; 1]%Z (1 # 5);;
      @Notebook.pretrain_cell Toy.zeros Toy.backend n 1)
       (@Toy.fresh_kernel Toy.backend Toy.two_records)).2.
Proof. reflexivity. Qed.

Lemma pretrained_checkpoint_shaped (n : Z) (path : string) (m : AutoEncoder.t) :
  Notebook.files (Toy.pretrained n) !! path = Some m → model_shaped 1 [1; 1]%Z m.
Proof.
  intros Hfile. rewrite pretrained_unfold in Hfile.
  apply (@pretrained_files Toy.zeros Toy.backend 1 [1; 1]%Z (1 # 5) n 1
           (@Toy.fresh_kernel Toy.backend Toy.two_records)
           ltac:(discriminate) ltac:(repeat constructor; lia) ltac:(lia)
           ltac:(split; reflexivity) eq_refl path m Hfile).
Qed.

(** The theorem at work: two epochs of fine-tuning after one epoch of
    pre-training. *)
Lemma finetune_fixed_rate_saves_every_epoch_witness :
  (@Notebook.finetune_cell Toy.zeros Toy.backend 2 1 (Toy.pretrained 1)).1 = Ok tt ∧
  Toy.steps (Notebook.trace
    (@Notebook.finetune_cell Toy.zeros Toy.backend 2 1 (Toy.pretrained 1)).2)
  = [1 # 10; 1 # 10; 1 # 10; 1 # 10; 1 # 10; 1 # 10] ∧
  Toy.saves (Notebook.trace
    (@Notebook.finetune_cell Toy.zeros Toy.backend 2 1 (Toy.pretrained 1)).2)
  = [pretrained_path; finetuned_path; finetuned_path] ∧
  ∃ segs,
    Notebook.trace
      (@Notebook.finetune_cell Toy.zeros Toy.backend 2 1 (Toy.pretrained 1)).2
    = Notebook.trace (Toy.pretrained 1) ++ concat segs ∧
    length segs = 2 ∧
    Forall (epoch_saving finetuned_path) segs.
Proof.
  destruct (@finetune_fixed_rate_saves_every_epoch Toy.zeros Toy.backend 2 1
              (Toy.pretrained 1)) as (_ & _ & _ & Hsaves & Htotal & _).
  assert ((@Notebook.finetune_cell Toy.zeros Toy.backend 2 1 (Toy.pretrained 1)).1
          = Ok tt) as Hok.
  { destruct (Notebook.files (Toy.pretrained 1) !! pretrained_path) as [m0|] eqn:Hfile;
      [|vm_compute in Hfile; discriminate].
    apply (Htotal 1%Z [1; 1]%Z m0).
    - reflexivity.
    - exact (pretrained_checkpoint_shaped 1 pretrained_path m0 Hfile).
    - simpl. lia.
    - repeat constructor; lia.
    - lia.
    - vm_compute. repeat constructor.
    - vm_compute. eauto.
    - vm_compute. eauto.
    - reflexivity.
    - discriminate. }
  split; [exact Hok|].
  split; [vm_compute; reflexivity|]. split; [vm_compute; reflexivity|].
  destruct (Hsaves Hok) as (segs & Htrace & Hlen & Hsegs & _).
  exists segs. split; [exact Htrace|]. split; [exact Hlen|exact Hsegs].
Defined.

(** ** The best loss of pre-training (claim C1) *)

(** C1, the code at work.  A model over the widths [[1; 1]] is pre-trained
    on the records 3 and 1 in batches of one.  The first epoch has the batch
    losses 9 and 0.16 and the mean 4.58; its checkpoint is written and
    [best_loss] becomes 0.16, the loss of its last batch, not 4.58.  The
    second epoch has the mean 2.22718, below the mean of the first, and
    writes no checkpoint: the file is still the one of the first epoch. *)
Theorem pretrain_best_loss_is_last_batch_loss :
  Notebook.losses (Toy.pretrained 1)
  = Some [Scalar.Finite 9; Scalar.Finite (4 # 25)] ∧
  Notebook.mean_loss (Toy.pretrained 1) = Some (Scalar.Finite (229 # 50)) ∧
  Notebook.best_loss (Toy.pretrained 1) = Some (Scalar.Finite (4 # 25)) ∧
  Toy.saves (Notebook.trace (Toy.pretrained 1)) = [pretrained_path] ∧
  Notebook.mean_loss (Toy.pretrained 2) = Some (Scalar.Finite (111359 # 50000)) ∧
  Scalar.float_ltb (Scalar.Finite (111359 # 50000)) (Scalar.Finite (229 # 50)) = true ∧
  Notebook.best_loss (Toy.pretrained 2) = Some (Scalar.Finite (4 # 25)) ∧
  Toy.saves (Notebook.trace (Toy.pretrained 2)) = [pretrained_path] ∧
  Notebook.files (Toy.pretrained 2) = Notebook.files (Toy.pretrained 1).
Proof. split_and!; vm_compute; reflexivity. Qed.

(** ** The losses of fine-tuning (claim C2) *)

Section Losses.
Context `{Generator} `{Autograd}.

(** The fine-tuning cell never assigns [losses]: the list it finds keeps
    growing, and every mean it reports is the mean of that list and all the
    batch losses since. *)
Lemma finetune_reports_all_losses (n_epochs eval_every : Z) (ns : Notebook.t)
    (ls0 : list Scalar.float) :
  Notebook.losses ns = Some ls0 →
  (∃ new, Notebook.losses (Notebook.finetune_cell n_epochs eval_every ns).2
          = Some (ls0 ++ new)) ∧
  extends_by
    (λ e, ∀ epoch n mean, e = Print epoch n mean →
       ∃ new, mean = Scalar.np_round (Scalar.np_mean (ls0 ++ new)) 5)
    (Notebook.trace ns)
    (Notebook.trace (Notebook.finetune_cell n_epochs eval_every ns).2).
Proof.
  intros Hls.
  pose (P := λ e, ∀ epoch n mean, e = Print epoch n mean →
                ∃ new, mean = Scalar.np_round (Scalar.np_mean (ls0 ++ new)) 5).
  pose (K := λ st : Notebook.t,
    (∃ new, Notebook.losses st = Some (ls0 ++ new)) ∧
    extends_by P (Notebook.trace ns) (Notebook.trace st)).
  assert (∀ epoch, hoare K (Notebook.finetune_epoch n_epochs eval_every epoch)
                     (λ _, K)) as Hepoch.
  { intros epoch. unfold Notebook.finetune_epoch.
    eapply hoare_bind with (R := λ _, K); [|intros ?|done].
    { apply batch_loop_invariant; [by intros st s [??]|].
      intros x st [[new Hnew] Htrace]. unfold K. run_cell; same_reads.
      all: split;
        [ first [ by exists new
                | eexists (new ++ [_]); by rewrite app_assoc ]
        | repeat (apply extends_by_snoc; [|by intros ??? [=]]); done ]. }
    eapply hoare_bind with (R := λ _, K); [|intros ?|done].
    { intros st [[new Hnew] Htrace]. unfold K. run_cell; same_reads.
      all: split; [by exists new|]; try done.
      apply extends_by_snoc; [done|]. intros ??? [= _ _ <-]. by exists new. }
    intros st [[new Hnew] Htrace]. unfold K. run_cell; same_reads.
    all: split; [by exists new|]; try done.
    apply extends_by_snoc; [done|]. by intros ??? [=]. }
  destruct (Notebook.files ns !! pretrained_path) as [m0|] eqn:Hfile.
  - rewrite (finetune_cell_unfold _ _ _ m0 Hfile).
    apply (for_each_invariant K _ _ (λ x _, Hepoch x)).
    split; [exists []; by rewrite app_nil_r|apply extends_by_refl].
  - unfold Notebook.finetune_cell.
    rewrite (bind_raise _ _ _ _ _ (load_model_absent _ _ Hfile)). simpl.
    split; [exists []; by rewrite app_nil_r|apply extends_by_refl].
Qed.

End Losses.

(** C2, the code at work.  After one epoch of pre-training, whose batch
    losses 9 and 0.16 are still in [losses], one epoch of fine-tuning has the
    batch losses 3.1684 and 0.331776.  The mean it reports is 3.16504, the
    mean of the four, where the mean of its own two is 1.75009. *)
Theorem finetune_mean_includes_pretraining_losses :
  Notebook.losses (Toy.pretrained 1)
  = Some [Scalar.Finite 9; Scalar.Finite (4 # 25)] ∧
  Notebook.losses
    (@Notebook.finetune_cell Toy.zeros Toy.backend 1 1 (Toy.pretrained 1)).2
  = Some [Scalar.Finite 9; Scalar.Finite (4 # 25);
          Scalar.Finite (7921 # 2500); Scalar.Finite (5184 # 15625)] ∧
  Toy.prints (Notebook.trace
    (@Notebook.finetune_cell Toy.zeros Toy.backend 1 1 (Toy.pretrained 1)).2)
  = [(1, 1, Scalar.Finite (229 # 50)); (1, 1, Scalar.Finite (39563 # 12500))]%Z ∧
  Scalar.np_round
    (Scalar.np_mean [Scalar.Finite (7921 # 2500); Scalar.Finite (5184 # 15625)]) 5
  = Scalar.Finite (175009 # 100000) ∧
  Scalar.np_round
    (Scalar.np_mean [Scalar.Finite 9; Scalar.Finite (4 # 25);
                     Scalar.Finite (7921 # 2500); Scalar.Finite (5184 # 15625)]) 5
  = Scalar.Finite (39563 # 12500).
Proof. split_and!; vm_compute; reflexivity. Qed.

(** ** The evaluation cells (claim C5) *)

Section Evaluation.
Context `{Generator} `{Autograd}.

(** An evaluation cell runs the model exactly as the file holds it, in the
    mode it was saved in, and the pass draws from the generator where the
    kernel has left it: nothing between the load and the pass touches the
    training flags. *)
Lemma evaluate_cell_forward (path : string) (X : mat) (ns : Notebook.t)
    (m : AutoEncoder.t) (embedded decoded : mat) (s' : nat) :
  Notebook.files ns !! path = Some m →
  AutoEncoder.forward m X (Notebook.rng ns) = (Ok (embedded, decoded), s') →
  (Notebook.evaluate_cell path X ns).1 = Ok embedded ∧
  Notebook.model (Notebook.evaluate_cell path X ns).2 = Some (Notebook.fresh ns, m) ∧
  Notebook.trace (Notebook.evaluate_cell path X ns).2
  = Notebook.trace ns ++ [Forward m] ∧
  Notebook.rng (Notebook.evaluate_cell path X ns).2 = s' ∧
  Notebook.files (Notebook.evaluate_cell path X ns).2 = Notebook.files ns.
Proof.
  intros Hfile Hforward. unfold Notebook.evaluate_cell.
  erewrite bind_ok; [|by apply load_model_present].
  cbv beta iota. unfold Notebook.log, Notebook.draw, mbind, M_bind, modify.
  cbn [fst snd Notebook.rng Notebook.set_trace Notebook.set_model
       Notebook.set_fresh].
  rewrite Hforward. done.
Qed.

End Evaluation.

(** C5, the code at work.  A model over the widths [[1; 1; 1]] with a
    dropout rate of one half is pre-trained for one epoch; its checkpoint is
    in training mode.  The evaluation cell is run twice on the record 1: both
    runs load the same model from the same file and none switches it to
    evaluation mode, the first gives the embedding 7 and the second the
    embedding 1. *)
Theorem evaluation_of_pretrained_checkpoint_depends_on_dropout :
  AutoEncoder.training
    <$> Notebook.files Toy.pretrained_dropout !! pretrained_path = Some true ∧
  (Dropout.training ∘ Encoder.dropout ∘ AutoEncoder.encoder)
    <$> Notebook.files Toy.pretrained_dropout !! pretrained_path = Some true ∧
  (@Notebook.evaluate_cell Toy.ones Toy.backend_ones pretrained_path [[1%Q]]
     Toy.pretrained_dropout).1 = Ok [[7%Q]] ∧
  (@Notebook.evaluate_cell Toy.ones Toy.backend_ones pretrained_path [[1%Q]]
     (@Notebook.evaluate_cell Toy.ones Toy.backend_ones pretrained_path [[1%Q]]
        Toy.pretrained_dropout).2).1 = Ok [[1%Q]] ∧
  snd <$> Notebook.model
    (@Notebook.evaluate_cell Toy.ones Toy.backend_ones pretrained_path [[1%Q]]
       Toy.pretrained_dropout).2
  = Notebook.files Toy.pretrained_dropout !! pretrained_path ∧
  snd <$> Notebook.model
    (@Notebook.evaluate_cell Toy.ones Toy.backend_ones pretrained_path [[1%Q]]
       (@Notebook.evaluate_cell Toy.ones Toy.backend_ones pretrained_path [[1%Q]]
          Toy.pretrained_dropout).2).2
  = Notebook.files Toy.pretrained_dropout !! pretrained_path.
Proof. split_and!; vm_compute; reflexivity. Qed.

(** ** Evaluation mode

    A model all of whose flags are off does not draw: its pass leaves the
    generator where it was and gives the same result from every position.
    This is the mode in which the fine-tuning cell saves its checkpoints. *)

Lemma pure_at_lift {A} (r : result A) : pure_at (lift r).
Proof. by intros s. Qed.

Lemma pure_at_ret {A} (a : A) : pure_at (mret a : M nat A).
Proof. by intros s. Qed.

Lemma pure_at_bind {A B} (c : M nat A) (k : A → M nat B) :
  pure_at c → (∀ a, pure_at (k a)) → pure_at (c ≫= k).
Proof.
  intros Hc Hk s. unfold mbind, M_bind. rewrite (Hc s).
  destruct (c 0) as [[a|e] s0]; simpl; [|done].
  by rewrite (Hk a s), (Hk a s0).
Qed.

Lemma pure_at_for_fold {A B} (l : list A) (body : B → A → M nat B) (acc : B) :
  (∀ b a, pure_at (body b a)) → pure_at (for_fold l body acc).
Proof.
  intros Hbody. revert acc. induction l as [|x l IH]; intros acc.
  - apply pure_at_ret.
  - cbn [for_fold]. apply pure_at_bind; [apply Hbody|apply IH].
Qed.

Lemma Dropout_forward_pure `{Generator} (d : Dropout.t) (x : mat) :
  Dropout.training d = false → pure_at (Dropout.forward d x).
Proof. intros Hd s. by rewrite !Dropout_forward_eval. Qed.

Lemma Encoder_forward_pure `{Generator} (e : Encoder.t) (x : mat) :
  Dropout.training (Encoder.dropout e) = false → pure_at (Encoder.forward e x).
Proof.
  intros Hd. unfold Encoder.forward.
  apply pure_at_bind; [apply pure_at_lift|intros x1].
  apply pure_at_bind.
  { apply pure_at_for_fold. intros b a.
    apply pure_at_bind; [apply pure_at_lift|intros l].
    apply pure_at_bind; [apply pure_at_lift|intros x2].
    by apply Dropout_forward_pure. }
  intros x3. apply pure_at_bind; [apply pure_at_lift|intros l].
  apply pure_at_lift.
Qed.

Lemma Decoder_forward_pure `{Generator} (d : Decoder.t) (x : mat) :
  Dropout.training (Decoder.dropout d) = false → pure_at (Decoder.forward d x).
Proof.
  intros Hd. unfold Decoder.forward.
  apply pure_at_bind.
  { apply pure_at_for_fold. intros b a.
    apply pure_at_bind; [apply pure_at_lift|intros l].
    apply pure_at_bind; [apply pure_at_lift|intros x2].
    by apply Dropout_forward_pure. }
  intros x3. apply pure_at_lift.
Qed.

(** In evaluation mode the pass is a function of the parameters and of the
    input alone. *)
Lemma AutoEncoder_forward_eval `{Generator} (m : AutoEncoder.t) (x : mat) :
  in_mode false m → pure_at (AutoEncoder.forward m x).
Proof.
  intros (_ & _ & He & _ & Hd). unfold AutoEncoder.forward.
  apply pure_at_bind; [by apply Encoder_forward_pure|intros encoded].
  apply pure_at_bind; [by apply Decoder_forward_pure|intros decoded].
  apply pure_at_ret.
Qed.

(** An evaluation cell on a checkpoint that was saved in evaluation mode
    gives the same embedding whatever the kernel has drawn before. *)
Lemma evaluate_cell_eval `{Generator} `{Autograd} (path : string) (X : mat)
    (ns1 ns2 : Notebook.t) (m : AutoEncoder.t) :
  Notebook.files ns1 !! path = Some m → Notebook.files ns2 !! path = Some m →
  in_mode false m →
  (Notebook.evaluate_cell path X ns1).1 = (Notebook.evaluate_cell path X ns2).1.
Proof.
  intros Hfile1 Hfile2 Hmode. unfold Notebook.evaluate_cell.
  erewrite !bind_ok; [|by apply load_model_present..].
  cbv beta iota. unfold Notebook.log, Notebook.draw, mbind, M_bind, modify.
  cbn [fst snd Notebook.rng Notebook.set_trace Notebook.set_model
       Notebook.set_fresh].
  rewrite (AutoEncoder_forward_eval m X Hmode (Notebook.rng ns1)).
  rewrite (AutoEncoder_forward_eval m X Hmode (Notebook.rng ns2)).
  by destruct (AutoEncoder.forward m X 0).1 as [[??]|?].
Qed.

(** * Further properties of the classes *)

(** ** A schedule of one width *)

Lemma dense_name_minus_one : dense_name (-1) = "dense_-1".
Proof. reflexivity. Qed.

(** An encoder without dense layers: [forward] applies the input layer and
    then looks up the attribute [dense_-1], which no constructor sets. *)
Lemma Encoder_forward_no_layers `{Generator} (e : Encoder.t) (x : mat) (r : nat) :
  Encoder.n_layers e = 0%Z → Encoder.dense e !! dense_name (-1) = None →
  ∃ err, Encoder.forward e x r = (Raise err, r) ∧
         (is_ok (Linear.forward (Encoder.input_layer e) x) = true →
          err = AttributeError "dense_-1").
Proof.
  intros Hn Hdense. unfold Encoder.forward.
  destruct (Linear.forward (Encoder.input_layer e) x) as [y|err] eqn:Hin.
  - exists (AttributeError "dense_-1"). split; [|done].
    erewrite lift_ok by done. rewrite Hn.
    change (py_range 0 (0 - 1)) with (@nil Z). cbn [for_fold].
    erewrite bind_ok by reflexivity.
    erewrite lift_raise; [done|].
    unfold getattr_dense.
    change (0 - 1)%Z with (-1)%Z. by rewrite Hdense.
  - exists err. split; [|done]. by erewrite lift_raise.
Qed.

(** X1: an encoder over a single width is constructed, with no dense layer,
    and cannot be applied.  On rows of the input size its [forward] raises
    [AttributeError] for the attribute [dense_-1], and on no input at all
    does it, or the auto-encoder around it, return a value; the generator is
    left where it was. *)
Theorem Encoder_forward_single_width `{Generator} (input_size h : Z) (p : Q)
    (act : mat → mat) (s : nat) :
  (∀ e s', Encoder.init input_size [h] p act s = (Ok e, s') →
     (∀ x r, ∃ err, Encoder.forward e x r = (Raise err, r)) ∧
     (∀ x n r, rows_of input_size n x →
        Encoder.forward e x r = (Raise (AttributeError "dense_-1"), r))) ∧
  (∀ m s', AutoEncoder.init input_size [h] p act s = (Ok m, s') →
     ∀ x r, ∃ err, AutoEncoder.forward m x r = (Raise err, r)).
Proof.
  assert (∀ a e s', Encoder.init input_size [h] p a s = (Ok e, s') →
            Encoder.n_layers e = 0%Z ∧ Encoder.dense e !! dense_name (-1) = None ∧
            (0 ≤ h)%Z ∧ Linear.shaped input_size h (Encoder.input_layer e))
    as Hinit.
  { intros a e s' He.
    destruct (Encoder_init_inv _ _ _ _ _ _ _ He)
      as (h0 & hl' & [= <- <-] & _ & Hnonneg & _ & He').
    rewrite He in He'. injection He' as -> _. cbn.
    split_and!; [done|done| |apply Linear_make_shaped].
    by apply Forall_cons in Hnonneg as [? _]. }
  split.
  - intros e s' He.
    destruct (Hinit _ _ _ He) as (Hn & Hdense & Hh & Hshaped).
    split.
    { intros x r.
      destruct (Encoder_forward_no_layers e x r Hn Hdense) as (err & Hforward & _).
      by exists err. }
    intros x n r Hx.
    destruct (Encoder_forward_no_layers e x r Hn Hdense) as (err & Hforward & Herr).
    rewrite Hforward, Herr; [done|].
    by destruct (Linear_forward_shaped _ _ _ _ _ Hh Hshaped Hx) as (y & -> & _).
  - intros m s' Hm x r.
    unfold AutoEncoder.init in Hm. unfold mbind, M_bind in Hm.
    destruct (Encoder.init input_size [h] p ReLU s) as [[e|err] s1] eqn:He;
      [|discriminate].
    destruct (Decoder.init e ReLU s1) as [[d|err] s2]; [|discriminate].
    injection Hm as <- _.
    destruct (Hinit _ _ _ He) as (Hn & Hdense & _).
    destruct (Encoder_forward_no_layers e x r Hn Hdense) as (err & Hforward & _).
    exists err. unfold AutoEncoder.forward. cbn [AutoEncoder.encoder].
    by erewrite bind_raise.
Qed.

(** The theorem at work: an encoder from two features to the single width
    three, on one record of two features. *)
Lemma Encoder_forward_single_width_witness :
  ∃ e s',
    @Encoder.init Toy.zeros 2 [3%Z] (1 # 5) ReLU 0 = (Ok e, s') ∧
    @Encoder.forward Toy.zeros e [[1; 2]]%Q 5
    = (Raise (AttributeError "dense_-1"), 5).
Proof.
  destruct (@Encoder.init Toy.zeros 2 [3%Z] (1 # 5) ReLU 0) as [[e|err] s'] eqn:He;
    [|vm_compute in He; discriminate].
  exists e, s'. split; [reflexivity|].
  destruct (@Encoder_forward_single_width Toy.zeros 2 3 (1 # 5) ReLU 0) as [Hforward _].
  apply (proj2 (Hforward e s' He) [[1; 2]]%Q 1 5).
  split; [reflexivity|]. repeat constructor.
Defined.

(** ** Inputs of another width *)

Lemma forallb_rows_false (w : Z) (x : mat) :
  ¬ Forall (λ r, Z.of_nat (length r) = w) x →
  forallb (λ r, (Z.of_nat (length r) =? w)%Z) x = false.
Proof.
  intros Hx. destruct (forallb _ x) eqn:Hall; [|done].
  exfalso. apply Hx. apply Forall_forall. intros r Hr.
  rewrite forallb_forall in Hall. apply Z.eqb_eq, Hall.
  by apply list_elem_of_In.
Qed.

(** X2: a model for inputs of [input_size] features rejects a tensor one
    row of which has another length: [forward] raises [RuntimeError] at the
    input layer, before anything is drawn, and so does an evaluation cell
    that has loaded the model. *)
Theorem forward_rejects_other_width `{Generator} `{Autograd} (input_size : Z)
    (hl : list Z) (m : AutoEncoder.t) (x : mat) :
  model_shaped input_size hl m →
  ¬ Forall (λ r, Z.of_nat (length r) = input_size) x →
  (∀ s, AutoEncoder.forward m x s = (Raise RuntimeError, s)) ∧
  (∀ path ns, Notebook.files ns !! path = Some m →
     (Notebook.evaluate_cell path x ns).1 = Raise RuntimeError ∧
     Notebook.rng (Notebook.evaluate_cell path x ns).2 = Notebook.rng ns).
Proof.
  intros [(_ & (h0 & _ & Hin) & _) _] Hx.
  assert (∀ s, AutoEncoder.forward m x s = (Raise RuntimeError, s)) as Hforward.
  { intros s. unfold AutoEncoder.forward, Encoder.forward.
    erewrite bind_raise; [done|]. erewrite lift_raise; [done|].
    unfold Linear.forward. destruct Hin as (-> & _).
    by rewrite forallb_rows_false. }
  split; [done|]. intros path ns Hfile.
  unfold Notebook.evaluate_cell.
  erewrite bind_ok by (by apply load_model_present).
  cbv beta iota. unfold Notebook.log, Notebook.draw, mbind, M_bind, modify.
  cbn [fst snd Notebook.rng Notebook.set_trace Notebook.set_model
       Notebook.set_fresh].
  by rewrite Hforward.
Qed.

(** The theorem at work: a model for one feature, on a record of two. *)
Lemma forward_rejects_other_width_witness :
  ∃ m s', @AutoEncoder.init Toy.zeros 1 [1; 1]%Z (1 # 5) ReLU 0 = (Ok m, s') ∧
    @AutoEncoder.forward Toy.zeros m [[1; 2]]%Q 0 = (Raise RuntimeError, 0).
Proof.
  destruct (@AutoEncoder_init_shaped Toy.zeros 1 [1; 1]%Z (1 # 5) ReLU 0)
    as (m & s' & Hinit & Hshaped & _);
    [discriminate|repeat constructor; lia|lia|split; reflexivity|].
  exists m, s'. split; [exact Hinit|].
  apply (@forward_rejects_other_width Toy.zeros Toy.backend 1 [1; 1]%Z m
           [[1; 2]]%Q Hshaped).
  intros Hall. apply Forall_cons in Hall as [Hlen _]. discriminate Hlen.
Defined.

(** ** Where the encoder drops units *)

(** With one dense layer the loop of [forward] has no round, and the
    dropout layer is applied in its rounds only. *)
Lemma Encoder_forward_one_layer `{Generator} (e : Encoder.t) :
  Encoder.n_layers e = 1%Z →
  ∀ mode x s,
    Encoder.forward (Encoder.train mode e) x s
    = ((Encoder.forward (Encoder.train false e) x 0).1, s).
Proof.
  intros Hn mode x s. unfold Encoder.forward.
  cbn [Encoder.train Encoder.input_layer Encoder.n_layers Encoder.dense
       Encoder.activation Encoder.dropout].
  rewrite Hn. change (py_range 0 (1 - 1)) with (@nil Z). cbn [for_fold].
  unfold mbind, M_bind, mret, M_ret, lift.
  destruct (Linear.forward (Encoder.input_layer e) x) as [y|err]; [|done].
  by destruct (getattr_dense (Encoder.dense e) (1 - 1)) as [l|err].
Qed.

(** X3: the encoder applies dropout after each dense layer but the last,
    and not after the input layer.  An encoder constructed over two widths
    has one dense layer and therefore never drops a unit, whatever its
    dropout rate: in either mode its [forward] draws nothing and gives the
    result of evaluation mode.  The same holds of the encoder of a model
    constructed over two widths, so that its embedding in training mode is
    that of evaluation mode. *)
Theorem Encoder_one_dense_layer_never_drops `{Generator} (input_size : Z)
    (hl : list Z) (p : Q) (act : mat → mat) (s : nat) :
  length hl = 2 →
  (∀ e s', Encoder.init input_size hl p act s = (Ok e, s') →
     ∀ mode x r,
       Encoder.forward (Encoder.train mode e) x r
       = ((Encoder.forward (Encoder.train false e) x 0).1, r)) ∧
  (∀ m s', AutoEncoder.init input_size hl p act s = (Ok m, s') →
     ∀ mode x r,
       Encoder.forward (AutoEncoder.encoder (AutoEncoder.train mode m)) x r
       = ((Encoder.forward (AutoEncoder.encoder (AutoEncoder.eval m)) x 0).1, r)).
Proof.
  intros Hlen.
  assert (∀ a e s', Encoder.init input_size hl p a s = (Ok e, s') →
            Encoder.n_layers e = 1%Z) as Hone.
  { intros a e s' He.
    destruct (Encoder_init_fields _ _ _ _ _ _ _ He)
      as (h0 & hl' & -> & _ & _ & _ & _ & _ & Hn & _).
    rewrite Hn. simpl in Hlen. lia. }
  split.
  - intros e s' He. apply Encoder_forward_one_layer. by eapply Hone.
  - intros m s' Hm mode x r.
    unfold AutoEncoder.init in Hm. unfold mbind, M_bind in Hm.
    destruct (Encoder.init input_size hl p ReLU s) as [[e|err] s1] eqn:He;
      [|discriminate].
    destruct (Decoder.init e ReLU s1) as [[d|err] s2] eqn:Hd; [|discriminate].
    injection Hm as <- _.
    cbn [AutoEncoder.eval AutoEncoder.train AutoEncoder.encoder].
    apply Encoder_forward_one_layer. by eapply Hone.
Qed.

(** The theorem at work: an encoder over the widths [[2; 1]] built with a
    dropout rate of one half. *)
Lemma Encoder_one_dense_layer_never_drops_witness :
  ∃ e s', @Encoder.init Toy.ones 1 [2; 1]%Z (1 # 2) ReLU 0 = (Ok e, s') ∧
    @Encoder.forward Toy.ones (Encoder.train true e) [[1%Q]] 4
    = ((@Encoder.forward Toy.ones (Encoder.train false e) [[1%Q]] 0).1, 4).
Proof.
  destruct (@Encoder.init Toy.ones 1 [2; 1]%Z (1 # 2) ReLU 0) as [[e|err] s'] eqn:He;
    [|vm_compute in He; discriminate].
  exists e, s'. split; [reflexivity|].
  exact (proj1 (@Encoder_one_dense_layer_never_drops Toy.ones 1 [2; 1]%Z (1 # 2)
                  ReLU 0 eq_refl) e s' He true [[1%Q]] 4).
Defined.

(** ** The constructor of the auto-encoder *)

(** X4: the constructor of the auto-encoder fails exactly when that of its
    encoder does, with the same exception at the same position of the
    generator: the decoder of an encoder that was constructed is always
    constructed, and the two are the parts of the model. *)
Theorem AutoEncoder_init_fails_as_Encoder `{Generator} (input_size : Z)
    (hl : list Z) (p : Q) (act : mat → mat) (s : nat) :
  match Encoder.init input_size hl p ReLU s with
  | (Raise err, s') => AutoEncoder.init input_size hl p act s = (Raise err, s')
  | (Ok e, s') =>
      ∃ d s'', Decoder.init e ReLU s' = (Ok d, s'') ∧
        AutoEncoder.init input_size hl p act s
        = (Ok {| AutoEncoder.encoder := e; AutoEncoder.decoder := d;
                 AutoEncoder.hidden_layers := hl;
                 AutoEncoder.training := true |}, s'')
  end.
Proof.
  destruct (Encoder.init input_size hl p ReLU s) as [[e|err] s'] eqn:He.
  - destruct (Encoder_init_fields _ _ _ _ _ _ _ He)
      as (h0 & hl' & -> & Hin & Hnonneg & Hp & _ & Hhl & Hn & Hsize & Hrate & _).
    eexists _, _. split.
    + apply (Decoder_init_ok e h0 hl'); [done|done|done|by rewrite Hsize|by rewrite Hrate].
    + unfold AutoEncoder.init. erewrite bind_ok by exact He.
      erewrite bind_ok; [reflexivity|].
      apply (Decoder_init_ok e h0 hl'); [done|done|done|by rewrite Hsize|by rewrite Hrate].
  - unfold AutoEncoder.init. by erewrite bind_raise.
Qed.

(** * Further properties of the cells *)

(** ** Invariants of the two training cells *)

Section CellInvariants.
Context `{Generator} `{Autograd}.

(** As [pretrain_cell_invariant], for an invariant that the write of the
    pre-trained checkpoint keeps. *)
Lemma pretrain_cell_invariant_at (J : Notebook.t → Prop) :
  (∀ ns v, J ns → J (Notebook.set_losses v ns)) →
  (∀ ns v, J ns → J (Notebook.set_best_loss v ns)) →
  (∀ ns s, J ns → J (Notebook.set_rng s ns)) →
  (∀ x_batch, hoare J (Notebook.train_batch x_batch) (λ _, J)) →
  (∀ epoch n_epochs eval_every,
     hoare J (Notebook.report epoch n_epochs eval_every) (λ _, J)) →
  hoare J Notebook.scheduler_step (λ _, J) →
  hoare J (Notebook.torch_save pretrained_path) (λ _, J) →
  ∀ n_epochs eval_every,
    hoare J (Notebook.pretrain_cell n_epochs eval_every) (λ _, J).
Proof.
  intros Hlosses Hbest Hrng Hbatch Hreport Hsched Hsave n_epochs eval_every.
  unfold Notebook.pretrain_cell.
  eapply hoare_bind with (R := λ _, J); [|intros ?|done].
  { intros ns Hns. by apply Hbest. }
  apply for_each_invariant. intros epoch _. unfold Notebook.pretrain_epoch.
  eapply hoare_bind with (R := λ _, J); [|intros ?|done].
  { intros ns Hns. by apply Hlosses. }
  eapply hoare_bind with (R := λ _, J); [by apply batch_loop_invariant|intros ?|done].
  eapply hoare_bind with (R := λ _, J); [apply Hreport|intros mean_loss|done].
  eapply hoare_bind with (R := λ _, J); [apply Hsched|intros ?|done].
  eapply hoare_bind with (R := λ _, J); [|intros best_loss|done].
  { intros ns Hns. by run_cell. }
  destruct (Scalar.float_ltb mean_loss best_loss); [|by intros ns Hns].
  eapply hoare_bind with (R := λ _, J); [|intros l|done].
  { intros ns Hns. by run_cell. }
  eapply hoare_bind with (R := λ _, J); [|intros ?|done].
  { intros ns Hns. by apply Hbest. }
  apply Hsave.
Qed.

(** An invariant of the steps of fine-tuning that does not depend on the
    variables its cell assigns before the loop. *)
Lemma finetune_cell_invariant (J : Notebook.t → Prop) :
  (∀ ns v, J ns → J (Notebook.set_model v ns)) →
  (∀ ns v, J ns → J (Notebook.set_fresh v ns)) →
  (∀ ns v, J ns → J (Notebook.set_optimizer v ns)) →
  (∀ ns v, J ns → J (Notebook.set_best_loss v ns)) →
  (∀ ns s, J ns → J (Notebook.set_rng s ns)) →
  (∀ x_batch, hoare J (Notebook.train_batch x_batch) (λ _, J)) →
  (∀ epoch n_epochs eval_every,
     hoare J (Notebook.report epoch n_epochs eval_every) (λ _, J)) →
  hoare J (Notebook.torch_save finetuned_path) (λ _, J) →
  ∀ n_epochs eval_every,
    hoare J (Notebook.finetune_cell n_epochs eval_every) (λ _, J).
Proof.
  intros Hmodel Hfresh Hopt Hbest Hrng Hbatch Hreport Hsave n_epochs eval_every ns Hns.
  destruct (Notebook.files ns !! pretrained_path) as [m0|] eqn:Hfile.
  - rewrite (finetune_cell_unfold _ _ _ m0 Hfile).
    apply for_each_invariant.
    + intros epoch _. unfold Notebook.finetune_epoch.
      eapply hoare_bind with (R := λ _, J);
        [by apply batch_loop_invariant|intros ?|done].
      eapply hoare_bind with (R := λ _, J); [apply Hreport|intros ?|done].
      apply Hsave.
    + unfold finetune_start. auto 10.
  - unfold Notebook.finetune_cell.
    by rewrite (bind_raise _ _ _ _ _ (load_model_absent _ _ Hfile)).
Qed.

(** ** The files and the trace *)

Lemma files_inv_extend (path : string) (t0 : list event)
    (f0 : gmap string AutoEncoder.t) (ns ns' : Notebook.t) (new' : list event) :
  files_inv path t0 f0 ns →
  Notebook.trace ns' = Notebook.trace ns ++ new' →
  Notebook.files ns' = replay_saves new' (Notebook.files ns) →
  Forall (saves_to path) new' →
  files_inv path t0 f0 ns'.
Proof.
  intros (new & Htrace & Hfiles & Hall) Htrace' Hfiles' Hall'.
  exists (new ++ new'). split_and!.
  - by rewrite Htrace', Htrace, app_assoc.
  - unfold replay_saves in *. by rewrite foldl_app, <- Hfiles.
  - by apply Forall_app.
Qed.

Lemma files_inv_same (path : string) (t0 : list event)
    (f0 : gmap string AutoEncoder.t) (ns ns' : Notebook.t) :
  files_inv path t0 f0 ns →
  Notebook.trace ns' = Notebook.trace ns → Notebook.files ns' = Notebook.files ns →
  files_inv path t0 f0 ns'.
Proof.
  intros (new & Htrace & Hfiles & Hall) Htrace' Hfiles'.
  exists new. by rewrite Htrace', Hfiles'.
Qed.

Ltac close_files Hns :=
  first
    [ by (eapply files_inv_same; [exact Hns|done..])
    | eapply files_inv_extend;
      [ exact Hns
      | cbn; rewrite <- ?app_assoc; reflexivity
      | reflexivity
      | by repeat constructor ] ].

Lemma train_batch_files (path : string) t0 f0 (x_batch : mat) :
  hoare (files_inv path t0 f0) (Notebook.train_batch x_batch)
    (λ _, files_inv path t0 f0).
Proof. intros ns Hns. run_cell; close_files Hns. Qed.

Lemma report_files (path : string) t0 f0 (epoch n_epochs eval_every : Z) :
  hoare (files_inv path t0 f0) (Notebook.report epoch n_epochs eval_every)
    (λ _, files_inv path t0 f0).
Proof. intros ns Hns. run_cell; close_files Hns. Qed.

Lemma scheduler_step_files (path : string) t0 f0 :
  hoare (files_inv path t0 f0) Notebook.scheduler_step (λ _, files_inv path t0 f0).
Proof. intros ns Hns. run_cell; close_files Hns. Qed.

Lemma torch_save_files (path : string) t0 f0 :
  hoare (files_inv path t0 f0) (Notebook.torch_save path) (λ _, files_inv path t0 f0).
Proof. intros ns Hns. run_cell; close_files Hns. Qed.

Lemma files_inv_refl (path : string) (ns : Notebook.t) :
  files_inv path (Notebook.trace ns) (Notebook.files ns) ns.
Proof. exists []. by rewrite app_nil_r. Qed.

(** X5: the files change by the writes of the cells and by nothing else.
    The cell that creates the model and an evaluation cell leave them as
    they are; after the pre-training cell they are the files before it
    overwritten by the writes of its trace, in their order, all of which
    go to the pre-trained checkpoint; after the fine-tuning cell likewise,
    with all writes going to the fine-tuned checkpoint.  This holds however
    the cell ends. *)
Theorem files_follow_the_saves (ns : Notebook.t) :
  (∀ n_input_features hidden_layers dropout_rate,
     let ns' := (Notebook.create_model_cell n_input_features hidden_layers
                   dropout_rate ns).2 in
     Notebook.files ns' = Notebook.files ns ∧
     Notebook.trace ns' = Notebook.trace ns) ∧
  (∀ path X,
     Notebook.files (Notebook.evaluate_cell path X ns).2 = Notebook.files ns) ∧
  (∀ n_epochs eval_every,
     let ns' := (Notebook.pretrain_cell n_epochs eval_every ns).2 in
     ∃ new, Notebook.trace ns' = Notebook.trace ns ++ new ∧
            Notebook.files ns' = replay_saves new (Notebook.files ns) ∧
            Forall (saves_to pretrained_path) new) ∧
  (∀ n_epochs eval_every,
     let ns' := (Notebook.finetune_cell n_epochs eval_every ns).2 in
     ∃ new, Notebook.trace ns' = Notebook.trace ns ++ new ∧
            Notebook.files ns' = replay_saves new (Notebook.files ns) ∧
            Forall (saves_to finetuned_path) new).
Proof.
  split_and!.
  - intros n_input_features hidden_layers dropout_rate.
    unfold Notebook.create_model_cell. run_cell; done.
  - intros path X. unfold Notebook.evaluate_cell. run_cell; done.
  - intros n_epochs eval_every.
    apply (pretrain_cell_invariant_at
             (files_inv pretrained_path (Notebook.trace ns) (Notebook.files ns)));
      [by intros ?? (new & ? & ? & ?); exists new..
      |apply train_batch_files|intros; apply report_files
      |apply scheduler_step_files|apply torch_save_files|apply files_inv_refl].
  - intros n_epochs eval_every.
    apply (finetune_cell_invariant
             (files_inv finetuned_path (Notebook.trace ns) (Notebook.files ns)));
      [by intros ?? (new & ? & ? & ?); exists new..
      |apply train_batch_files|intros; apply report_files
      |apply torch_save_files|apply files_inv_refl].
Qed.

(** No write of a trace goes to [path]: the file is as it was. *)
Lemma replay_saves_other (path path' : string) (new : list event)
    (f0 : gmap string AutoEncoder.t) :
  path' ≠ path → Forall (saves_to path) new →
  replay_saves new f0 !! path' = f0 !! path'.
Proof.
  intros Hne Hall. induction new as [|e new IH] using rev_ind; [done|].
  apply Forall_app in Hall as [Hall He]. rewrite Forall_singleton in He.
  unfold replay_saves in *. rewrite foldl_snoc.
  destruct e as [| | |p m]; try by apply IH.
  change (p = path) in He. rewrite lookup_insert_ne by congruence. by apply IH.
Qed.

(** The three cells write the two checkpoints and nothing else: a file
    under another path that does not exist before them does not after. *)
Lemma cells_keep_other_files (path : string)
    (n_input_features : Z) (hidden_layers : list Z) (dropout_rate : Q)
    (n_pre every_pre n_fine every_fine : Z) :
  path ≠ pretrained_path → path ≠ finetuned_path →
  hoare (λ st, Notebook.files st !! path = None)
    (Notebook.create_model_cell n_input_features hidden_layers dropout_rate;;
     Notebook.pretrain_cell n_pre every_pre;;
     Notebook.finetune_cell n_fine every_fine)
    (λ _ st, Notebook.files st !! path = None).
Proof.
  intros Hpre Hfine.
  pose (J := λ st : Notebook.t, Notebook.files st !! path = None).
  eapply hoare_bind with (R := λ _, J); [|intros ?|done].
  { intros st Hst. unfold J, Notebook.create_model_cell. run_cell; done. }
  eapply hoare_bind with (R := λ _, J); [|intros ?|done].
  - intros st Hst. unfold J.
    destruct (pretrain_cell_invariant_at
                (files_inv pretrained_path (Notebook.trace st) (Notebook.files st)))
      with (n_epochs := n_pre) (eval_every := every_pre) (s := st)
      as (new & _ & -> & Hall);
      [by intros ?? (new & ? & ? & ?); exists new..
      |apply train_batch_files|intros; apply report_files
      |apply scheduler_step_files|apply torch_save_files|apply files_inv_refl|].
    by rewrite (replay_saves_other pretrained_path).
  - intros st Hst. unfold J.
    destruct (finetune_cell_invariant
                (files_inv finetuned_path (Notebook.trace st) (Notebook.files st)))
      with (n_epochs := n_fine) (eval_every := every_fine) (s := st)
      as (new & _ & -> & Hall);
      [by intros ?? (new & ? & ? & ?); exists new..
      |apply train_batch_files|intros; apply report_files
      |apply torch_save_files|apply files_inv_refl|].
    by rewrite (replay_saves_other finetuned_path).
Qed.

(** X6: no cell writes the file that the cell "Evaluate Fine-tuned
    Auto-Encoder" loads.  Where that file does not exist, it still does not
    after the model was created, pre-trained and fine-tuned, however each of
    these cells ended, and the evaluation cell raises [FileNotFoundError]
    and leaves the kernel as it is. *)
Theorem finetuned_evaluation_needs_a_file_no_cell_writes
    (n_input_features : Z) (hidden_layers : list Z) (dropout_rate : Q)
    (n_pre every_pre n_fine every_fine : Z) (ns : Notebook.t) :
  Notebook.files ns !! finetuned_old_path = None →
  let ns' := ((Notebook.create_model_cell n_input_features hidden_layers
                 dropout_rate;;
               Notebook.pretrain_cell n_pre every_pre;;
               Notebook.finetune_cell n_fine every_fine) ns).2 in
  ∀ X, notebook_evaluate_finetuned X ns'
       = (Raise (FileNotFoundError finetuned_old_path), ns').
Proof.
  intros Hnone ns' X.
  unfold notebook_evaluate_finetuned, Notebook.evaluate_cell.
  erewrite bind_raise; [done|].
  apply load_model_absent.
  by apply (cells_keep_other_files finetuned_old_path).
Qed.

End CellInvariants.

(** The theorem at work: the cells with two epochs each, in a kernel
    without files. *)
Lemma finetuned_evaluation_needs_a_file_no_cell_writes_witness :
  Notebook.files (@Toy.fresh_kernel Toy.backend Toy.two_records)
    !! finetuned_old_path = None ∧
  (@notebook_evaluate_finetuned Toy.zeros Toy.backend [[1%Q]]
     ((@Notebook.create_model_cell Toy.zeros Toy.backend 1 [1; 1]%Z (1 # 5);;
       @Notebook.pretrain_cell Toy.zeros Toy.backend 2 1;;
       @Notebook.finetune_cell Toy.zeros Toy.backend 2 1)
        (@Toy.fresh_kernel Toy.backend Toy.two_records)).2).1
  = Raise (FileNotFoundError "./torch_models/autoencoder-finetuned-old").
Proof.
  split; [reflexivity|].
  exact (f_equal fst
           (@finetuned_evaluation_needs_a_file_no_cell_writes
              Toy.zeros Toy.backend 1 [1; 1]%Z (1 # 5) 2 1 2 1
              (@Toy.fresh_kernel Toy.backend Toy.two_records) eq_refl [[1%Q]])).
Defined.

(** ** The learning rate of pre-training *)

Lemma StepLR_rate_next (lr0 gamma : Q) (step_size k : Z) :
  (0 < step_size)%Z → (0 ≤ k)%Z →
  StepLR_rate lr0 gamma step_size (k + 1)
  = if ((k + 1) `mod` step_size =? 0)%Z
    then Scalar.mul (StepLR_rate lr0 gamma step_size k) gamma
    else StepLR_rate lr0 gamma step_size k.
Proof.
  intros Hss Hk. unfold StepLR_rate.
  pose proof (Z.div_mod k step_size ltac:(lia)) as Hk'.
  pose proof (Z.div_mod (k + 1) step_size ltac:(lia)) as Hk1.
  pose proof (Z.mod_pos_bound k step_size Hss) as Hr.
  pose proof (Z.mod_pos_bound (k + 1) step_size Hss) as Hr1.
  pose proof (Z.div_pos k step_size Hk Hss) as Hq.
  destruct ((k + 1) `mod` step_size =? 0)%Z eqn:Hmod.
  - apply Z.eqb_eq in Hmod.
    assert ((k + 1) `div` step_size = k `div` step_size + 1)%Z as -> by nia.
    rewrite Z2Nat.inj_add by lia. rewrite Nat.add_comm. reflexivity.
  - apply Z.eqb_neq in Hmod.
    assert ((k + 1) `div` step_size = k `div` step_size)%Z as -> by nia.
    reflexivity.
Qed.

(** The rates of the notebook's schedule in its three hundred epochs. *)
Lemma StepLR_rate_notebook (j : Z) :
  ((0 ≤ j < 100)%Z → StepLR_rate (1 # 10) (1 # 10) 100 j = 1 # 10) ∧
  ((100 ≤ j < 200)%Z → StepLR_rate (1 # 10) (1 # 10) 100 j = 1 # 100) ∧
  ((200 ≤ j < 300)%Z → StepLR_rate (1 # 10) (1 # 10) 100 j = 1 # 1000).
Proof.
  unfold StepLR_rate. split_and!; intros Hj.
  - assert (j `div` 100 = 0)%Z as -> by (apply Z.div_small; lia). reflexivity.
  - assert (j `div` 100 = 1)%Z as ->; [|reflexivity].
    pose proof (Z.div_mod j 100 ltac:(lia)).
    pose proof (Z.mod_pos_bound j 100 ltac:(lia)). lia.
  - assert (j `div` 100 = 2)%Z as ->; [|reflexivity].
    pose proof (Z.div_mod j 100 ltac:(lia)).
    pose proof (Z.mod_pos_bound j 100 ltac:(lia)). lia.
Qed.

Section Schedule.
Context `{Generator} `{Autograd}.

Ltac close_sched :=
  simplify_eq; split_and!;
  first
    [ done
    | by (eexists; split_and!; first [eassumption | reflexivity])
    | by (repeat (apply extends_by_snoc; [|simpl; done])) ].

Lemma train_batch_sched (oid : nat) (lr : Q) (sch : StepLR.t) (t0 : list event)
    (x_batch : mat) :
  hoare (sched_inv oid lr lr sch t0) (Notebook.train_batch x_batch)
    (λ _, sched_inv oid lr lr sch t0).
Proof.
  intros ns ((o & Ho & Hid & Hlr) & Hsch & Htrace). unfold sched_inv.
  run_cell; same_reads; close_sched.
Qed.

Lemma report_sched (oid : nat) (lr lrs : Q) (sch : StepLR.t) (t0 : list event)
    (epoch n_epochs eval_every : Z) :
  hoare (sched_inv oid lr lrs sch t0) (Notebook.report epoch n_epochs eval_every)
    (λ _, sched_inv oid lr lrs sch t0).
Proof.
  intros ns ((o & Ho & Hid & Hlr) & Hsch & Htrace). unfold sched_inv.
  run_cell; same_reads; close_sched.
Qed.

Lemma torch_save_sched (oid : nat) (lr lrs : Q) (sch : StepLR.t) (t0 : list event)
    (path : string) :
  hoare (sched_inv oid lr lrs sch t0) (Notebook.torch_save path)
    (λ _, sched_inv oid lr lrs sch t0).
Proof.
  intros ns ((o & Ho & Hid & Hlr) & Hsch & Htrace). unfold sched_inv.
  run_cell; same_reads; close_sched.
Qed.

(** A step of the scheduler of the optimizer in use: the counter moves
    on, and the rate is multiplied by [gamma] when the counter reaches a
    multiple of [step_size]. *)
Lemma scheduler_step_sched (lr lrs : Q) (sch : StepLR.t) (t0 : list event) :
  hoare (sched_inv (StepLR.optimizer sch) lr lrs sch t0) Notebook.scheduler_step
    (λ r st, r = Ok tt ∧
       sched_inv (StepLR.optimizer sch)
         (if ((StepLR.last_epoch sch + 1) `mod` StepLR.step_size sch =? 0)%Z
          then Scalar.mul lr (StepLR.gamma sch) else lr)
         lrs (StepLR_next sch) t0 st).
Proof.
  intros ns ((o & Ho & Hid & Hlr) & Hsch & Htrace). unfold sched_inv.
  run_cell; same_reads. all: try close_sched.
  all: match goal with
       | Hb : (SGD.id _ =? _) && _ = _ |- _ =>
           rewrite Hid, Nat.eqb_refl in Hb; simpl in Hb; congruence
       end.
Qed.

(** An epoch of pre-training: all its steps are made at the rate the
    optimizer has when it starts, and it ends with one step of the
    scheduler. *)
Lemma pretrain_epoch_sched (lr : Q) (sch : StepLR.t) (t0 : list event)
    (n_epochs eval_every epoch : Z) :
  hoare (sched_inv (StepLR.optimizer sch) lr lr sch t0)
    (Notebook.pretrain_epoch n_epochs eval_every epoch)
    (λ r st,
       extends_by (step_at lr) t0 (Notebook.trace st) ∧
       (r = Ok tt →
        sched_inv (StepLR.optimizer sch)
          (if ((StepLR.last_epoch sch + 1) `mod` StepLR.step_size sch =? 0)%Z
           then Scalar.mul lr (StepLR.gamma sch) else lr)
          lr (StepLR_next sch) t0 st)).
Proof.
  set (oid := StepLR.optimizer sch).
  set (lr' := if ((StepLR.last_epoch sch + 1) `mod` StepLR.step_size sch =? 0)%Z
              then Scalar.mul lr (StepLR.gamma sch) else lr).
  pose (J := sched_inv oid lr lr sch t0).
  pose (K := sched_inv oid lr' lr (StepLR_next sch) t0).
  assert (∀ e st, J st → extends_by (step_at lr) t0 (Notebook.trace st)
                         ∧ (Raise e = Ok tt → K st)) as HJ.
  { intros e st (_ & _ & Htrace). by split. }
  assert (∀ e st, K st → extends_by (step_at lr) t0 (Notebook.trace st)
                         ∧ (Raise e = Ok tt → K st)) as HK.
  { intros e st (_ & _ & Htrace). by split. }
  unfold Notebook.pretrain_epoch.
  eapply hoare_bind with (R := λ _, J); [|intros ?|by apply HJ].
  { intros st ((o & Ho & Hid & Hlr) & Hsch & Htrace). by split_and!; [exists o|..]. }
  eapply hoare_bind with (R := λ _, J); [|intros ?|by apply HJ].
  { apply batch_loop_invariant; [|apply train_batch_sched].
    intros st s ((o & Ho & Hid & Hlr) & Hsch & Htrace). by split_and!; [exists o|..]. }
  eapply hoare_bind with (R := λ _, J); [apply report_sched|intros mean_loss|by apply HJ].
  eapply hoare_bind with (R := λ r st, r = Ok tt ∧ K st);
    [apply scheduler_step_sched|intros ?|by intros ?? [[=] _]].
  eapply hoare_bind with (R := λ _, K); [|intros best_loss|by apply HK].
  { intros st [_ HKst]. by run_cell. }
  assert (∀ r st, K st → extends_by (step_at lr) t0 (Notebook.trace st)
                         ∧ (r = Ok tt → K st)) as HK'.
  { intros r st HKst. split; [|done]. by destruct HKst as (_ & _ & ?). }
  destruct (Scalar.float_ltb mean_loss best_loss); [|by intros st HKst; apply HK'].
  eapply hoare_bind with (R := λ _, K); [|intros l|by apply HK].
  { intros st HKst. by run_cell. }
  eapply hoare_bind with (R := λ _, K); [|intros ?|by apply HK].
  { intros st ((o & Ho & Hid & Hlr) & Hsch & Htrace). by split_and!; [exists o|..]. }
  eapply hoare_weaken; [apply (torch_save_sched oid lr' lr)|done|].
  intros r st HKst. by apply HK'.
Qed.

(** The optimizer and the scheduler that the first cell creates. *)
Lemma create_model_cell_sched (n_input_features : Z) (hidden_layers : list Z)
    (dropout_rate : Q) (ns : Notebook.t) :
  let ns' := (Notebook.create_model_cell n_input_features hidden_layers
                dropout_rate ns).2 in
  (Notebook.create_model_cell n_input_features hidden_layers dropout_rate ns).1
  = Ok tt →
  ∃ oid, sched_inv oid (1 # 10) (1 # 10) (notebook_scheduler oid 0)
           (Notebook.trace ns') ns'.
Proof.
  unfold Notebook.create_model_cell. run_cell; try done. intros _.
  eexists. split_and!; [by eexists|done|apply extends_by_refl].
Qed.

(** The epochs of pre-training, counted: after [k] of them the scheduler
    has made [k] steps and the optimizer has the rate of the schedule. *)
Lemma pretrain_loop_sched (oid : nat) (n_epochs eval_every : Z) (j : nat)
    (ns : Notebook.t) :
  let c := for_each (py_range 0 (Z.of_nat j))
             (Notebook.pretrain_epoch n_epochs eval_every) in
  sched_inv oid (notebook_rate 0) (notebook_rate 0) (notebook_scheduler oid 0)
    (Notebook.trace ns) ns →
  (c ns).1 = Ok tt →
  sched_inv oid (notebook_rate j) (notebook_rate j) (notebook_scheduler oid j)
    (Notebook.trace (c ns).2) (c ns).2.
Proof.
  intros c Hns Hok.
  pose (I := λ (k : nat) (st : Notebook.t),
    sched_inv oid (notebook_rate k) (notebook_rate k) (notebook_scheduler oid k)
      (Notebook.trace st) st).
  assert (∀ i epoch, py_range 0 (Z.of_nat j) !! i = Some epoch →
            hoare (I i) (Notebook.pretrain_epoch n_epochs eval_every epoch)
              (λ r st, match r with
                       | Ok _ => I (Datatypes.S i) st
                       | Raise _ => True
                       end)) as Hbody.
  { intros i epoch _ st HI.
    pose proof (pretrain_epoch_sched (notebook_rate i) (notebook_scheduler oid i)
                  (Notebook.trace st) n_epochs eval_every epoch st HI) as [_ Hnext].
    destruct (Notebook.pretrain_epoch n_epochs eval_every epoch st) as [[[]|?] st'];
      [|done].
    destruct (Hnext eq_refl) as (Hopt & Hsch & _). simpl in *.
    split_and!; [|by rewrite Hsch; unfold StepLR_next, notebook_scheduler;
                     cbn; rewrite Nat2Z.inj_succ|apply extends_by_refl].
    unfold notebook_rate. rewrite Nat2Z.inj_succ, <- Z.add_1_r.
    rewrite StepLR_rate_next by lia. exact Hopt. }
  pose proof (for_each_count I (λ _, True) (py_range 0 (Z.of_nat j))
                (Notebook.pretrain_epoch n_epochs eval_every) Hbody ns Hns) as Hloop.
  fold c in Hloop. rewrite Hok in Hloop.
  unfold py_range in Hloop. rewrite length_seqZ, Z.sub_0_r, Nat2Z.id in Hloop.
  exact Hloop.
Qed.

End Schedule.

Lemma seq_ok_inv {S A B} (c1 : M S A) (c2 : M S B) (s : S) (b : B) :
  ((c1;; c2) s).1 = Ok b →
  ∃ a s1, c1 s = (Ok a, s1) ∧ (c1;; c2) s = c2 s1.
Proof.
  unfold mbind, M_bind. destruct (c1 s) as [[a|err] s1]; [|done].
  intros _. by exists a, s1.
Qed.

Lemma pretrain_epochs_unfold `{Generator} `{Autograd} (n_epochs eval_every : Z)
    (j : nat) (st : Notebook.t) :
  pretrain_epochs n_epochs eval_every j st
  = for_each (py_range 0 (Z.of_nat j))
      (Notebook.pretrain_epoch n_epochs eval_every)
      (Notebook.set_best_loss (Some Scalar.Inf) st).
Proof. reflexivity. Qed.

Lemma pretrain_cell_epochs `{Generator} `{Autograd} (n_epochs eval_every : Z)
    (st : Notebook.t) :
  Notebook.pretrain_cell n_epochs eval_every st
  = pretrain_epochs n_epochs eval_every (Z.to_nat n_epochs) st.
Proof.
  unfold Notebook.pretrain_cell, pretrain_epochs.
  destruct (Z.le_gt_cases 0 n_epochs) as [Hn|Hn].
  - by rewrite Z2Nat.id.
  - unfold py_range. by rewrite !seqZ_nil by lia.
Qed.

(** X7: the learning rate of pre-training follows the schedule of the
    scheduler created with the model.  The pre-training cell is its first
    [Z.to_nat n_epochs] epochs; when the model was created and the first [j]
    epochs have ended normally, the scheduler has counted [j] steps, the
    optimizer has the rate 0.1 multiplied by 0.1 once for every hundred of
    them, and every optimizer step of the next epoch is made at that rate,
    however that epoch ends.  The rate is 0.1 in the first hundred epochs,
    0.01 in the second and 0.001 in the third. *)
Theorem pretraining_follows_the_schedule `{Generator} `{Autograd}
    (n_input_features : Z) (hidden_layers : list Z) (dropout_rate : Q)
    (n_epochs eval_every : Z) (ns : Notebook.t) (j : nat) :
  (∀ st, Notebook.pretrain_cell n_epochs eval_every st
         = pretrain_epochs n_epochs eval_every (Z.to_nat n_epochs) st) ∧
  (((Notebook.create_model_cell n_input_features hidden_layers dropout_rate;;
     pretrain_epochs n_epochs eval_every j) ns).1 = Ok tt →
   let before :=
     ((Notebook.create_model_cell n_input_features hidden_layers dropout_rate;;
       pretrain_epochs n_epochs eval_every j) ns).2 in
   let after :=
     (Notebook.pretrain_epoch n_epochs eval_every (Z.of_nat j) before).2 in
   (∃ o sch, Notebook.optimizer before = Some o ∧ SGD.lr o = notebook_rate j ∧
             Notebook.scheduler before = Some sch ∧
             StepLR.last_epoch sch = Z.of_nat j) ∧
   extends_by (step_at (notebook_rate j))
     (Notebook.trace before) (Notebook.trace after)) ∧
  (j < 100 → notebook_rate j = 1 # 10) ∧
  (100 ≤ j < 200 → notebook_rate j = 1 # 100) ∧
  (200 ≤ j < 300 → notebook_rate j = 1 # 1000).
Proof.
  split; [apply pretrain_cell_epochs|]. split.
  - intros Hok.
    destruct (seq_ok_inv _ _ _ _ Hok) as (u & ns1 & Hcreate & Hseq).
    rewrite Hseq in Hok |- *. rewrite pretrain_epochs_unfold in Hok |- *.
    cbv zeta.
    pose proof (create_model_cell_sched n_input_features hidden_layers
                  dropout_rate ns) as Hsched.
    rewrite Hcreate in Hsched. destruct u.
    destruct (Hsched eq_refl) as (oid & Hns1). cbn [fst snd] in Hns1.
    set (ns2 := Notebook.set_best_loss (Some Scalar.Inf) ns1) in *.
    assert (sched_inv oid (notebook_rate 0) (notebook_rate 0)
              (notebook_scheduler oid 0) (Notebook.trace ns2) ns2) as Hns2.
    { destruct Hns1 as ((o & Ho & Hid & Hlr) & Hsch & Htrace).
      by split_and!; [exists o|..]. }
    pose proof (pretrain_loop_sched oid n_epochs eval_every j ns2 Hns2 Hok)
      as Hbefore.
    cbv zeta in Hbefore.
    set (before := (for_each (py_range 0 (Z.of_nat j))
                      (Notebook.pretrain_epoch n_epochs eval_every) ns2).2) in *.
    split.
    + destruct Hbefore as ((o & Ho & Hid & Hlr) & Hsch & _).
      by exists o, (notebook_scheduler oid j).
    + by destruct (pretrain_epoch_sched (notebook_rate j) (notebook_scheduler oid j)
                     (Notebook.trace before) n_epochs eval_every (Z.of_nat j)
                     before Hbefore) as [Hsteps _].
  - unfold notebook_rate.
    destruct (StepLR_rate_notebook (Z.of_nat j)) as (H1 & H2 & H3).
    split_and!; intros Hj; [apply H1|apply H2|apply H3]; lia.
Qed.

(** The theorem at work: the second epoch of the two records, after the
    first. *)
Lemma pretraining_follows_the_schedule_witness :
  ((@Notebook.create_model_cell Toy.zeros Toy.backend 1 [1; 1]%Z (1 # 5);;
    @pretrain_epochs Toy.zeros Toy.backend 2 1 1)
     (@Toy.fresh_kernel Toy.backend Toy.two_records)).1 = Ok tt ∧
  extends_by (step_at (notebook_rate 1))
    (Notebook.trace
       ((@Notebook.create_model_cell Toy.zeros Toy.backend 1 [1; 1]%Z (1 # 5);;
         @pretrain_epochs Toy.zeros Toy.backend 2 1 1)
          (@Toy.fresh_kernel Toy.backend Toy.two_records)).2)
    (Notebook.trace
       (@Notebook.pretrain_epoch Toy.zeros Toy.backend 2 1 (Z.of_nat 1)
          ((@Notebook.create_model_cell Toy.zeros Toy.backend 1 [1; 1]%Z (1 # 5);;
            @pretrain_epochs Toy.zeros Toy.backend 2 1 1)
             (@Toy.fresh_kernel Toy.backend Toy.two_records)).2).2).
Proof.
  assert (((@Notebook.create_model_cell Toy.zeros Toy.backend 1 [1; 1]%Z (1 # 5);;
            @pretrain_epochs Toy.zeros Toy.backend 2 1 1)
             (@Toy.fresh_kernel Toy.backend Toy.two_records)).1 = Ok tt) as Hok.
  { vm_compute. reflexivity. }
  split; [exact Hok|].
  destruct (@pretraining_follows_the_schedule Toy.zeros Toy.backend
              1 [1; 1]%Z (1 # 5) 2 1
              (@Toy.fresh_kernel Toy.backend Toy.two_records) 1)
    as (_ & Hepoch & _).
  exact (proj2 (Hepoch Hok)).
Defined.

(** ** The batches of a pass over the data *)

Lemma reshape_lengths {A} (szs : list nat) (l : list A) :
  sum_list szs ≤ length l → length <$> reshape szs l = szs.
Proof.
  revert l. induction szs as [|sz szs IH]; intros l Hsum; [done|].
  simpl in *. rewrite length_take, IH by (rewrite length_drop; lia).
  f_equal. lia.
Qed.

Lemma batch_lengths_sum (n len : nat) :
  sum_list (DataLoader.batch_lengths n len) = len.
Proof.
  unfold DataLoader.batch_lengths.
  rewrite sum_list_with_app, sum_list_replicate.
  pose proof (Nat.div_mod_eq len n) as Hdiv.
  destruct (len mod n =? 0) eqn:Hmod.
  - apply Nat.eqb_eq in Hmod. simpl. lia.
  - simpl. lia.
Qed.

Lemma batch_lengths_pos (n len : nat) :
  Forall (λ sz, 0 < sz) (DataLoader.batch_lengths n len).
Proof.
  unfold DataLoader.batch_lengths. apply Forall_app. split.
  - destruct n as [|n]; [done|]. apply Forall_replicate. lia.
  - destruct (len mod n =? 0) eqn:Hmod; [done|].
    apply Nat.eqb_neq in Hmod. constructor; [lia|done].
Qed.

Lemma batch_lengths_nil (n len : nat) :
  DataLoader.batch_lengths n len = [] → len = 0.
Proof.
  intros Hnil. pose proof (batch_lengths_sum n len) as Hsum.
  by rewrite Hnil in Hsum.
Qed.

Lemma omap_lookup_seq {A} (l : list A) : omap (λ i, l !! i) (seq 0 (length l)) = l.
Proof.
  induction l as [|x l IH] using rev_ind; [done|].
  rewrite length_app. simpl. rewrite Nat.add_1_r, seq_S, omap_app. simpl.
  rewrite lookup_app_r, Nat.sub_diag by lia. simpl.
  rewrite <- IH at 2. f_equal.
  apply list_omap_ext, Forall_Forall2_diag, Forall_seq.
  intros i Hi. by rewrite lookup_app_l by lia.
Qed.

(** One pass over data that are shaped: the batches are not empty and have
    the shape of the data, and there is one when there is a record and the
    loader yields every record. *)
Lemma DataLoader_iter_nonempty `{Generator} (input_size : Z) (dl : DataLoader.t)
    (s : nat) :
  data_shaped input_size dl →
  ∃ batches s', DataLoader.iter dl s = (Ok batches, s') ∧
    Forall (λ b : mat * list Z,
              rows_of input_size (length b.1) b.1 ∧ 0 < length b.1) batches ∧
    (DataLoader.dataset dl ≠ [] → yields_all dl → batches ≠ []).
Proof.
  intros Hdata.
  destruct (DataLoader_iter_batches input_size dl s Hdata)
    as (batches & s' & Hiter & Hrows).
  exists batches, s'. split; [done|].
  unfold DataLoader.iter in Hiter.
  set (n := length (DataLoader.dataset dl)) in *.
  destruct (if DataLoader.shuffle dl then (randperm s n, S s) else (seq 0 n, s))
    as [order s0] eqn:Horder.
  injection Hiter as <- _.
  set (records := omap (λ i, DataLoader.dataset dl !! i) order) in *.
  set (szs := DataLoader.batch_lengths (DataLoader.batch_size dl) (length records)).
  assert (length <$> reshape szs records = szs) as Hlens.
  { apply reshape_lengths. unfold szs. by rewrite batch_lengths_sum. }
  split.
  - apply Forall_and. split; [done|].
    rewrite Forall_fmap.
    pose proof (batch_lengths_pos (DataLoader.batch_size dl) (length records)) as Hpos.
    fold szs in Hpos. rewrite <- Hlens in Hpos.
    rewrite Forall_fmap in Hpos.
    eapply Forall_impl; [exact Hpos|]. intros b Hb. simpl in *.
    by rewrite length_fmap.
  - intros Hne Hall Hnil. apply fmap_nil_inv in Hnil.
    assert (szs = []) as Hszs by (by rewrite <- Hlens, Hnil).
    apply batch_lengths_nil in Hszs.
    assert (records ≡ₚ DataLoader.dataset dl) as Hperm.
    { unfold records.
      transitivity (omap (λ i, DataLoader.dataset dl !! i) (seq 0 n));
        [|unfold n; by rewrite omap_lookup_seq].
      apply omap_Permutation.
      destruct (DataLoader.shuffle dl) eqn:Hshuffle.
      - injection Horder as <- _. destruct Hall as [?|Hall]; [congruence|apply Hall].
      - by injection Horder as <- _. }
    apply Permutation_length in Hperm. rewrite Hszs in Hperm.
    by destruct (DataLoader.dataset dl).
Qed.

(** The mean squared error of tensors that have an entry is a number,
    where its computation stays in the range of float32. *)
Lemma MSELoss_finite `{Autograd} (w : Z) (n : nat) (a b : mat) :
  rows_of w n a → rows_of w n b → (0 < w)%Z → 0 < n →
  mse_range a b = Scalar.InRange →
  ∃ q, MSELoss a b = Ok (Scalar.Finite q).
Proof.
  intros Ha Hb Hw Hn Hrange. unfold MSELoss.
  rewrite (same_shape_rows w n a b Ha Hb), Hrange.
  destruct a as [|ra a]; [destruct Ha as [Hlen _]; simpl in Hlen; lia|].
  destruct b as [|rb b]; [destruct Hb as [Hlen _]; simpl in Hlen; lia|].
  destruct Ha as [_ Ha], Hb as [_ Hb].
  apply Forall_cons in Ha as [Hra _]. apply Forall_cons in Hb as [Hrb _].
  destruct ra as [|x ra]; [simpl in Hra; lia|].
  destruct rb as [|y rb]; [simpl in Hrb; lia|].
  simpl. eauto.
Qed.

(** ** The mean of the losses *)


Lemma float_ltb_mean_nonempty (ls : list Scalar.float) (b : Scalar.float) :
  Scalar.float_ltb (Scalar.np_round (Scalar.np_mean ls) 5) b = true → ls ≠ [].
Proof. intros Hlt ->. cbn in Hlt. discriminate Hlt. Qed.

Lemma py_range_pos (n : Z) : (0 < n)%Z → py_range 0 n = 0%Z :: py_range 1 n.
Proof.
  intros Hn. unfold py_range. rewrite Z.sub_0_r, seqZ_cons by lia.
  repeat f_equal; lia.
Qed.

(** The kernel that the first epoch of pre-training leaves. *)
Lemma pretrain_epochs_first `{Generator} `{Autograd} (n_epochs eval_every : Z)
    (ns : Notebook.t) :
  (pretrain_epochs n_epochs eval_every 1 ns).2
  = (Notebook.pretrain_epoch n_epochs eval_every 0
       (Notebook.set_best_loss (Some Scalar.Inf) ns)).2.
Proof.
  unfold pretrain_epochs. erewrite bind_ok by reflexivity.
  change (py_range 0 (Z.of_nat 1)) with [0%Z]. cbn [for_each].
  unfold mbind, M_bind.
  by destruct (Notebook.pretrain_epoch _ _ _ _) as [[[]|?] ?].
Qed.

(** ** The pre-training cell runs to its end *)

Section Epochs.
Context `{Generator} `{Autograd}.
Context (input_size : Z) (hl : list Z).
Context (Hlen : 2 ≤ length hl) (Hnonneg : Forall (λ w, (0 ≤ w)%Z) hl)
        (Hin : (0 ≤ input_size)%Z).

Lemma train_batch_epoch (b0 : option Scalar.float)
    (f0 : gmap string AutoEncoder.t) (dl0 : DataLoader.t)
    (sch0 : option StepLR.t) (d0 : bool) (x_batch : mat) :
  rows_of input_size (length x_batch) x_batch → 0 < length x_batch →
  hoare (epoch_inv input_size hl b0 f0 dl0 sch0 d0) (Notebook.train_batch x_batch)
    (λ r ns, r = Ok tt ∧ epoch_inv input_size hl b0 f0 dl0 sch0 d0 ns ∧
             ∃ ls, Notebook.losses ns = Some ls ∧ ls ≠ []).
Proof.
  intros Hx Hpos ns
    (((i & m & Hmodel & Hshaped) & [o Ho] & [u Hu] & Hdata) & Hbest & Hfiles
     & Hdl & Hsch & Hdir & ls & Hls & Hloss & Hfin).
  destruct (AutoEncoder_forward_shaped input_size hl m x_batch _ (Notebook.rng ns)
              Hlen Hnonneg Hin Hshaped Hx)
    as (enc & dec & s' & Hforward & _ & Hdec).
  destruct (MSELoss_rows _ _ _ _ Hdec Hx) as [l Hl].
  assert (never_overflows → (0 < input_size)%Z → is_finite l) as Hl'.
  { intros Hrange Hw.
    destruct (MSELoss_finite _ _ _ _ Hdec Hx Hw Hpos (Hrange _ _)) as [q Hq].
    rewrite Hq in Hl. injection Hl as <-. by exists q. }
  unfold epoch_inv, runnable.
  run_cell; simplify_eq; try congruence.
  all: repeat match goal with
              | Ha : ?x = (Ok _, _), Hb : ?x = (Ok _, _) |- _ =>
                  rewrite Ha in Hb; simplify_eq
              | Ha : ?x = Ok _, Hb : ?x = Ok _ |- _ =>
                  rewrite Ha in Hb; simplify_eq
              end.
  all: split; [done|]; split; [split_and!|].
  all: first
    [ done
    | by eexists
    | by (eexists _, _; split; [done|];
          first [ done
                | apply map_layers_shaped; [|done];
                  intros; by apply Linear_update_shaped ])
    | by (eexists; split; [done|]; by destruct ls)
    | eexists; split_and!; [done|by eauto|];
      intros Hrange Hw; apply Forall_app; split; [by apply Hfin|];
      constructor; [by apply Hl'|done] ].
Qed.

Lemma batch_loop_epoch (b0 : option Scalar.float)
    (f0 : gmap string AutoEncoder.t) (dl0 : DataLoader.t)
    (sch0 : option StepLR.t) (d0 : bool) :
  hoare (epoch_inv input_size hl b0 f0 dl0 sch0 d0) Notebook.batch_loop
    (λ r ns, r = Ok tt ∧ epoch_inv input_size hl b0 f0 dl0 sch0 d0 ns ∧
             (DataLoader.dataset dl0 ≠ [] → yields_all dl0 →
              ∃ ls, Notebook.losses ns = Some ls ∧ ls ≠ [])).
Proof.
  intros ns Hinv. unfold Notebook.batch_loop.
  erewrite bind_ok by reflexivity.
  pose proof Hinv as ((_ & _ & _ & Hdata) & _ & _ & Hdl & _).
  destruct (DataLoader_iter_nonempty input_size (Notebook.dataloader ns)
              (Notebook.rng ns) Hdata) as (batches & s' & Hiter & Hbatches & Hne).
  erewrite bind_ok by (unfold Notebook.draw; rewrite Hiter; reflexivity).
  rewrite Hdl in Hne.
  set (ns1 := Notebook.set_rng s' ns).
  assert (epoch_inv input_size hl b0 f0 dl0 sch0 d0 ns1) as Hinv1 by exact Hinv.
  clearbody ns1. clear Hiter Hinv Hdata Hdl.
  pose (I' := λ st : Notebook.t,
    epoch_inv input_size hl b0 f0 dl0 sch0 d0 st ∧
    ∃ ls, Notebook.losses st = Some ls ∧ ls ≠ []).
  destruct batches as [|[x y] rest].
  - simpl. split; [done|]. split; [done|]. intros Hd Hy. by destruct (Hne Hd Hy).
  - cbn [for_each]. apply Forall_cons in Hbatches as [[Hx Hpos] Hrest].
    pose proof (train_batch_epoch b0 f0 dl0 sch0 d0 x Hx Hpos ns1 Hinv1) as Hfirst.
    destruct (Notebook.train_batch x ns1) as [r ns2] eqn:Hrun.
    simpl in Hfirst. destruct Hfirst as (-> & Hinv2 & Hls2).
    erewrite bind_ok by exact Hrun.
    destruct (for_each_total I' rest
                (λ '(x_batch, y_batch), Notebook.train_batch x_batch)) with (s := ns2)
      as (Hok & Hinv3 & Hls3); [|done|by split_and!].
    intros [x' y'] Hb st [Hst _]. rewrite Forall_forall in Hrest.
    destruct (Hrest _ Hb) as [Hx' Hpos'].
    by destruct (train_batch_epoch b0 f0 dl0 sch0 d0 x' Hx' Hpos' st Hst) as (? & ? & ?).
Qed.




(** ** A reporting interval of zero *)

(** The progress line divides by the interval: with an interval of zero
    the report raises, after the mean was assigned. *)
Lemma report_zero (epoch n_epochs : Z) (st : Notebook.t) (ls : list Scalar.float) :
  Notebook.losses st = Some ls →
  Notebook.report epoch n_epochs 0 st
  = (Raise ZeroDivisionError,
     Notebook.set_mean_loss (Some (Scalar.np_round (Scalar.np_mean ls) 5)) st).
Proof. intros Hls. unfold Notebook.report. run_cell; by same_reads. Qed.

Lemma pretrain_epoch_zero (n_epochs epoch : Z) (st : Notebook.t) :
  runnable input_size hl st →
  ∃ st', Notebook.pretrain_epoch n_epochs 0 epoch st = (Raise ZeroDivisionError, st') ∧
         Notebook.files st' = Notebook.files st ∧
         Notebook.best_loss st' = Notebook.best_loss st ∧
         Notebook.scheduler st' = Notebook.scheduler st ∧
         is_Some (Notebook.mean_loss st').
Proof.
  intros Hrun. unfold Notebook.pretrain_epoch.
  erewrite bind_ok by reflexivity.
  set (st1 := Notebook.set_losses (Some []) st).
  assert (epoch_inv input_size hl (Notebook.best_loss st) (Notebook.files st)
            (Notebook.dataloader st) (Notebook.scheduler st)
            (Notebook.torch_models st) st1) as Hinv1.
  { split_and!; try done. exists []. by split_and!. }
  pose proof (batch_loop_epoch _ _ _ _ _ st1 Hinv1) as Hloop.
  destruct (Notebook.batch_loop st1) as [r st2] eqn:Hrun2.
  simpl in Hloop. destruct Hloop as (-> & Hinv2 & _).
  erewrite bind_ok by exact Hrun2.
  destruct Hinv2 as (_ & Hbest & Hfiles & _ & Hsch & _ & ls & Hls & _).
  erewrite bind_raise by (by apply report_zero).
  eexists. split; [done|]. by split_and!.
Qed.

Lemma finetune_epoch_zero (n_epochs epoch : Z) (st : Notebook.t) :
  runnable input_size hl st → is_Some (Notebook.losses st) →
  ∃ st', Notebook.finetune_epoch n_epochs 0 epoch st = (Raise ZeroDivisionError, st') ∧
         Notebook.files st' = Notebook.files st ∧
         is_Some (Notebook.mean_loss st').
Proof.
  intros Hrun [ls0 Hls0]. unfold Notebook.finetune_epoch.
  assert (ready input_size hl st ∧
          Notebook.torch_models st = Notebook.torch_models st) as Hready.
  { split; [|done]. destruct Hrun as (? & ? & ? & ?). by split_and!. }
  pose proof (batch_loop_total input_size hl Hlen Hnonneg Hin _ st Hready) as Hloop.
  pose proof (batch_loop_invariant (λ s, Notebook.files s = Notebook.files st)
                ltac:(done)) as Hfiles.
  specialize (Hfiles ltac:(intros x s Hs; run_cell; done) st eq_refl).
  destruct (Notebook.batch_loop st) as [r st2] eqn:Hrun2.
  simpl in Hloop, Hfiles. destruct Hloop as (-> & (_ & _ & _ & [ls Hls] & _) & _).
  erewrite bind_ok by exact Hrun2.
  erewrite bind_raise by (by apply report_zero).
  eexists. split; [done|]. by split.
Qed.

(** X8: with a reporting interval of zero, either training cell raises
    [ZeroDivisionError] at the end of its first epoch, in a kernel in which
    the batches can be trained on: for pre-training one with the model, the
    optimizer, the scheduler and [loss_] of the cell that creates the model,
    for fine-tuning one with a pre-trained checkpoint and with [loss_] and
    [losses] bound.  The batches of the epoch were trained on and the mean
    of the losses was assigned, but the scheduler was not stepped and no
    checkpoint was written, so that the files are as before the cell. *)
Theorem zero_interval_stops_the_first_epoch (n_epochs : Z) (ns : Notebook.t) :
  (0 < n_epochs)%Z →
  (trainable input_size hl ns →
   (Notebook.pretrain_cell n_epochs 0 ns).1 = Raise ZeroDivisionError ∧
   Notebook.files (Notebook.pretrain_cell n_epochs 0 ns).2 = Notebook.files ns ∧
   Notebook.scheduler (Notebook.pretrain_cell n_epochs 0 ns).2
   = Notebook.scheduler ns ∧
   is_Some (Notebook.mean_loss (Notebook.pretrain_cell n_epochs 0 ns).2)) ∧
  (∀ m0, Notebook.files ns !! pretrained_path = Some m0 →
     model_shaped input_size hl m0 →
     data_shaped input_size (Notebook.dataloader ns) →
     is_Some (Notebook.loss_ ns) →
     is_Some (Notebook.losses ns) →
     (Notebook.finetune_cell n_epochs 0 ns).1 = Raise ZeroDivisionError ∧
     Notebook.files (Notebook.finetune_cell n_epochs 0 ns).2 = Notebook.files ns ∧
     is_Some (Notebook.mean_loss (Notebook.finetune_cell n_epochs 0 ns).2)).
Proof.
  intros Hn. split.
  - intros [Hrun _]. unfold Notebook.pretrain_cell.
    erewrite bind_ok by reflexivity.
    rewrite py_range_pos by done. cbn [for_each].
    destruct (pretrain_epoch_zero n_epochs 0
                (Notebook.set_best_loss (Some Scalar.Inf) ns) Hrun)
      as (st' & Hepoch & Hfiles & _ & Hsch & Hmean).
    erewrite bind_raise by exact Hepoch. by split_and!.
  - intros m0 Hfile Hshaped Hdata Hcrit Hlosses.
    rewrite (finetune_cell_unfold _ _ _ m0 Hfile).
    rewrite py_range_pos by done. cbn [for_each].
    destruct (finetune_epoch_zero n_epochs 0 (finetune_start ns m0))
      as (st' & Hepoch & Hfiles & Hmean); [|done|].
    { split_and!;
        first [ by (eexists _, _; split; [done|]; by apply train_shaped)
              | by eexists
              | done ]. }
    erewrite bind_raise by exact Hepoch. by split_and!.
Qed.

End Epochs.

(** The first cell, on arguments the constructors accept: it ends normally
    and leaves a kernel in which the pre-training cell can run. *)
Lemma create_model_cell_run `{Generator} `{Autograd} (input_size : Z) (hl : list Z)
    (p : Q) (ns : Notebook.t) :
  hl ≠ [] → Forall (λ w, (0 ≤ w)%Z) hl → (0 ≤ input_size)%Z → valid_rate p →
  data_shaped input_size (Notebook.dataloader ns) →
  ∃ ns1, Notebook.create_model_cell input_size hl p ns = (Ok tt, ns1) ∧
         trainable input_size hl ns1 ∧
         Notebook.dataloader ns1 = Notebook.dataloader ns ∧
         Notebook.files ns1 = Notebook.files ns ∧
         Notebook.trace ns1 = Notebook.trace ns ∧
         Notebook.torch_models ns1 = Notebook.torch_models ns.
Proof.
  intros Hne Hnonneg Hin Hp Hdata.
  destruct (AutoEncoder_init_shaped input_size hl p ReLU (Notebook.rng ns))
    as (m0 & s' & Hinit & Hshaped & _); [done..|].
  eexists. split.
  { unfold Notebook.create_model_cell.
    erewrite bind_ok by reflexivity. erewrite bind_ok.
    2:{ unfold Notebook.draw. cbn [Notebook.rng Notebook.set_loss_].
        rewrite Hinit. reflexivity. }
    reflexivity. }
  split_and!; try done. split; [|by eexists].
  split_and!; [|by eexists|by eexists|done].
  eexists _, _. split; [done|]. by apply train_shaped.
Qed.

(** The theorem at work: the two records, with a model over the widths
    [[1; 1]], and three epochs asked for. *)
Lemma zero_interval_stops_the_first_epoch_witness :
  (@Notebook.pretrain_cell Toy.zeros Toy.backend 3 0
     (@Notebook.create_model_cell Toy.zeros Toy.backend 1 [1; 1]%Z (1 # 5)
        (@Toy.fresh_kernel Toy.backend Toy.two_records)).2).1
  = Raise ZeroDivisionError ∧
  Notebook.files
    (@Notebook.pretrain_cell Toy.zeros Toy.backend 3 0
       (@Notebook.create_model_cell Toy.zeros Toy.backend 1 [1; 1]%Z (1 # 5)
          (@Toy.fresh_kernel Toy.backend Toy.two_records)).2).2
  = ∅.
Proof.
  destruct (@create_model_cell_run Toy.zeros Toy.backend 1 [1; 1]%Z (1 # 5)
              (@Toy.fresh_kernel Toy.backend Toy.two_records))
    as (ns1 & Hcreate & Htrain & _ & Hfiles1 & _).
  { discriminate. }
  { repeat constructor; lia. }
  { lia. }
  { split; reflexivity. }
  { repeat constructor. }
  rewrite Hcreate. cbn [snd].
  destruct (@zero_interval_stops_the_first_epoch Toy.zeros Toy.backend
              1 [1; 1]%Z ltac:(simpl; lia) ltac:(repeat constructor; lia)
              ltac:(lia) 3 ns1 ltac:(lia)) as [Hpre _].
  destruct (Hpre Htrain) as (Hraise & Hfiles & _).
  split; [exact Hraise|]. rewrite Hfiles. exact Hfiles1.
Defined.

(** ** From the first cell to the fine-tuned checkpoint *)

Section Pipeline.
Context `{Generator} `{Autograd}.





End Pipeline.


(** ** The embedding of the data *)

(** X10: an evaluation cell on a checkpoint that holds a model for the
    data returns the embedding matrix, one row for each record and one
    column for each unit of the last width, and leaves the loaded model
    bound to [model].  When the checkpoint was saved in evaluation mode the
    matrix is the same in every kernel that has the file. *)
Theorem evaluation_embeds_every_record `{Generator} `{Autograd} (input_size : Z)
    (hl : list Z) (path : string) (X : mat) (n : nat) (ns : Notebook.t)
    (m : AutoEncoder.t) :
  2 ≤ length hl → Forall (λ w, (0 ≤ w)%Z) hl → (0 ≤ input_size)%Z →
  Notebook.files ns !! path = Some m → model_shaped input_size hl m →
  rows_of input_size n X →
  ∃ embedded,
    (Notebook.evaluate_cell path X ns).1 = Ok embedded ∧
    rows_of (default 0%Z (last hl)) n embedded ∧
    Notebook.model (Notebook.evaluate_cell path X ns).2
    = Some (Notebook.fresh ns, m) ∧
    (in_mode false m →
     ∀ ns', Notebook.files ns' !! path = Some m →
            (Notebook.evaluate_cell path X ns').1 = Ok embedded).
Proof.
  intros Hlen Hnonneg Hin Hfile Hshaped HX.
  destruct (AutoEncoder_forward_shaped input_size hl m X n (Notebook.rng ns)
              Hlen Hnonneg Hin Hshaped HX)
    as (embedded & decoded & s' & Hforward & Hrows & _).
  destruct (evaluate_cell_forward path X ns m embedded decoded s' Hfile Hforward)
    as (Hok & Hmodel & _).
  exists embedded. split_and!; try done.
  intros Hmode ns' Hfile'.
  by rewrite (evaluate_cell_eval path X ns' ns m Hfile' Hfile Hmode).
Qed.

(** The theorem at work: the pre-trained checkpoint of the two records, on
    three records. *)
Lemma evaluation_embeds_every_record_witness :
  ∃ embedded,
    (@Notebook.evaluate_cell Toy.zeros Toy.backend pretrained_path
       [[1]; [2]; [3]]%Q (Toy.pretrained 1)).1 = Ok embedded ∧
    rows_of 1 3 embedded.
Proof.
  destruct (Notebook.files (Toy.pretrained 1) !! pretrained_path) as [m|] eqn:Hfile;
    [|vm_compute in Hfile; discriminate].
  destruct (@evaluation_embeds_every_record Toy.zeros Toy.backend 1 [1; 1]%Z
              pretrained_path [[1]; [2]; [3]]%Q 3 (Toy.pretrained 1) m)
    as (embedded & Hok & Hrows & _).
  { simpl. lia. }
  { repeat constructor; lia. }
  { lia. }
  { exact Hfile. }
  { exact (pretrained_checkpoint_shaped 1 pretrained_path m Hfile). }
  { split; [reflexivity|]. repeat constructor. }
  exists embedded. split; [exact Hok|exact Hrows].
Defined.

(** ** An optimizer created for another model *)

Section Stale.
Context `{Generator} `{Autograd}.

Ltac close_stale :=
  unfold stale_inv; split_and!;
  first
    [ done
    | by (eexists; split; [eassumption|done])
    | by (eexists; split; [reflexivity|done])
    | by (repeat (apply extends_by_snoc; [|simpl; done])) ].

Lemma train_batch_stale (i : nat) (m : AutoEncoder.t) (t0 : list event)
    (x_batch : mat) :
  hoare (stale_inv i m t0) (Notebook.train_batch x_batch) (λ _, stale_inv i m t0).
Proof.
  intros ns (Hmodel & (o & Ho & Hparams) & Htrace).
  run_cell; same_reads; simplify_eq.
  all: try (exfalso;
            match goal with
            | Heq : (_ =? _) = true |- _ => apply Nat.eqb_eq in Heq; congruence
            end).
  all: close_stale.
Qed.

Lemma report_stale (i : nat) (m : AutoEncoder.t) (t0 : list event)
    (epoch n_epochs eval_every : Z) :
  hoare (stale_inv i m t0) (Notebook.report epoch n_epochs eval_every)
    (λ _, stale_inv i m t0).
Proof.
  intros ns (Hmodel & (o & Ho & Hparams) & Htrace).
  run_cell; same_reads; simplify_eq; close_stale.
Qed.

Lemma scheduler_step_stale (i : nat) (m : AutoEncoder.t) (t0 : list event) :
  hoare (stale_inv i m t0) Notebook.scheduler_step (λ _, stale_inv i m t0).
Proof.
  intros ns (Hmodel & (o & Ho & Hparams) & Htrace).
  run_cell; same_reads; simplify_eq; close_stale.
Qed.

Lemma torch_save_stale (i : nat) (m : AutoEncoder.t) (t0 : list event)
    (path : string) :
  hoare (stale_inv i m t0) (Notebook.torch_save path) (λ _, stale_inv i m t0).
Proof.
  intros ns (Hmodel & (o & Ho & Hparams) & Htrace).
  run_cell; same_reads; simplify_eq; close_stale.
Qed.

(** X11: the optimizer updates the parameters of the model it was created
    for.  While another object is bound to [model], as after an evaluation
    cell has loaded a checkpoint, the pre-training cell trains nothing:
    every forward pass is made with the model as loaded, every checkpoint it
    writes holds that model, and the model is the same when the cell ends,
    however it ends. *)
Theorem pretraining_after_a_load_trains_nothing (n_epochs eval_every : Z)
    (ns : Notebook.t) :
  (∀ i m o,
     Notebook.model ns = Some (i, m) → Notebook.optimizer ns = Some o →
     SGD.params o ≠ i →
     stale_inv i m (Notebook.trace ns)
       (Notebook.pretrain_cell n_epochs eval_every ns).2) ∧
  (∀ path X m o embedded,
     Notebook.files ns !! path = Some m → Notebook.optimizer ns = Some o →
     SGD.params o < Notebook.fresh ns →
     (Notebook.evaluate_cell path X ns).1 = Ok embedded →
     stale_inv (Notebook.fresh ns) m
       (Notebook.trace (Notebook.evaluate_cell path X ns).2)
       (Notebook.pretrain_cell n_epochs eval_every
          (Notebook.evaluate_cell path X ns).2).2).
Proof.
  assert (∀ st i m o,
            Notebook.model st = Some (i, m) → Notebook.optimizer st = Some o →
            SGD.params o ≠ i →
            stale_inv i m (Notebook.trace st)
              (Notebook.pretrain_cell n_epochs eval_every st).2) as Hstale.
  { intros st i m o Hmodel Ho Hparams.
    apply (pretrain_cell_invariant (stale_inv i m (Notebook.trace st)));
      [by intros ?? (? & ? & ?).. |apply train_batch_stale
      |intros; apply report_stale|apply scheduler_step_stale
      |apply torch_save_stale|].
    split_and!; [done|by exists o|apply extends_by_refl]. }
  split; [apply Hstale|].
  intros path X m o embedded Hfile Ho Hparams Hok.
  assert (Notebook.model (Notebook.evaluate_cell path X ns).2
          = Some (Notebook.fresh ns, m) ∧
          Notebook.optimizer (Notebook.evaluate_cell path X ns).2 = Some o)
    as [Hmodel Ho'].
  { unfold Notebook.evaluate_cell.
    erewrite bind_ok by (by apply load_model_present).
    cbv beta iota. unfold Notebook.log, Notebook.draw, mbind, M_bind, modify.
    cbn [fst snd Notebook.rng Notebook.set_trace Notebook.set_model
         Notebook.set_fresh].
    by destruct (AutoEncoder.forward m X (Notebook.rng ns)) as [[[??]|?] ?]. }
  apply (Hstale _ _ _ o Hmodel Ho'). lia.
Qed.

End Stale.

(** The theorem at work: the pre-trained checkpoint of the two records is
    loaded by an evaluation cell, and the pre-training cell is run again. *)
Lemma pretraining_after_a_load_trains_nothing_witness :
  ∃ m,
    Notebook.files (Toy.pretrained 1) !! pretrained_path = Some m ∧
    Notebook.model
      (@Notebook.pretrain_cell Toy.zeros Toy.backend 2 1
         (@Notebook.evaluate_cell Toy.zeros Toy.backend pretrained_path [[1%Q]]
            (Toy.pretrained 1)).2).2
    = Some (Notebook.fresh (Toy.pretrained 1), m).
Proof.
  assert (SGD.params <$> Notebook.optimizer (Toy.pretrained 1) = Some 0) as Hparams.
  { vm_compute. reflexivity. }
  assert (Notebook.fresh (Toy.pretrained 1) = 2) as Hfresh.
  { vm_compute. reflexivity. }
  destruct (Notebook.optimizer (Toy.pretrained 1)) as [o|] eqn:Ho;
    [|discriminate Hparams].
  injection Hparams as Hparams.
  destruct (Notebook.files (Toy.pretrained 1) !! pretrained_path) as [m|] eqn:Hfile;
    [|vm_compute in Hfile; discriminate].
  destruct (@Notebook.evaluate_cell Toy.zeros Toy.backend pretrained_path [[1%Q]]
              (Toy.pretrained 1)).1 as [embedded|err] eqn:Hok;
    [|vm_compute in Hok; discriminate].
  exists m. split; [reflexivity|].
  destruct (@pretraining_after_a_load_trains_nothing Toy.zeros Toy.backend 2 1
              (Toy.pretrained 1)) as [_ Hafter].
  refine (proj1 (Hafter pretrained_path [[1%Q]] m o embedded Hfile Ho _ Hok)).
  rewrite Hparams, Hfresh. lia.
Defined.

(** ** Fine-tuning in a kernel that has not pre-trained *)

Section NoLosses.
Context `{Generator} `{Autograd}.
Context (input_size : Z) (hl : list Z).
Context (Hlen : 2 ≤ length hl) (Hnonneg : Forall (λ w, (0 ≤ w)%Z) hl)
        (Hin : (0 ≤ input_size)%Z).

(** A batch in a kernel where [loss_] is not bound: the pass is made, then
    the call of [loss_] raises. *)
Lemma train_batch_no_loss_ (x_batch : mat) (st : Notebook.t) (i : nat)
    (m : AutoEncoder.t) :
  Notebook.model st = Some (i, m) → model_shaped input_size hl m →
  is_Some (Notebook.optimizer st) → Notebook.loss_ st = None →
  rows_of input_size (length x_batch) x_batch →
  ∃ st', Notebook.train_batch x_batch st = (Raise (NameError "loss_"), st') ∧
         Notebook.files st' = Notebook.files st ∧
         Notebook.model st' = Some (i, m) ∧
         Notebook.trace st' = Notebook.trace st ++ [Forward m].
Proof.
  intros Hmodel Hshaped [o Ho] Hcrit Hx.
  destruct (AutoEncoder_forward_shaped input_size hl m x_batch _ (Notebook.rng st)
              Hlen Hnonneg Hin Hshaped Hx)
    as (enc & dec & s' & Hforward & _ & Hdec).
  eexists. split.
  { unfold Notebook.train_batch.
    erewrite bind_ok by (unfold Notebook.getvar; rewrite Ho; reflexivity).
    erewrite bind_ok by (unfold Notebook.getvar; rewrite Hmodel; reflexivity).
    cbv beta iota.
    erewrite bind_ok by reflexivity.
    erewrite bind_ok by reflexivity.
    erewrite bind_ok.
    2:{ unfold Notebook.draw. cbn [Notebook.rng Notebook.set_trace].
        rewrite Hforward. reflexivity. }
    cbv beta iota.
    erewrite bind_raise; [reflexivity|].
    unfold Notebook.getvar. cbn. rewrite Hcrit. reflexivity. }
  by split_and!.
Qed.

(** A batch in a kernel where [loss_] is bound and [losses] is not: the
    pass is made and the loss computed, then [losses.append] raises, before
    the optimizer steps. *)
Lemma train_batch_no_losses (x_batch : mat) (st : Notebook.t) (i : nat)
    (m : AutoEncoder.t) :
  Notebook.model st = Some (i, m) → model_shaped input_size hl m →
  is_Some (Notebook.optimizer st) → is_Some (Notebook.loss_ st) →
  Notebook.losses st = None →
  rows_of input_size (length x_batch) x_batch →
  ∃ st', Notebook.train_batch x_batch st = (Raise (NameError "losses"), st') ∧
         Notebook.files st' = Notebook.files st ∧
         Notebook.model st' = Some (i, m) ∧
         Notebook.trace st' = Notebook.trace st ++ [Forward m].
Proof.
  intros Hmodel Hshaped [o Ho] [u Hu] Hlosses Hx.
  destruct (AutoEncoder_forward_shaped input_size hl m x_batch _ (Notebook.rng st)
              Hlen Hnonneg Hin Hshaped Hx)
    as (enc & dec & s' & Hforward & _ & Hdec).
  destruct (MSELoss_rows _ _ _ _ Hdec Hx) as [l Hl].
  eexists. split.
  { unfold Notebook.train_batch.
    erewrite bind_ok by (unfold Notebook.getvar; rewrite Ho; reflexivity).
    erewrite bind_ok by (unfold Notebook.getvar; rewrite Hmodel; reflexivity).
    cbv beta iota.
    erewrite bind_ok by reflexivity.
    erewrite bind_ok by reflexivity.
    erewrite bind_ok.
    2:{ unfold Notebook.draw. cbn [Notebook.rng Notebook.set_trace].
        rewrite Hforward. reflexivity. }
    cbv beta iota.
    erewrite bind_ok by (unfold Notebook.getvar; cbn; rewrite Hu; reflexivity).
    erewrite lift_ok by exact Hl.
    erewrite bind_ok by reflexivity.
    erewrite bind_raise; [reflexivity|].
    unfold Notebook.getvar. cbn. rewrite Hlosses. reflexivity. }
  by split_and!.
Qed.

Lemma finetune_epoch_no_loss_ (n_epochs eval_every epoch : Z) (st : Notebook.t)
    (i : nat) (m : AutoEncoder.t) :
  Notebook.model st = Some (i, m) → model_shaped input_size hl m →
  is_Some (Notebook.optimizer st) → Notebook.loss_ st = None →
  data_shaped input_size (Notebook.dataloader st) →
  DataLoader.dataset (Notebook.dataloader st) ≠ [] →
  yields_all (Notebook.dataloader st) →
  ∃ st', Notebook.finetune_epoch n_epochs eval_every epoch st
         = (Raise (NameError "loss_"), st') ∧
         Notebook.files st' = Notebook.files st ∧
         Notebook.model st' = Some (i, m) ∧
         Notebook.trace st' = Notebook.trace st ++ [Forward m].
Proof.
  intros Hmodel Hshaped Ho Hcrit Hdata Hne Hall.
  destruct (DataLoader_iter_nonempty input_size (Notebook.dataloader st)
              (Notebook.rng st) Hdata) as (batches & s' & Hiter & Hrows & Hsome).
  unfold Notebook.finetune_epoch, Notebook.batch_loop.
  destruct batches as [|[x y] rest]; [by destruct (Hsome Hne Hall)|].
  apply Forall_cons in Hrows as [[Hx _] _].
  destruct (train_batch_no_loss_ x (Notebook.set_rng s' st) i m)
    as (st' & Hbatch & Hfiles & Hmodel' & Htrace); [done..|].
  exists st'. split.
  { erewrite bind_raise; [reflexivity|].
    erewrite bind_ok by reflexivity.
    erewrite bind_ok by (unfold Notebook.draw; rewrite Hiter; reflexivity).
    cbn [for_each]. erewrite bind_raise; [reflexivity|]. exact Hbatch. }
  by split_and!.
Qed.

Lemma finetune_epoch_no_losses (n_epochs eval_every epoch : Z) (st : Notebook.t)
    (i : nat) (m : AutoEncoder.t) :
  Notebook.model st = Some (i, m) → model_shaped input_size hl m →
  is_Some (Notebook.optimizer st) → is_Some (Notebook.loss_ st) →
  Notebook.losses st = None →
  data_shaped input_size (Notebook.dataloader st) →
  ∃ st', Notebook.finetune_epoch n_epochs eval_every epoch st
         = (Raise (NameError "losses"), st') ∧
         Notebook.files st' = Notebook.files st ∧
         Notebook.model st' = Some (i, m) ∧
         extends_by (λ e, e = Forward m) (Notebook.trace st) (Notebook.trace st').
Proof.
  intros Hmodel Hshaped Ho Hcrit Hlosses Hdata.
  destruct (DataLoader_iter_batches input_size (Notebook.dataloader st)
              (Notebook.rng st) Hdata) as (batches & s' & Hiter & Hrows).
  unfold Notebook.finetune_epoch, Notebook.batch_loop.
  destruct batches as [|[x y] rest].
  - eexists. split.
    { erewrite bind_ok.
      2:{ erewrite bind_ok by reflexivity.
          erewrite bind_ok by (unfold Notebook.draw; rewrite Hiter; reflexivity).
          reflexivity. }
      erewrite bind_raise; [reflexivity|].
      unfold Notebook.report. erewrite bind_raise; [reflexivity|].
      unfold Notebook.getvar. cbn. rewrite Hlosses. reflexivity. }
    split_and!; try done. apply extends_by_refl.
  - apply Forall_cons in Hrows as [Hx _].
    destruct (train_batch_no_losses x (Notebook.set_rng s' st) i m)
      as (st' & Hbatch & Hfiles & Hmodel' & Htrace); [done..|].
    exists st'. split.
    { erewrite bind_raise; [reflexivity|].
      erewrite bind_ok by reflexivity.
      erewrite bind_ok by (unfold Notebook.draw; rewrite Hiter; reflexivity).
      cbn [for_each]. erewrite bind_raise; [reflexivity|]. exact Hbatch. }
    split_and!; try done. rewrite Htrace.
    apply extends_by_snoc; [apply extends_by_refl|done].
Qed.

(** X12: the fine-tuning cell calls [loss_] and appends to the list
    [losses] without creating either.  With a pre-trained checkpoint for
    the data and at least one epoch asked for: in a kernel where [loss_] is
    bound and [losses] is not, as one in which the model was created and
    the pre-training cell has not run, the cell raises [NameError] for
    [losses] after at most one forward pass; in a kernel where [loss_] is
    not bound, as one in which the cell that creates the model has not run,
    it raises [NameError] for [loss_] after the forward pass of its first
    batch, when the loader yields one.  In both cases no optimizer step is
    made, the model is the one loaded, in evaluation mode, and no checkpoint
    is written. *)
Theorem finetuning_needs_the_list_of_pretraining (n_epochs eval_every : Z)
    (ns : Notebook.t) (m0 : AutoEncoder.t) :
  Notebook.files ns !! pretrained_path = Some m0 →
  model_shaped input_size hl m0 →
  data_shaped input_size (Notebook.dataloader ns) →
  (0 < n_epochs)%Z →
  (is_Some (Notebook.loss_ ns) → Notebook.losses ns = None →
   (Notebook.finetune_cell n_epochs eval_every ns).1 = Raise (NameError "losses") ∧
   Notebook.files (Notebook.finetune_cell n_epochs eval_every ns).2
   = Notebook.files ns ∧
   Notebook.model (Notebook.finetune_cell n_epochs eval_every ns).2
   = Some (Notebook.fresh ns, AutoEncoder.eval m0) ∧
   extends_by (λ e, e = Forward (AutoEncoder.eval m0))
     (Notebook.trace ns)
     (Notebook.trace (Notebook.finetune_cell n_epochs eval_every ns).2)) ∧
  (Notebook.loss_ ns = None →
   DataLoader.dataset (Notebook.dataloader ns) ≠ [] →
   yields_all (Notebook.dataloader ns) →
   (Notebook.finetune_cell n_epochs eval_every ns).1 = Raise (NameError "loss_") ∧
   Notebook.files (Notebook.finetune_cell n_epochs eval_every ns).2
   = Notebook.files ns ∧
   Notebook.model (Notebook.finetune_cell n_epochs eval_every ns).2
   = Some (Notebook.fresh ns, AutoEncoder.eval m0) ∧
   Notebook.trace (Notebook.finetune_cell n_epochs eval_every ns).2
   = Notebook.trace ns ++ [Forward (AutoEncoder.eval m0)]).
Proof.
  intros Hfile Hshaped Hdata Hn.
  rewrite (finetune_cell_unfold _ _ _ m0 Hfile).
  rewrite py_range_pos by done. cbn [for_each].
  split.
  - intros Hcrit Hlosses.
    destruct (finetune_epoch_no_losses n_epochs eval_every 0 (finetune_start ns m0)
                (Notebook.fresh ns) (AutoEncoder.eval m0))
      as (st' & Hepoch & Hfiles & Hmodel & Htrace);
      [done|by apply train_shaped|by eexists|done|done|done|].
    erewrite bind_raise by exact Hepoch. by split_and!.
  - intros Hcrit Hne Hall.
    destruct (finetune_epoch_no_loss_ n_epochs eval_every 0 (finetune_start ns m0)
                (Notebook.fresh ns) (AutoEncoder.eval m0))
      as (st' & Hepoch & Hfiles & Hmodel & Htrace);
      [done|by apply train_shaped|by eexists|done|done|done|done|].
    erewrite bind_raise by exact Hepoch. by split_and!.
Qed.

End NoLosses.

(** The theorem at work, with the pre-trained checkpoint of the two records:
    in a kernel where the model was created and not pre-trained, and in one
    where only the cells above have run. *)
Lemma finetuning_needs_the_list_of_pretraining_witness :
  ∃ m0,
    Notebook.files (Toy.pretrained 1) !! pretrained_path = Some m0 ∧
    (@Notebook.finetune_cell Toy.zeros Toy.backend 2 1
       (Notebook.set_files (Notebook.files (Toy.pretrained 1))
          (@Notebook.create_model_cell Toy.zeros Toy.backend 1 [1; 1]%Z (1 # 5)
             (@Toy.fresh_kernel Toy.backend Toy.two_records)).2)).1
    = Raise (NameError "losses") ∧
    (@Notebook.finetune_cell Toy.zeros Toy.backend 2 1
       (Notebook.set_files (Notebook.files (Toy.pretrained 1))
          (@Toy.fresh_kernel Toy.backend Toy.two_records))).1
    = Raise (NameError "loss_").
Proof.
  destruct (Notebook.files (Toy.pretrained 1) !! pretrained_path) as [m0|] eqn:Hfile;
    [|vm_compute in Hfile; discriminate].
  pose proof (pretrained_checkpoint_shaped 1 pretrained_path m0 Hfile) as Hshaped.
  exists m0. split; [reflexivity|].
  revert Hfile. generalize (Notebook.files (Toy.pretrained 1)). intros fs Hfile.
  split.
  - assert (is_Some (Notebook.loss_
              (@Notebook.create_model_cell Toy.zeros Toy.backend 1 [1; 1]%Z (1 # 5)
                 (@Toy.fresh_kernel Toy.backend Toy.two_records)).2)) as Hcrit.
    { vm_compute. eauto. }
    assert (Notebook.losses
              (@Notebook.create_model_cell Toy.zeros Toy.backend 1 [1; 1]%Z (1 # 5)
                 (@Toy.fresh_kernel Toy.backend Toy.two_records)).2 = None) as Hlosses.
    { vm_compute. reflexivity. }
    assert (Notebook.dataloader
              (@Notebook.create_model_cell Toy.zeros Toy.backend 1 [1; 1]%Z (1 # 5)
                 (@Toy.fresh_kernel Toy.backend Toy.two_records)).2
            = Toy.two_records) as Hdl.
    { vm_compute. reflexivity. }
    revert Hcrit Hlosses Hdl.
    generalize (@Notebook.create_model_cell Toy.zeros Toy.backend 1 [1; 1]%Z (1 # 5)
                  (@Toy.fresh_kernel Toy.backend Toy.two_records)).2.
    intros k Hcrit Hlosses Hdl.
    refine (proj1 (proj1 (@finetuning_needs_the_list_of_pretraining
                     Toy.zeros Toy.backend 1 [1; 1]%Z
                     ltac:(simpl; lia) ltac:(repeat constructor; lia) ltac:(lia)
                     2 1 (Notebook.set_files fs k) m0 Hfile Hshaped _ ltac:(lia))
                   Hcrit Hlosses)).
    unfold data_shaped. cbn [Notebook.dataloader Notebook.set_files]. rewrite Hdl.
    repeat constructor.
  - refine (proj1 (proj2 (@finetuning_needs_the_list_of_pretraining
                     Toy.zeros Toy.backend 1 [1; 1]%Z
                     ltac:(simpl; lia) ltac:(repeat constructor; lia) ltac:(lia)
                     2 1
                     (Notebook.set_files fs
                        (@Toy.fresh_kernel Toy.backend Toy.two_records))
                     m0 Hfile Hshaped _ ltac:(lia))
                   eq_refl _ _)).
    + repeat constructor.
    + discriminate.
    + right. intros s n. reflexivity.
Defined.

(** ** The batches of an epoch *)

Lemma batch_lengths_length (n len : nat) :
  length (DataLoader.batch_lengths n len)
  = len / n + (if len mod n =? 0 then 0 else 1).
Proof.
  unfold DataLoader.batch_lengths. rewrite length_app, length_replicate.
  by destruct (len mod n =? 0).
Qed.

(** A loader that yields every record yields them in the batches of
    [batch_lengths]. *)
Lemma DataLoader_iter_length `{Generator} (dl : DataLoader.t) (s : nat) :
  yields_all dl →
  ∃ batches s', DataLoader.iter dl s = (Ok batches, s') ∧
    length batches
    = length (DataLoader.batch_lengths (DataLoader.batch_size dl)
                (length (DataLoader.dataset dl))).
Proof.
  intros Hall. unfold DataLoader.iter.
  set (n := length (DataLoader.dataset dl)).
  destruct (if DataLoader.shuffle dl then (randperm s n, S s) else (seq 0 n, s))
    as [order s0] eqn:Horder.
  eexists _, _. split; [reflexivity|].
  rewrite length_fmap, length_reshape. f_equal. f_equal.
  transitivity (length (omap (λ i, DataLoader.dataset dl !! i) (seq 0 n)));
    [|unfold n; by rewrite omap_lookup_seq].
  apply Permutation_length, omap_Permutation.
  destruct (DataLoader.shuffle dl) eqn:Hshuffle.
  - injection Horder as <- _. destruct Hall as [?|Hall]; [congruence|apply Hall].
  - by injection Horder as <- _.
Qed.

Section Batches.
Context `{Generator} `{Autograd}.

Lemma batches_inv_step (t0 : list event) (k : nat) (st st' : Notebook.t)
    (ls : list Scalar.float) (l : Scalar.float) (m : AutoEncoder.t) (lr : Q) :
  batches_inv t0 k st →
  Notebook.losses st = Some ls → Notebook.losses st' = Some (ls ++ [l]) →
  Notebook.trace st' = (Notebook.trace st ++ [Forward m]) ++ [Step lr] →
  batches_inv t0 (Datatypes.S k) st'.
Proof.
  intros (ls0 & seg & Hls0 & Hlen & Htrace & Hforwards & Hsteps) Hls Hls' Htrace'.
  rewrite Hls in Hls0. injection Hls0 as <-.
  exists (ls ++ [l]), (seg ++ [Forward m; Step lr]). split_and!.
  - done.
  - rewrite length_app. simpl. lia.
  - rewrite Htrace', Htrace, <- !app_assoc. done.
  - unfold Toy.forwards in *. rewrite omap_app, length_app. simpl. lia.
  - unfold Toy.steps in *. rewrite omap_app, length_app. simpl. lia.
Qed.

Lemma train_batch_counts (t0 : list event) (k : nat) (x_batch : mat) :
  hoare (batches_inv t0 k) (Notebook.train_batch x_batch)
    (λ r st, match r with
             | Ok _ => batches_inv t0 (Datatypes.S k) st
             | Raise _ => True
             end).
Proof.
  intros st Hst. pose proof Hst as (ls & seg & Hls & _).
  run_cell; same_reads; simplify_eq; try done.
  all: by eapply batches_inv_step.
Qed.

Lemma batch_loop_counts (st : Notebook.t) :
  batches_inv (Notebook.trace st) 0 st → yields_all (Notebook.dataloader st) →
  match (Notebook.batch_loop st).1 with
  | Ok _ =>
      batches_inv (Notebook.trace st)
        (length (DataLoader.batch_lengths
                   (DataLoader.batch_size (Notebook.dataloader st))
                   (length (DataLoader.dataset (Notebook.dataloader st)))))
        (Notebook.batch_loop st).2
  | Raise _ => True
  end.
Proof.
  intros Hst Hall. unfold Notebook.batch_loop.
  erewrite bind_ok by reflexivity.
  destruct (DataLoader_iter_length (Notebook.dataloader st) (Notebook.rng st) Hall)
    as (batches & s' & Hiter & <-).
  erewrite bind_ok by (unfold Notebook.draw; rewrite Hiter; reflexivity).
  apply (for_each_count (batches_inv (Notebook.trace st)) (λ _, True) batches
           (λ '(x_batch, y_batch), Notebook.train_batch x_batch)); [|exact Hst].
  intros k [x y] _. apply train_batch_counts.
Qed.

(** X13: an epoch of pre-training starts from an empty list of losses,
    whatever the list held before.  When the epoch ends normally, with a
    loader that yields every record, the list holds one loss for each batch,
    as many as the records divided by the batch size, rounded up; one
    forward pass and one optimizer step were made for each; and the mean
    that is assigned, and reported, is the mean of these losses. *)
Theorem pretraining_mean_is_of_the_epoch (n_epochs eval_every epoch : Z)
    (st : Notebook.t) :
  (∀ v, Notebook.pretrain_epoch n_epochs eval_every epoch (Notebook.set_losses v st)
        = Notebook.pretrain_epoch n_epochs eval_every epoch st) ∧
  ((Notebook.pretrain_epoch n_epochs eval_every epoch st).1 = Ok tt →
   yields_all (Notebook.dataloader st) →
   ∃ ls seg,
     Notebook.losses (Notebook.pretrain_epoch n_epochs eval_every epoch st).2
     = Some ls ∧
     Notebook.mean_loss (Notebook.pretrain_epoch n_epochs eval_every epoch st).2
     = Some (Scalar.np_round (Scalar.np_mean ls) 5) ∧
     length ls
     = length (DataLoader.dataset (Notebook.dataloader st))
         / DataLoader.batch_size (Notebook.dataloader st)
       + (if length (DataLoader.dataset (Notebook.dataloader st))
               mod DataLoader.batch_size (Notebook.dataloader st) =? 0
          then 0 else 1) ∧
     Notebook.trace (Notebook.pretrain_epoch n_epochs eval_every epoch st).2
     = Notebook.trace st ++ seg ∧
     length (Toy.forwards seg) = length ls ∧
     length (Toy.steps seg) = length ls).
Proof.
  split; [done|].
  unfold Notebook.pretrain_epoch. erewrite bind_ok by reflexivity.
  set (st1 := Notebook.set_losses (Some []) st).
  intros Hok Hall.
  destruct (seq_ok_inv _ _ _ _ Hok) as (u & st2 & Hloop & Hseq).
  rewrite Hseq in Hok |- *.
  pose proof (batch_loop_counts st1) as Hcount.
  rewrite Hloop in Hcount. simpl in Hcount.
  destruct Hcount as (ls & seg & Hls & Hlen & Htrace & Hforwards & Hsteps);
    [by exists [], []; rewrite app_nil_r|done|].
  rewrite <- batch_lengths_length.
  set (nb := length (DataLoader.batch_lengths _ _)) in *. clearbody nb.
  clear Hseq Hloop. revert Hok. run_cell; same_reads; simplify_eq; try done.
  all: intros _; eexists _, _.
  all: split; [done|]; split; [done|]; split; [done|].
  all: split; [rewrite Htrace, <- ?app_assoc; reflexivity|].
  all: unfold Toy.forwards, Toy.steps in *.
  all: rewrite ?omap_app; simpl; rewrite ?app_nil_r; done.
Qed.

End Batches.

(** The theorem at work: the two records in batches of one. *)
Lemma pretraining_mean_is_of_the_epoch_witness :
  ∃ ls,
    Notebook.losses
      (@Notebook.pretrain_epoch Toy.zeros Toy.backend 2 1 1 (Toy.pretrained 1)).2
    = Some ls ∧
    Notebook.mean_loss
      (@Notebook.pretrain_epoch Toy.zeros Toy.backend 2 1 1 (Toy.pretrained 1)).2
    = Some (Scalar.np_round (Scalar.np_mean ls) 5) ∧
    length ls = 2.
Proof.
  destruct (@pretraining_mean_is_of_the_epoch Toy.zeros Toy.backend 2 1 1
              (Toy.pretrained 1)) as [_ Hepoch].
  destruct Hepoch as (ls & seg & Hls & Hmean & Hlen & _).
  - vm_compute. reflexivity.
  - right. intros s n. reflexivity.
  - exists ls. split; [exact Hls|]. split; [exact Hmean|].
    rewrite Hlen. vm_compute. reflexivity.
Defined.

(** ** What the model is trained on and what it embeds *)

Lemma normalised_spec (v : Z) : (normalised v == (2 * inject_Z v - 255) / 255)%Q.
Proof.
  unfold normalised, Scalar.div, Scalar.sub. rewrite !Qred_correct. field.
Qed.

Lemma transform_concat (img : list (list Z)) :
  concat (MNIST.transform img) = normalised <$> concat img.
Proof.
  unfold MNIST.transform, MNIST.Normalize, MNIST.ToTensor.
  induction img as [|row img IH]; [done|].
  simpl. rewrite fmap_app, <- IH. f_equal.
  rewrite <- list_fmap_compose. done.
Qed.

Lemma normalised_range (v : Z) :
  (0 ≤ v ≤ 255)%Z →
  (-1 <= normalised v)%Q ∧ (normalised v <= 1)%Q ∧ ¬ (normalised v == inject_Z v)%Q.
Proof.
  intros Hv. rewrite !normalised_spec.
  unfold Qle, Qeq, Qdiv, Qmult, Qminus, Qplus, Qopp, Qinv, inject_Z. simpl.
  split_and!; lia.
Qed.

Lemma concat_length_rows {A} (b : nat) (img : list (list A)) :
  Forall (λ row, length row = b) img → length (concat img) = length img * b.
Proof.
  induction 1 as [|row img Hrow _ IH]; [done|].
  simpl. rewrite length_app, IH, Hrow. done.
Qed.

(** The records and the labels of [dataloader]. *)
Lemma MNIST_records (trainset testset : MNIST.t) :
  length (MNIST.data trainset) = length (MNIST.targets trainset) →
  length (MNIST.data testset) = length (MNIST.targets testset) →
  (DataLoader.dataset (MNIST.dataloader trainset testset)).*1
  = (λ img, normalised <$> concat img)
      <$> (MNIST.data trainset ++ MNIST.data testset) ∧
  (DataLoader.dataset (MNIST.dataloader trainset testset)).*2
  = MNIST.y trainset testset.
Proof.
  intros Htrain Htest.
  assert (∀ s : MNIST.t, length (MNIST.data s) = length (MNIST.targets s) →
            ((λ item : mat * Z, (concat item.1, item.2)) <$> MNIST.items s).*1
            = (λ img, normalised <$> concat img) <$> MNIST.data s ∧
            ((λ item : mat * Z, (concat item.1, item.2)) <$> MNIST.items s).*2
            = MNIST.targets s) as Hpart.
  { intros s Hs. unfold MNIST.items. split.
    - transitivity ((λ x : mat, concat x)
                      <$> (zip (MNIST.transform <$> MNIST.data s)
                               (MNIST.targets s)).*1).
      { by rewrite <- !list_fmap_compose. }
      rewrite fst_zip by (rewrite length_fmap; lia).
      rewrite <- list_fmap_compose. apply list_fmap_ext.
      intros _ img _. apply transform_concat.
    - transitivity ((zip (MNIST.transform <$> MNIST.data s) (MNIST.targets s)).*2).
      { by rewrite <- !list_fmap_compose. }
      apply snd_zip. rewrite length_fmap. lia. }
  destruct (Hpart trainset Htrain) as [Htrain1 Htrain2].
  destruct (Hpart testset Htest) as [Htest1 Htest2].
  unfold MNIST.dataloader, MNIST.y. cbn [DataLoader.dataset].
  by rewrite !fmap_app, Htrain1, Htest1, Htrain2, Htest2.
Qed.

(** Images of 28 rows of 28 pixels give records and rows of 784 entries. *)
Lemma MNIST_shapes (trainset testset : MNIST.t) :
  length (MNIST.data trainset) = length (MNIST.targets trainset) →
  length (MNIST.data testset) = length (MNIST.targets testset) →
  Forall (λ img, length img = 28 ∧ Forall (λ row : list Z, length row = 28) img)
    (MNIST.data trainset ++ MNIST.data testset) →
  data_shaped 784 (MNIST.dataloader trainset testset) ∧
  rows_of 784 (length (MNIST.data trainset) + length (MNIST.data testset))
    (MNIST.X trainset testset).
Proof.
  intros Htrain Htest Himages.
  destruct (MNIST_records trainset testset Htrain Htest) as [Hrecords _].
  assert (Forall (λ img : list (list Z), length (concat img) = 784)
            (MNIST.data trainset ++ MNIST.data testset)) as Hflat.
  { eapply Forall_impl; [exact Himages|]. intros img [Hrows Hcols].
    by rewrite (concat_length_rows 28 img Hcols), Hrows. }
  split.
  - assert (Forall (λ r : vec, Z.of_nat (length r) = 784%Z)
              (DataLoader.dataset (MNIST.dataloader trainset testset)).*1)
      as Hshaped.
    { rewrite Hrecords, Forall_fmap. eapply Forall_impl; [exact Hflat|].
      intros img Himg. simpl. by rewrite length_fmap, Himg. }
    rewrite Forall_fmap in Hshaped. exact Hshaped.
  - split; [unfold MNIST.X; by rewrite length_fmap, length_app|].
    unfold MNIST.X. rewrite Forall_fmap. eapply Forall_impl; [exact Hflat|].
    intros img Himg. simpl. by rewrite length_fmap, Himg.
Qed.

(** X14: the model is trained on normalised records and is asked to embed
    raw ones.  The records of [dataloader] are the stored images flattened,
    every pixel value [v] replaced by [(v / 255 - 0.5) / 0.5], which lies
    between -1 and 1; the rows of [X], which the evaluation cells pass to
    the model, are the same images with the pixel values as stored, and no
    pixel value between 0 and 255 is its own normalised value.  The labels
    of the records are [y], and images of 28 rows of 28 pixels give records
    and rows of 784 entries. *)
Theorem evaluation_embeds_raw_pixels (trainset testset : MNIST.t) :
  length (MNIST.data trainset) = length (MNIST.targets trainset) →
  length (MNIST.data testset) = length (MNIST.targets testset) →
  (DataLoader.dataset (MNIST.dataloader trainset testset)).*1
  = (λ img, normalised <$> concat img)
      <$> (MNIST.data trainset ++ MNIST.data testset) ∧
  MNIST.X trainset testset
  = (λ img, inject_Z <$> concat img)
      <$> (MNIST.data trainset ++ MNIST.data testset) ∧
  (DataLoader.dataset (MNIST.dataloader trainset testset)).*2
  = MNIST.y trainset testset ∧
  (∀ v, (0 ≤ v ≤ 255)%Z →
     (-1 <= normalised v)%Q ∧ (normalised v <= 1)%Q ∧
     ¬ (normalised v == inject_Z v)%Q) ∧
  (Forall (λ img, length img = 28 ∧ Forall (λ row : list Z, length row = 28) img)
     (MNIST.data trainset ++ MNIST.data testset) →
   data_shaped 784 (MNIST.dataloader trainset testset) ∧
   rows_of 784 (length (MNIST.data trainset) + length (MNIST.data testset))
     (MNIST.X trainset testset)).
Proof.
  intros Htrain Htest.
  destruct (MNIST_records trainset testset Htrain Htest) as [Hrecords Hlabels].
  split_and!; [exact Hrecords|reflexivity|exact Hlabels|apply normalised_range|].
  by apply MNIST_shapes.
Qed.

(** The theorem at work: one image of two pixels in each part. *)
Lemma evaluation_embeds_raw_pixels_witness :
  (DataLoader.dataset
     (MNIST.dataloader
        {| MNIST.data := [[[0; 255]]]%Z; MNIST.targets := [5%Z] |}
        {| MNIST.data := [[[128; 1]]]%Z; MNIST.targets := [3%Z] |})).*1
  = [[-1; 1]; [1 # 255; -253 # 255]]%Q ∧
  MNIST.X {| MNIST.data := [[[0; 255]]]%Z; MNIST.targets := [5%Z] |}
          {| MNIST.data := [[[128; 1]]]%Z; MNIST.targets := [3%Z] |}
  = [[0; 255]; [128; 1]]%Q.
Proof.
  destruct (evaluation_embeds_raw_pixels
              {| MNIST.data := [[[0; 255]]]%Z; MNIST.targets := [5%Z] |}
              {| MNIST.data := [[[128; 1]]]%Z; MNIST.targets := [3%Z] |}
              eq_refl eq_refl) as (Hrecords & HX & _).
  split; [rewrite Hrecords|rewrite HX]; reflexivity.
Defined.

(** ** The notebook from top to bottom *)



(** * Where a checkpoint cannot be written *)

Lemma for_each_snoc {S A} (l : list A) (x : A) (body : A → M S unit) (s : S) :
  for_each (l ++ [x]) body s = (for_each l body;; body x) s.
Proof.
  revert s. induction l as [|y l IH]; intros s.
  - cbn [app for_each]. unfold mbind, M_bind, mret, M_ret.
    by destruct (body x s) as [[[]|?] ?].
  - cbn [app for_each]. unfold mbind, M_bind in *.
    destruct (body y s) as [[[]|?] s1]; [apply IH|done].
Qed.

Lemma pretrain_epochs_S `{Generator} `{Autograd} (n_epochs eval_every : Z)
    (j : nat) (st : Notebook.t) :
  pretrain_epochs n_epochs eval_every (Datatypes.S j) st
  = (pretrain_epochs n_epochs eval_every j;;
     Notebook.pretrain_epoch n_epochs eval_every (Z.of_nat j)) st.
Proof.
  rewrite pretrain_epochs_unfold, py_range_S, for_each_snoc.
  unfold mbind, M_bind. by rewrite pretrain_epochs_unfold.
Qed.

Section NoCheckpoint.
Context `{Generator} `{Autograd}.

(** A mean that is below a value is a number. *)
Lemma float_ltb_finite (x b : Scalar.float) :
  Scalar.float_ltb x b = true → is_finite x.
Proof. destruct x as [q| |]; [by exists q|done|done]. Qed.

(** An epoch of pre-training whose mean loss is not a number writes no
    checkpoint, however it ends. *)
Lemma pretrain_epoch_keeps_files (n_epochs eval_every epoch : Z) (st : Notebook.t) :
  ¬ mean_is_finite (Notebook.pretrain_epoch n_epochs eval_every epoch st).2 →
  Notebook.files (Notebook.pretrain_epoch n_epochs eval_every epoch st).2
  = Notebook.files st.
Proof.
  assert (hoare (λ s, Notebook.files s = Notebook.files st)
            (Notebook.pretrain_epoch n_epochs eval_every epoch)
            (λ _ s, ¬ mean_is_finite s → Notebook.files s = Notebook.files st))
    as Hepoch.
  { unfold Notebook.pretrain_epoch.
    pose (J := λ s : Notebook.t, Notebook.files s = Notebook.files st).
    eapply hoare_bind with (R := λ _, J); [by intros s Hs|intros ?|done].
    eapply hoare_bind with (R := λ _, J); [|intros ?|done].
    { apply batch_loop_invariant; [by intros s r Hs|].
      intros x s Hs. unfold J. by run_cell. }
    intros s Hs. unfold J in Hs. run_cell; try done.
    all: intros Hnot; exfalso; apply Hnot.
    all: match goal with
         | Hlt : Scalar.float_ltb _ _ = true |- _ =>
             destruct (float_ltb_finite _ _ Hlt) as [q Hq]
         end.
    all: exists q; cbn; by rewrite Hq. }
  intros Hnot. by apply Hepoch.
Qed.

(** The epochs of pre-training whose mean loss is not a number leave the
    files as they are. *)
Lemma pretrain_epochs_keep_files (n_epochs eval_every : Z) (ns : Notebook.t)
    (j : nat) :
  (∀ i, i < j →
     ¬ mean_is_finite (pretrain_epochs n_epochs eval_every (Datatypes.S i) ns).2) →
  Notebook.files (pretrain_epochs n_epochs eval_every j ns).2 = Notebook.files ns.
Proof.
  induction j as [|j IH]; intros Hmeans; [done|].
  specialize (IH ltac:(intros i Hi; apply Hmeans; lia)).
  specialize (Hmeans j ltac:(lia)).
  rewrite pretrain_epochs_S in Hmeans |- *.
  unfold mbind, M_bind in Hmeans |- *.
  destruct (pretrain_epochs n_epochs eval_every j ns) as [[[]|err] st]; [|done].
  cbn [snd] in IH. rewrite <- IH. by apply pretrain_epoch_keeps_files.
Qed.

(** X17: a mean loss that is [inf] or [nan] is not below any value of
    [best_loss], so that an epoch of pre-training that leaves such a mean
    has written no checkpoint, however it ended.  A pre-training cell none
    of whose epochs has a mean loss that is a number leaves the files as
    they were; and where there was no pre-trained checkpoint before it, the
    fine-tuning cell that follows fails at its load with
    [FileNotFoundError]. *)
Theorem mean_out_of_range_writes_no_checkpoint (n_epochs eval_every : Z)
    (ns : Notebook.t) :
  (∀ epoch st,
     ¬ mean_is_finite (Notebook.pretrain_epoch n_epochs eval_every epoch st).2 →
     Notebook.files (Notebook.pretrain_epoch n_epochs eval_every epoch st).2
     = Notebook.files st) ∧
  ((∀ i, i < Z.to_nat n_epochs →
      ¬ mean_is_finite (pretrain_epochs n_epochs eval_every (Datatypes.S i) ns).2) →
   Notebook.files (Notebook.pretrain_cell n_epochs eval_every ns).2
   = Notebook.files ns ∧
   (Notebook.files ns !! pretrained_path = None →
    ∀ n_fine every_fine,
      Notebook.finetune_cell n_fine every_fine
        (Notebook.pretrain_cell n_epochs eval_every ns).2
      = (Raise (FileNotFoundError pretrained_path),
         (Notebook.pretrain_cell n_epochs eval_every ns).2))).
Proof.
  split; [intros epoch st; apply pretrain_epoch_keeps_files|].
  intros Hmeans.
  assert (Notebook.files (Notebook.pretrain_cell n_epochs eval_every ns).2
          = Notebook.files ns) as Hfiles.
  { rewrite pretrain_cell_epochs. by apply pretrain_epochs_keep_files. }
  split; [exact Hfiles|].
  intros Hnone n_fine every_fine. unfold Notebook.finetune_cell.
  erewrite bind_raise; [done|].
  apply load_model_absent. by rewrite Hfiles.
Qed.

Context (input_size : Z) (hl : list Z).
Context (Hlen : 2 ≤ length hl) (Hnonneg : Forall (λ w, (0 ≤ w)%Z) hl)
        (Hin : (0 ≤ input_size)%Z).

(** An epoch of pre-training where the directory of the checkpoints does
    not exist: the epoch that has to write raises. *)
Lemma pretrain_epoch_no_directory (n_epochs eval_every epoch : Z)
    (f0 : gmap string AutoEncoder.t) (sch0 : StepLR.t) :
  eval_every ≠ 0%Z →
  hoare (λ st, runnable input_size hl st ∧ Notebook.scheduler st = Some sch0 ∧
               Notebook.best_loss st = Some Scalar.Inf ∧
               Notebook.files st = f0 ∧ Notebook.torch_models st = false)
    (Notebook.pretrain_epoch n_epochs eval_every epoch)
    (λ r st, Notebook.files st = f0 ∧
             (mean_is_finite st →
              r = Raise RuntimeError ∧
              Notebook.best_loss st = Notebook.loss st ∧
              is_Some (Notebook.loss st))).
Proof.
  intros Heval. unfold Notebook.pretrain_epoch.
  eapply hoare_bind
    with (R := λ r st, r = Ok tt ∧
                       epoch_inv input_size hl (Some Scalar.Inf) f0
                         (Notebook.dataloader st) (Some sch0) false st);
    [|intros ?|by intros ?? [[=] _]].
  { intros st (Htrain & Hsch & Hbest & Hfiles & Hdir). split; [done|].
    split_and!; try done. exists []. by split_and!. }
  eapply hoare_bind
    with (R := λ r st, r = Ok tt ∧
                       ∃ dl0, epoch_inv input_size hl (Some Scalar.Inf) f0
                                dl0 (Some sch0) false st);
    [|intros ?|by intros ?? [[=] _]].
  { intros st [_ Hst].
    destruct (batch_loop_epoch input_size hl Hlen Hnonneg Hin _ _ _ _ _ st Hst)
      as (? & ? & _).
    split; [done|]. by eexists. }
  intros st (_ & dl0 & Hinv).
  destruct Hinv as (((i & m & Hmodel & Hshaped) & [o Ho] & [u Hu] & Hdata)
                    & Hbest & Hfiles & Hdl & Hsch & Hdir & ls & Hls & Hloss & _).
  apply Z.eqb_neq in Heval.
  run_cell; same_reads; simplify_eq; try congruence.
  all: try (exfalso;
            match goal with
            | Hlt : Scalar.float_ltb _ _ = true, Hnone : Notebook.loss _ = None |- _ =>
                destruct (Hloss (float_ltb_mean_nonempty _ _ Hlt)) as [? Hsome];
                congruence
            end).
  all: split; [done|].
  all: intros [q Hq]; cbn in Hq; injection Hq as Hq.
  all: first
    [ by (split_and!; [done|done|by eexists])
    | exfalso;
      match goal with
      | Hlt : Scalar.float_ltb _ Scalar.Inf = false |- _ =>
          rewrite Hq in Hlt; discriminate Hlt
      end ].
Qed.

(** X16: no cell creates the directory ./torch_models.  Where it does not
    exist, no training cell writes a file, however it ends; and the
    pre-training cell, in a kernel with the model, the optimizer, the
    scheduler and [loss_] of the cell that creates the model, raises
    [RuntimeError] at the end of its first epoch when the mean loss of that
    epoch is a number: the epoch has then bound [best_loss] to the loss of
    its last batch and has no checkpoint to show for it. *)
Theorem missing_directory_stops_the_first_save (n_epochs eval_every : Z)
    (ns : Notebook.t) :
  Notebook.torch_models ns = false →
  Notebook.files (Notebook.pretrain_cell n_epochs eval_every ns).2
  = Notebook.files ns ∧
  Notebook.files (Notebook.finetune_cell n_epochs eval_every ns).2
  = Notebook.files ns ∧
  (trainable input_size hl ns → eval_every ≠ 0%Z → (0 < n_epochs)%Z →
   mean_is_finite (pretrain_epochs n_epochs eval_every 1 ns).2 →
   (Notebook.pretrain_cell n_epochs eval_every ns).1 = Raise RuntimeError ∧
   Notebook.best_loss (Notebook.pretrain_cell n_epochs eval_every ns).2
   = Notebook.loss (Notebook.pretrain_cell n_epochs eval_every ns).2 ∧
   is_Some (Notebook.loss (Notebook.pretrain_cell n_epochs eval_every ns).2)).
Proof.
  intros Hdir.
  pose (J := λ st : Notebook.t,
    Notebook.torch_models st = false ∧ Notebook.files st = Notebook.files ns).
  assert (∀ x, hoare J (Notebook.train_batch x) (λ _, J)) as Hbatch.
  { intros x st [Hd Hf]. unfold J. by run_cell. }
  assert (∀ epoch n e, hoare J (Notebook.report epoch n e) (λ _, J)) as Hreport.
  { intros epoch n e st [Hd Hf]. unfold J. by run_cell. }
  assert (∀ path, hoare J (Notebook.torch_save path) (λ _, J)) as Hsave.
  { intros path st [Hd Hf]. unfold J. by run_cell. }
  split_and!.
  - apply (pretrain_cell_invariant_at J); try done.
    intros st [Hd Hf]. unfold J. by run_cell.
  - by apply (finetune_cell_invariant J).
  - intros [Hrun [sch0 Hsch]] Heval Hn Hfinite.
    rewrite pretrain_epochs_first in Hfinite.
    unfold Notebook.pretrain_cell.
    erewrite bind_ok by reflexivity.
    rewrite py_range_pos by done. cbn [for_each].
    pose proof (pretrain_epoch_no_directory n_epochs eval_every 0
                  (Notebook.files ns) sch0 Heval
                  (Notebook.set_best_loss (Some Scalar.Inf) ns)
                  ltac:(by split_and!)) as [_ Hepoch].
    destruct (Hepoch Hfinite) as (Hraise & Hbest & Hloss).
    destruct (Notebook.pretrain_epoch n_epochs eval_every 0
                (Notebook.set_best_loss (Some Scalar.Inf) ns)) as [r st'] eqn:Hrun'.
    cbn [fst snd] in Hraise, Hbest, Hloss. subst r.
    erewrite bind_raise by exact Hrun'. by split_and!.
Qed.

End NoCheckpoint.

(** The theorem at work: the two records, where the directory does not
    exist; the mean loss of the first epoch is 4.58. *)
Lemma missing_directory_stops_the_first_save_witness :
  (@Notebook.pretrain_cell Toy.zeros Toy.backend 2 1
     (@Notebook.create_model_cell Toy.zeros Toy.backend 1 [1; 1]%Z (1 # 5)
        (@Toy.no_directory Toy.backend Toy.two_records)).2).1
  = Raise RuntimeError.
Proof.
  destruct (@create_model_cell_run Toy.zeros Toy.backend 1 [1; 1]%Z (1 # 5)
              (@Toy.no_directory Toy.backend Toy.two_records))
    as (ns1 & Hcreate & Htrain & _ & _ & _ & Hdir1).
  { discriminate. }
  { repeat constructor; lia. }
  { lia. }
  { split; reflexivity. }
  { repeat constructor. }
  assert (mean_is_finite
            (@pretrain_epochs Toy.zeros Toy.backend 2 1 1
               (@Notebook.create_model_cell Toy.zeros Toy.backend 1 [1; 1]%Z (1 # 5)
                  (@Toy.no_directory Toy.backend Toy.two_records)).2).2) as Hfinite.
  { exists (229 # 50). vm_compute. reflexivity. }
  revert Hfinite. rewrite Hcreate. cbn [snd]. intros Hfinite.
  refine (proj1 (proj2 (proj2 (@missing_directory_stops_the_first_save
                   Toy.zeros Toy.backend 1 [1; 1]%Z
                   ltac:(simpl; lia) ltac:(repeat constructor; lia) ltac:(lia)
                   2 1 ns1 Hdir1))
                   Htrain ltac:(discriminate) ltac:(lia) Hfinite)).
Defined.

(** The theorem at work: one record of 10^30, whose squared error float32
    does not hold.  The loss of the epoch is [inf], the cell ends normally
    and writes nothing, and fine-tuning does not find the checkpoint. *)
Lemma mean_out_of_range_writes_no_checkpoint_witness :
  Notebook.mean_loss
    (@Notebook.pretrain_cell Toy.zeros Toy.backend_float32 1 1
       (@Notebook.create_model_cell Toy.zeros Toy.backend_float32 1 [1; 1]%Z (1 # 5)
          (@Toy.fresh_kernel Toy.backend_float32 Toy.huge_record)).2).2
  = Some Scalar.Inf ∧
  (@Notebook.pretrain_cell Toy.zeros Toy.backend_float32 1 1
     (@Notebook.create_model_cell Toy.zeros Toy.backend_float32 1 [1; 1]%Z (1 # 5)
        (@Toy.fresh_kernel Toy.backend_float32 Toy.huge_record)).2).1 = Ok tt ∧
  (@Notebook.finetune_cell Toy.zeros Toy.backend_float32 1 1
     (@Notebook.pretrain_cell Toy.zeros Toy.backend_float32 1 1
        (@Notebook.create_model_cell Toy.zeros Toy.backend_float32 1 [1; 1]%Z (1 # 5)
           (@Toy.fresh_kernel Toy.backend_float32 Toy.huge_record)).2).2).1
  = Raise (FileNotFoundError pretrained_path).
Proof.
  split; [vm_compute; reflexivity|]. split; [vm_compute; reflexivity|].
  destruct (@mean_out_of_range_writes_no_checkpoint Toy.zeros Toy.backend_float32
              1 1
              (@Notebook.create_model_cell Toy.zeros Toy.backend_float32
                 1 [1; 1]%Z (1 # 5)
                 (@Toy.fresh_kernel Toy.backend_float32 Toy.huge_record)).2)
    as [_ Hcell].
  destruct Hcell as [_ Hload].
  { intros i Hi [q Hq]. assert (i = 0) as -> by (simpl in Hi; lia).
    vm_compute in Hq. discriminate Hq. }
  rewrite Hload; [reflexivity|]. vm_compute. reflexivity.
Defined.
